(** * Refresh monitor of snapd-desktop-integration

    A shallow embedding of [src/sdi-refresh-monitor.c]: the handlers that
    the GLib main loop runs for snapd notices, for completed snapd queries
    and for the poll timers, written as functions over an explicit state.

    - GHashTable with string keys: [gmap string _].
    - guint / gsize counters: [Z] with the wrap-around written out.
    - gdouble: binary64 primitive floats.
    - calls that leave the process (snapd queries, GObject signals, D-Bus
      emissions, log lines): an output trace of [Effect]s, in call order.
    - a NULL dereference: the handler has no result ([None]). *)

From Stdlib Require Import ZArith String List Bool Lia PrimFloat Uint63.
From stdpp Require Import gmap strings list fin_maps.

Open Scope string_scope.
Open Scope list_scope.
Open Scope Z_scope.

(** ** Machine integers and doubles *)

Definition guint_max : Z := 2 ^ 32.
Definition gsize_max : Z := 2 ^ 64.

(** [n++] on a guint. *)
Definition guint_incr (n : Z) : Z := (n + 1) mod guint_max.

(** [n++] on a gsize. *)
Definition gsize_incr (n : Z) : Z := (n + 1) mod gsize_max.

(** [(gdouble) n] for a guint [n]: exact, a guint has 32 bits. *)
Definition gdouble_of_guint (n : Z) : float :=
  PrimFloat.of_uint63 (Uint63.of_Z n).

(** ** snapd-glib objects, as far as the monitor reads them *)

(** [snapd_task_data_get_affected_snaps] may return NULL. *)
Record SnapdTaskData := {
  affected_snaps : option (list string);
}.

Record SnapdTask := {
  task_status : string;
  task_summary : string;
  task_data : option SnapdTaskData;
}.

(** [change_data] is the auto-refresh payload: its snap names. *)
Record SnapdChange := {
  change_id : string;
  change_kind : string;
  change_status : string;
  change_tasks : list SnapdTask;
  change_data : option (list string);
}.

(** What [sdi_get_desktop_file_from_snap] finds for a snap: a display name
    and an "Icon" entry, each possibly missing. *)
Record AppInfo := {
  display_name : option string;
  app_icon : option string;
}.

(** [snap_proceed_time] is in microseconds; [snap_app_info] stands for the
    desktop file that [sdi-helpers] finds for this snap. *)
Record SnapdSnap := {
  snap_name : option string;
  snap_proceed_time : Z;
  snap_app_info : option AppInfo;
}.

Inductive SnapdNoticeType :=
| SNAPD_NOTICE_TYPE_UNKNOWN
| SNAPD_NOTICE_TYPE_CHANGE_UPDATE
| SNAPD_NOTICE_TYPE_REFRESH_INHIBIT
| SNAPD_NOTICE_TYPE_SNAP_RUN_INHIBIT.

Record SnapdNotice := {
  notice_type : SnapdNoticeType;
  notice_key : string;
  notice_last_data : gmap string string;
}.

(** The result a [*_finish] call hands to a GAsyncReadyCallback: an object,
    NULL without an error, or a GError (which may be G_IO_ERROR_CANCELLED). *)
Inductive AsyncResult (A : Type) :=
| AsyncOk (a : A)
| AsyncNull
| AsyncError (cancelled : bool) (message : string).
Arguments AsyncOk {A} a.
Arguments AsyncNull {A}.
Arguments AsyncError {A} cancelled message.

(** ** Objects of the application *)

(** Modelled from the spec: the SdiRefreshDialog widget, an opaque handle
    of the view layer made from a snap name and a display name, with an
    optional icon; [dialog_id] is the identity of the object. *)
Record SdiRefreshDialog := {
  dialog_id : nat;
  app_name : string;
  visible_name : string;
  icon_image : option string;
}.

(** Modelled from the spec: the SdiSnap object, of which this file only has
    the accessor calls.  It is the spec's PackageRecord: the name, four
    flags that start out false, and the dialog bound to the snap. *)
Record SdiSnap := {
  sdi_name : string;
  inhibited : bool;
  ignored : bool;
  hidden : bool;
  manually_hidden : bool;
  dialog : option SdiRefreshDialog;
}.

(** Modelled from the spec: a record as created on the first reference to
    the package, with no flag set and no dialog. *)
Definition sdi_snap_new (name : string) : SdiSnap :=
  {| sdi_name := name; inhibited := false; ignored := false; hidden := false;
     manually_hidden := false; dialog := None |}.

Definition with_inhibited (v : bool) (s : SdiSnap) : SdiSnap :=
  {| sdi_name := sdi_name s; inhibited := v; ignored := ignored s;
     hidden := hidden s; manually_hidden := manually_hidden s;
     dialog := dialog s |}.

Definition with_ignored (v : bool) (s : SdiSnap) : SdiSnap :=
  {| sdi_name := sdi_name s; inhibited := inhibited s; ignored := v;
     hidden := hidden s; manually_hidden := manually_hidden s;
     dialog := dialog s |}.

Definition with_manually_hidden (v : bool) (s : SdiSnap) : SdiSnap :=
  {| sdi_name := sdi_name s; inhibited := inhibited s; ignored := ignored s;
     hidden := hidden s; manually_hidden := v; dialog := dialog s |}.

Definition with_dialog (v : option SdiRefreshDialog) (s : SdiSnap) : SdiSnap :=
  {| sdi_name := sdi_name s; inhibited := inhibited s; ignored := ignored s;
     hidden := hidden s; manually_hidden := manually_hidden s; dialog := v |}.

(** [desktop_files] is the GPtrArray pointer: NULL when the applications
    folder could not be opened. *)
Record SnapProgressTaskData := {
  total_tasks : Z;
  done_tasks : Z;
  old_progress : float;
  done : bool;
  desktop_files : option (list string);
}.

(** The a{sv} dictionary sent to the launcher. *)
Record LauncherValues := {
  progress : float;
  progress_visible : bool;
  updating : bool;
}.

(** An SdiNotify object, of which this file only holds a pointer. *)
Inductive SdiNotify := SdiNotifyObject.

(** The fields of [struct _SdiRefreshMonitor] that the handlers read or
    change.  [notify] is the SdiNotify pointer, NULL or an object.
    [changes] maps a change id to the id of its poll timer.  [main_window]
    is NULL or the window whose box holds the listed dialogs. *)
Record SdiRefreshMonitor := {
  notify : option SdiNotify;
  snaps : gmap string SdiSnap;
  changes : gmap string nat;
  refreshing_snap_list : gmap string SnapProgressTaskData;
  main_window : option (list SdiRefreshDialog);
}.

(** The monitor together with the part of the process around it that the
    handlers change: the one-shot timeouts of the main loop (source id and
    the change id in their SnapRefreshData) and the two allocators. *)
Record World := {
  self : SdiRefreshMonitor;
  timeouts : list (nat * string);
  next_source : nat;
  next_object : nat;
}.

(** ** Calls that leave the process *)

Inductive SnapCallback := begin_application_refresh_cb | show_snap_completed_cb.

Inductive Effect :=
| SnapdClientGetChangeAsync (id : string)
| SnapdClientGetSnapAsync (name : string) (callback : SnapCallback)
| SnapdClientGetSnapsAsyncRefreshInhibited
| LauncherEntryEmitUpdate (desktop_file : string) (values : LauncherValues)
| SignalNotifyPendingRefresh (snap_list : list SnapdSnap)
| SignalNotifyPendingRefreshForced (snap : SnapdSnap) (next_refresh : Z)
    (allow_to_ignore : bool)
| SignalNotifyRefreshComplete (snap : option SnapdSnap) (name : option string)
| SdiRefreshDialogSetNTasksProgress (dlg : SdiRefreshDialog) (summary : string)
    (done_count total : Z)
| GPrint (message : string)
| GDebug (message : string).

(** ** The handler monad

    A handler runs on a world and either stops on a NULL dereference or
    returns a value, the new world and the calls it made, in order. *)

Definition M (A : Type) : Type := World -> option (A * World * list Effect).

Definition ret {A : Type} (a : A) : M A := fun w => Some (a, w, []).

Definition bind {A B : Type} (m : M A) (k : A -> M B) : M B :=
  fun w =>
    match m w with
    | None => None
    | Some (a, w1, out1) =>
        match k a w1 with
        | None => None
        | Some (b, w2, out2) => Some (b, w2, out1 ++ out2)
        end
    end.

#[global] Instance M_ret : MRet M := @ret.
#[global] Instance M_bind : MBind M := fun A B k m => bind m k.

(** A NULL dereference. *)
Definition crash {A : Type} : M A := fun _ => None.

Definition emit (e : Effect) : M unit := fun w => Some (tt, w, [e]).

Definition get_self : M SdiRefreshMonitor := fun w => Some (self w, w, []).

Definition put_self (s : SdiRefreshMonitor) : M unit :=
  fun w => Some (tt, {| self := s; timeouts := timeouts w;
                        next_source := next_source w;
                        next_object := next_object w |}, []).

Definition set_snaps (f : gmap string SdiSnap -> gmap string SdiSnap)
    : M unit :=
  s ← get_self;
  put_self {| notify := notify s; snaps := f (snaps s); changes := changes s;
              refreshing_snap_list := refreshing_snap_list s;
              main_window := main_window s |}.

Definition set_changes (f : gmap string nat -> gmap string nat) : M unit :=
  s ← get_self;
  put_self {| notify := notify s; snaps := snaps s; changes := f (changes s);
              refreshing_snap_list := refreshing_snap_list s;
              main_window := main_window s |}.

Definition set_refreshing_snap_list
    (f : gmap string SnapProgressTaskData -> gmap string SnapProgressTaskData)
    : M unit :=
  s ← get_self;
  put_self {| notify := notify s; snaps := snaps s; changes := changes s;
              refreshing_snap_list := f (refreshing_snap_list s);
              main_window := main_window s |}.

Definition set_main_window (v : option (list SdiRefreshDialog)) : M unit :=
  s ← get_self;
  put_self {| notify := notify s; snaps := snaps s; changes := changes s;
              refreshing_snap_list := refreshing_snap_list s;
              main_window := v |}.

(** A new GObject: its identity is the next unused one. *)
Definition new_object : M nat :=
  fun w => Some (next_object w,
                 {| self := self w; timeouts := timeouts w;
                    next_source := next_source w;
                    next_object := S (next_object w) |}, []).

(** [g_timeout_add_once (interval, refresh_change, data)] where [data] holds
    [change_id]: the main loop gets one more source and returns its id. *)
Definition g_timeout_add_once (interval : Z) (data_change_id : string)
    : M nat :=
  fun w => Some (next_source w,
                 {| self := self w;
                    timeouts := timeouts w ++ [(next_source w, data_change_id)];
                    next_source := S (next_source w);
                    next_object := next_object w |}, []).

(** The loop over a NULL-terminated GStrv or over a GPtrArray, by index. *)
Fixpoint for_each {A : Type} (body : A -> M unit) (l : list A) : M unit :=
  match l with
  | [] => mret tt
  | x :: rest => body x;; for_each body rest
  end.

(** ** Strings *)

Definition g_str_equal (a b : string) : bool := String.eqb a b.

Definition g_str_has_prefix (str prefix : string) : bool :=
  String.prefix prefix str.

Definition g_str_has_suffix (str suffix : string) : bool :=
  let n := String.length str in
  let m := String.length suffix in
  (m <=? n)%nat && String.eqb (String.substring (n - m) m str) suffix.

(** ** The functions of sdi-refresh-monitor.c *)

Definition CHANGE_REFRESH_PERIOD : Z := 500.

(** [now] is the local time of the call, in microseconds; the division of
    two gint64 truncates. *)
Definition get_remaining_time_in_seconds (now : Z) (snap : SnapdSnap) : Z :=
  Z.quot (snap_proceed_time snap - now) 1000000.

(** [desktop_folder] is what [g_dir_open] and [g_dir_read_name] give for
    /var/lib/snapd/desktop/applications: NULL, or the file names. *)
Definition get_desktop_filenames_for_snap (desktop_folder : option (list string))
    (snap_name : string) : option (list string) :=
  match desktop_folder with
  | None => None
  | Some filenames =>
      let prefix := snap_name +:+ "_" in
      Some (List.filter
              (fun filename =>
                 g_str_has_prefix filename prefix
                 && g_str_has_suffix filename ".desktop")
              filenames)
  end.

Definition new_progress_task_data (desktop_folder : option (list string))
    (snap_name : string) : SnapProgressTaskData :=
  {| total_tasks := 0;
     done_tasks := 0;
     old_progress := (-1)%float;
     done := false;
     desktop_files := get_desktop_filenames_for_snap desktop_folder snap_name |}.

Definition find_snap (snap_name : string) : M (option SdiSnap) :=
  s ← get_self; mret (snaps s !! snap_name).

Definition add_snap (snap_name : string) : M SdiSnap :=
  found ← find_snap snap_name;
  match found with
  | Some snap => mret snap
  | None =>
      let snap := sdi_snap_new snap_name in
      set_snaps (insert snap_name snap);; mret snap
  end.

(** Modelled from the spec: the setters of SdiSnap store one field.  The
    object they act on is the one held in [snaps] under the snap's name. *)
Definition sdi_snap_set_inhibited (snap : SdiSnap) (v : bool) : M unit :=
  set_snaps (alter (with_inhibited v) (sdi_name snap)).

Definition sdi_snap_set_ignored (snap : SdiSnap) (v : bool) : M unit :=
  set_snaps (alter (with_ignored v) (sdi_name snap)).

Definition sdi_snap_set_manually_hidden (snap : SdiSnap) (v : bool) : M unit :=
  set_snaps (alter (with_manually_hidden v) (sdi_name snap)).

Definition sdi_snap_set_dialog (snap : SdiSnap) (v : option SdiRefreshDialog)
    : M unit :=
  set_snaps (alter (with_dialog v) (sdi_name snap)).

Definition same_widget (a b : SdiRefreshDialog) : bool :=
  Nat.eqb (dialog_id a) (dialog_id b).

Definition contains_child (children : list SdiRefreshDialog)
    (query_child : SdiRefreshDialog) : bool :=
  existsb (same_widget query_child) children.

Definition gtk_box_remove (children : list SdiRefreshDialog)
    (child : SdiRefreshDialog) : list SdiRefreshDialog :=
  List.filter (fun c => negb (same_widget child c)) children.

(** Without a window the box has no children to find. *)
Definition remove_dialog (dlg : option SdiRefreshDialog) : M unit :=
  match dlg with
  | None => mret tt
  | Some dlg =>
      s ← get_self;
      match main_window s with
      | None => mret tt
      | Some children =>
          if negb (contains_child children dlg) then mret tt
          else
            match gtk_box_remove children dlg with
            | [] => set_main_window None
            | rest => set_main_window (Some rest)
            end
      end
  end.

Definition remove_snap (snap : option SdiSnap) : M unit :=
  match snap with
  | None => mret tt
  | Some snap =>
      remove_dialog (dialog snap);;
      set_snaps (delete (sdi_name snap))
  end.

(** A setter called on a NULL SdiSnap returns at once. *)
Definition close_dialog_cb (dlg : SdiRefreshDialog) : M unit :=
  let snap_name := app_name dlg in
  snap ← find_snap snap_name;
  match snap with
  | None => remove_dialog (Some dlg)
  | Some snap =>
      sdi_snap_set_manually_hidden snap true;;
      remove_dialog (Some dlg);;
      sdi_snap_set_dialog snap None
  end.

Definition add_dialog_to_main_window (dlg : SdiRefreshDialog) : M unit :=
  s ← get_self;
  match main_window s with
  | None => set_main_window (Some [dlg])
  | Some children => set_main_window (Some (children ++ [dlg]))
  end.

(** Modelled from the spec: createDialog (packageName, displayName) gives
    a new handle. *)
Definition sdi_refresh_dialog_new (name visible : string) : M SdiRefreshDialog :=
  id ← new_object;
  mret {| dialog_id := id; app_name := name; visible_name := visible;
          icon_image := None |}.

(** Modelled from the spec: the icon of createDialog, set on the handle. *)
Definition sdi_refresh_dialog_set_icon_image (dlg : SdiRefreshDialog)
    (icon : string) : SdiRefreshDialog :=
  {| dialog_id := dialog_id dlg; app_name := app_name dlg;
     visible_name := visible_name dlg; icon_image := Some icon |}.

(** [data_snap_name] is [data->snap_name]. *)
Definition begin_application_refresh (data_snap_name : string)
    (res : AsyncResult SnapdSnap) : M unit :=
  let generic_data :=
    sdi_snap ← add_snap data_snap_name;
    match dialog sdi_snap with
    | Some _ => mret tt
    | None =>
        dlg ← sdi_refresh_dialog_new data_snap_name data_snap_name;
        add_dialog_to_main_window dlg;;
        sdi_snap_set_dialog sdi_snap (Some dlg)
    end in
  match res with
  | AsyncError true _ => mret tt
  | AsyncError false _ => generic_data
  | AsyncNull => generic_data
  | AsyncOk snap =>
      name ← (match snap_name snap with
              | None => crash
              | Some name => mret name
              end);
      sdi_snap ← add_snap name;
      match dialog sdi_snap with
      | Some _ => mret tt
      | None =>
          let visible :=
            match snap_app_info snap with
            | Some app_info => default name (display_name app_info)
            | None => name
            end in
          let icon :=
            match snap_app_info snap with
            | Some app_info => app_icon app_info
            | None => None
            end in
          dlg ← sdi_refresh_dialog_new name visible;
          let dlg :=
            match icon with
            | Some icon => sdi_refresh_dialog_set_icon_image dlg icon
            | None => dlg
            end in
          add_dialog_to_main_window dlg;;
          sdi_snap_set_dialog sdi_snap (Some dlg)
      end
  end.

Definition show_snap_completed (data_snap_name : string)
    (res : AsyncResult SnapdSnap) : M unit :=
  match res with
  | AsyncError true _ => mret tt
  | AsyncOk snap => emit (SignalNotifyRefreshComplete (Some snap) None)
  | _ => emit (SignalNotifyRefreshComplete None (Some data_snap_name))
  end.

(** The two calls in the body of a poll timer, for every way of running
    it: [g_hash_table_remove] on [self->changes] and
    [snapd_client_get_change_async] on [self->client]. *)
Class TimerBody (m : Type -> Type) := {
  timer_bind :: MBind m;
  g_hash_table_remove_changes : string -> m unit;
  snapd_client_get_change_async : string -> m unit;
}.

(** The body of a poll timer; [data_change_id] is [data->change_id]. *)
Definition refresh_change {m : Type -> Type} {body : TimerBody m}
    (data_change_id : string) : m unit :=
  g_hash_table_remove_changes data_change_id;;
  snapd_client_get_change_async data_change_id.

(** Run as a handler: the entry is deleted, the query is a call. *)
#[global] Instance M_timer_body : TimerBody M :=
  {| timer_bind := M_bind;
     g_hash_table_remove_changes := fun change_id =>
       set_changes (delete change_id);
     snapd_client_get_change_async := fun change_id =>
       emit (SnapdClientGetChangeAsync change_id) |}.

Definition status_is_done (status : string) : bool :=
  g_str_equal status "Done" || g_str_equal status "Abort"
  || g_str_equal status "Error" || g_str_equal status "Hold"
  || g_str_equal status "Wait" || g_str_equal status "Undone".

(** The loop over the tasks in [update_inhibited_snaps]: [done_count] is
    the gsize [done], [current_task] the first task found "Doing". *)
Fixpoint scan_tasks (tasks : list SnapdTask) (done_count : Z)
    (current_task : option SnapdTask) : Z * option SnapdTask :=
  match tasks with
  | [] => (done_count, current_task)
  | task :: rest =>
      let status := task_status task in
      if status_is_done status then
        scan_tasks rest (gsize_incr done_count) current_task
      else if bool_decide (current_task = None) && g_str_equal "Doing" status then
        scan_tasks rest done_count (Some task)
      else scan_tasks rest done_count current_task
  end.

(** One round of the loop over the snap names of the change. *)
Definition update_inhibited_snap (change : SnapdChange) (done cancelled : bool)
    (snap_name : string) : M unit :=
  found ← find_snap snap_name;
  match found with
  | None => mret tt
  | Some snap =>
      if negb (inhibited snap) then mret tt
      else if done || cancelled then
        remove_snap (Some snap);;
        if done then emit (SnapdClientGetSnapAsync snap_name show_snap_completed_cb)
        else mret tt
      else if hidden snap || manually_hidden snap then mret tt
      else
        match dialog snap with
        | None =>
            sdi_snap_set_ignored snap true;;
            emit (SnapdClientGetSnapAsync snap_name begin_application_refresh_cb)
        | Some dlg =>
            let tasks := change_tasks change in
            let '(done_count, current_task) := scan_tasks tasks 0 None in
            match current_task with
            | Some task =>
                emit (SdiRefreshDialogSetNTasksProgress dlg (task_summary task)
                        done_count (Z.of_nat (length tasks)))
            | None => mret tt
            end
        end
  end.

Definition update_inhibited_snaps (change : SnapdChange) (done cancelled : bool)
    : M unit :=
  match change_data change with
  | None => mret tt
  | Some snap_names =>
      for_each (update_inhibited_snap change done cancelled) snap_names
  end.

Definition launcher_values (progress : float) (task_done : bool) : LauncherValues :=
  {| progress := progress;
     progress_visible := negb task_done;
     updating := negb task_done |}.

(** [update_dock_bar] on one entry of [refreshing_snap_list]: the entry as
    the call leaves it and the updates it emits, or nothing when it reads
    [desktop_files->len] through a NULL [desktop_files]. *)
Definition update_dock_bar (task_data : SnapProgressTaskData)
    : option (SnapProgressTaskData * list Effect) :=
  if total_tasks task_data =? 0 then Some (task_data, [])
  else
    let progress :=
      PrimFloat.div (gdouble_of_guint (done_tasks task_data))
                    (gdouble_of_guint (total_tasks task_data)) in
    let task_data :=
      {| total_tasks := 0; done_tasks := 0;
         old_progress := old_progress task_data; done := done task_data;
         desktop_files := desktop_files task_data |} in
    if PrimFloat.eqb progress (old_progress task_data) && negb (done task_data)
    then Some (task_data, [])
    else
      let task_data :=
        {| total_tasks := 0; done_tasks := 0;
           old_progress := progress; done := done task_data;
           desktop_files := desktop_files task_data |} in
      match desktop_files task_data with
      | None => None
      | Some files =>
          if Nat.eqb (length files) 0 then Some (task_data, [])
          else
            Some (task_data,
                  map (fun desktop_file =>
                         LauncherEntryEmitUpdate desktop_file
                           (launcher_values progress (done task_data)))
                      files)
      end.

(** [g_hash_table_foreach (refreshing_snap_list, update_dock_bar, self)],
    one entry after the other.  GLib leaves the order open; here it is the
    order of [map_to_list].  The order decides nothing but the order of the
    emissions of different entries: see [for_each_update_dock_bar_at_any_order]. *)
Definition update_dock_bar_at (key : string) : M unit :=
  s ← get_self;
  match refreshing_snap_list s !! key with
  | None => mret tt
  | Some task_data =>
      match update_dock_bar task_data with
      | None => crash
      | Some (task_data, out) =>
          set_refreshing_snap_list (insert key task_data);;
          for_each emit out
      end
  end.

Definition foreach_update_dock_bar : M unit :=
  s ← get_self;
  for_each update_dock_bar_at (map fst (map_to_list (refreshing_snap_list s))).

(** What the inner loop of [update_dock_snaps] does to the entry of one
    affected snap. *)
Definition count_task (task_done : bool) (p : SnapProgressTaskData)
    : SnapProgressTaskData :=
  {| total_tasks := guint_incr (total_tasks p);
     done_tasks := if task_done then guint_incr (done_tasks p) else done_tasks p;
     old_progress := old_progress p;
     done := task_done;
     desktop_files := desktop_files p |}.

(** The loop over the affected snaps of one task; [snaps_to_remove] is the
    GSList, which grows at its head. *)
Fixpoint update_dock_affected (desktop_folder : option (list string))
    (task_done done cancelled : bool) (affected : list string)
    (snaps_to_remove : list string) : M (list string) :=
  match affected with
  | [] => mret snaps_to_remove
  | snap_name :: rest =>
      s ← get_self;
      (if bool_decide (is_Some (refreshing_snap_list s !! snap_name)) then mret tt
       else set_refreshing_snap_list
              (insert snap_name (new_progress_task_data desktop_folder snap_name)));;
      set_refreshing_snap_list (alter (count_task task_done) snap_name);;
      update_dock_affected desktop_folder task_done done cancelled rest
        (if done || cancelled then snap_name :: snaps_to_remove
         else snaps_to_remove)
  end.

(** The loop over the tasks of the change. *)
Fixpoint update_dock_tasks (desktop_folder : option (list string))
    (done cancelled : bool) (tasks : list SnapdTask)
    (snaps_to_remove : list string) : M (list string) :=
  match tasks with
  | [] => mret snaps_to_remove
  | task :: rest =>
      match task_data task with
      | None => update_dock_tasks desktop_folder done cancelled rest snaps_to_remove
      | Some data =>
          match affected_snaps data with
          | None =>
              update_dock_tasks desktop_folder done cancelled rest snaps_to_remove
          | Some affected =>
              let task_done := status_is_done (task_status task) in
              snaps_to_remove ←
                update_dock_affected desktop_folder task_done done cancelled
                  affected snaps_to_remove;
              update_dock_tasks desktop_folder done cancelled rest snaps_to_remove
          end
      end
  end.

Definition update_dock_snaps (desktop_folder : option (list string))
    (change : SnapdChange) (done cancelled : bool) : M unit :=
  snaps_to_remove ←
    update_dock_tasks desktop_folder done cancelled (change_tasks change) [];
  foreach_update_dock_bar;;
  for_each (fun snap_name => set_refreshing_snap_list (delete snap_name))
    snaps_to_remove.

Definition cancelled_change_status (status : string) : bool :=
  g_str_equal status "Undoing" || g_str_equal status "Undone"
  || g_str_equal status "Undo" || g_str_equal status "Error".

Definition valid_working_change_status (status : string) : bool :=
  g_str_equal status "Do" || g_str_equal status "Doing"
  || g_str_equal status "Done".

(** The callback of [snapd_client_get_change_async]. *)
Definition manage_change_update (desktop_folder : option (list string))
    (res : AsyncResult SnapdChange) : M unit :=
  match res with
  | AsyncError true _ => mret tt
  | AsyncError false message =>
      emit (GPrint ("Error in manage_change_update: " +:+ message))
  | AsyncNull => mret tt
  | AsyncOk change =>
      let change_status := change_status change in
      let done := g_str_equal change_status "Done" in
      let cancelled := cancelled_change_status change_status in
      let valid_do := valid_working_change_status change_status in
      if negb (valid_do || cancelled) then
        emit (GDebug ("Unknown change status " +:+ change_status))
      else
        (if g_str_equal (change_kind change) "auto-refresh" then
           update_inhibited_snaps change done cancelled
         else mret tt);;
        update_dock_snaps desktop_folder change done cancelled;;
        let change_id := change_id change in
        s ← get_self;
        if negb done && negb cancelled
           && negb (bool_decide (is_Some (changes s !! change_id))) then
          id ← g_timeout_add_once CHANGE_REFRESH_PERIOD change_id;
          set_changes (insert change_id id)
        else mret tt
  end.

(** [g_signal_emit_by_name (instance, ...)].  GObject checks the instance
    before anything else: given NULL it logs a critical and returns, and no
    signal is emitted. *)
Definition g_signal_emit_by_name (instance : option SdiNotify) (signal : Effect)
    : M unit :=
  match instance with
  | Some _ => emit signal
  | None => mret tt
  end.

Section ForcedRefresh.

(** The two constants of sdi-forced-refresh-time-constants.h, in seconds. *)
Variable TIME_TO_SHOW_REMAINING_TIME_BEFORE_FORCED_REFRESH : Z.
Variable TIME_TO_SHOW_ALERT_BEFORE_FORCED_REFRESH : Z.

(** [self_notify] is the SdiNotify pointer that the function is given as
    its [self]. *)
Definition notify_check_forced_refresh (self_notify : option SdiNotify)
    (now : Z) (snap : SnapdSnap) (snap_data : SdiSnap) : M bool :=
  let next_refresh := get_remaining_time_in_seconds now snap in
  if (next_refresh <=? TIME_TO_SHOW_REMAINING_TIME_BEFORE_FORCED_REFRESH)
     && negb (ignored snap_data) then
    g_signal_emit_by_name self_notify
      (SignalNotifyPendingRefreshForced snap next_refresh true);;
    mret true
  else if next_refresh <=? TIME_TO_SHOW_ALERT_BEFORE_FORCED_REFRESH then
    g_signal_emit_by_name self_notify
      (SignalNotifyPendingRefreshForced snap next_refresh false);;
    mret true
  else mret false.

(** The loop over the returned snaps; [show_grouped_notification] and
    [snap_list] are the two locals it fills. *)
Fixpoint refresh_inhibit_loop (now : Z) (returned : list SnapdSnap)
    (show_grouped_notification : bool) (snap_list : list SnapdSnap)
    : M (bool * list SnapdSnap) :=
  match returned with
  | [] => mret (show_grouped_notification, snap_list)
  | snap :: rest =>
      match snap_name snap with
      | None =>
          emit (GDebug "Received notification for inhibited snap (null)");;
          refresh_inhibit_loop now rest show_grouped_notification snap_list
      | Some name =>
          emit (GDebug ("Received notification for inhibited snap " +:+ name));;
          snap_data ← add_snap name;
          sdi_snap_set_inhibited snap_data true;;
          let show_grouped_notification :=
            if negb (ignored snap_data) then true
            else show_grouped_notification in
          s ← get_self;
          _ ← notify_check_forced_refresh (notify s) now snap
                (with_inhibited true snap_data);
          refresh_inhibit_loop now rest show_grouped_notification
            (snap_list ++ [snap])
      end
  end.

(** The callback of [snapd_client_get_snaps_async]. *)
Definition manage_refresh_inhibit (now : Z)
    (res : AsyncResult (list SnapdSnap)) : M unit :=
  match res with
  | AsyncError true _ => mret tt
  | AsyncError false message =>
      emit (GPrint ("Error in refresh inhibit: " +:+ message))
  | AsyncNull => crash
  | AsyncOk returned =>
      if Nat.eqb (length returned) 0 then mret tt
      else
        '(show_grouped_notification, snap_list) ←
          refresh_inhibit_loop now returned false [];
        if show_grouped_notification : bool then
          emit (SignalNotifyPendingRefresh snap_list)
        else mret tt
  end.

End ForcedRefresh.

(** The handler of the "notice-event" signal. *)
Definition notice_cb (notice : SnapdNotice) (first_run : bool) : M unit :=
  let kind := notice_last_data notice !! "kind" in
  match notice_type notice with
  | SNAPD_NOTICE_TYPE_CHANGE_UPDATE =>
      if first_run then mret tt
      else
        match kind with
        | None => crash
        | Some kind =>
            if negb (g_str_equal kind "auto-refresh")
               && negb (g_str_equal kind "refresh-snap") then mret tt
            else emit (SnapdClientGetChangeAsync (notice_key notice))
        end
  | SNAPD_NOTICE_TYPE_REFRESH_INHIBIT =>
      emit SnapdClientGetSnapsAsyncRefreshInhibited
  | SNAPD_NOTICE_TYPE_SNAP_RUN_INHIBIT => mret tt
  | SNAPD_NOTICE_TYPE_UNKNOWN => mret tt
  end.

Definition sdi_refresh_monitor_ignore_snap_cb (snap_name : string) : M unit :=
  emit (GDebug ("Ignoring refreshes for " +:+ snap_name));;
  snap ← add_snap snap_name;
  sdi_snap_set_ignored snap true.

(** The tables as [sdi_refresh_monitor_init] creates them.  The two
    pointers are as [g_object_new] left them, NULL: neither it nor
    [sdi_refresh_monitor_new] sets [notify], and the window is made with
    the first dialog. *)
Definition sdi_refresh_monitor_init : SdiRefreshMonitor :=
  {| notify := None; snaps := ∅; changes := ∅; refreshing_snap_list := ∅;
     main_window := None |}.

Definition initial_world : World :=
  {| self := sdi_refresh_monitor_init; timeouts := []; next_source := 1%nat;
     next_object := 0%nat |}.

(** ** The main loop

    The events that run a handler of the monitor.  A completion of a query
    may come with any result.  A poll timer is a one-shot source: when it
    fires, the main loop drops the source and calls [refresh_change] on its
    data.  The "hide-event" handler is connected to the dialogs that are
    put in the window, and a dialog taken out of it is released. *)

Definition remove_source (source_id : nat) (w : World) : World :=
  {| self := self w;
     timeouts := List.filter (fun t => negb (Nat.eqb (fst t) source_id)) (timeouts w);
     next_source := next_source w;
     next_object := next_object w |}.

(** The dialogs in the box of the main window. *)
Definition window_children (w : World) : list SdiRefreshDialog :=
  default [] (main_window (self w)).

Section MainLoop.

Variable TIME_TO_SHOW_REMAINING_TIME_BEFORE_FORCED_REFRESH : Z.
Variable TIME_TO_SHOW_ALERT_BEFORE_FORCED_REFRESH : Z.

Inductive step : World -> World -> Prop :=
| step_notice notice first_run w w' out :
    notice_cb notice first_run w = Some (tt, w', out) ->
    step w w'
| step_change_fetched desktop_folder res w w' out :
    manage_change_update desktop_folder res w = Some (tt, w', out) ->
    step w w'
| step_timeout source_id data_change_id w w' out :
    In (source_id, data_change_id) (timeouts w) ->
    refresh_change data_change_id (remove_source source_id w)
      = Some (tt, w', out) ->
    step w w'
| step_snaps_fetched now res w w' out :
    manage_refresh_inhibit TIME_TO_SHOW_REMAINING_TIME_BEFORE_FORCED_REFRESH
      TIME_TO_SHOW_ALERT_BEFORE_FORCED_REFRESH now res w
      = Some (tt, w', out) ->
    step w w'
| step_begin_application_refresh data_snap_name res w w' out :
    begin_application_refresh data_snap_name res w = Some (tt, w', out) ->
    step w w'
| step_show_snap_completed data_snap_name res w w' out :
    show_snap_completed data_snap_name res w = Some (tt, w', out) ->
    step w w'
| step_close_dialog dlg w w' out :
    In dlg (window_children w) ->
    close_dialog_cb dlg w = Some (tt, w', out) ->
    step w w'
| step_ignore_snap snap_name w w' out :
    sdi_refresh_monitor_ignore_snap_cb snap_name w = Some (tt, w', out) ->
    step w w'.

(** The worlds the process can be in between two handlers. *)
Definition reachable (w : World) : Prop := rtc step initial_world w.

End MainLoop.

(** The sources of the main loop that poll [change_id]. *)
Definition poll_timers (change_id : string) (w : World) : list (nat * string) :=
  List.filter (fun t => String.eqb (snd t) change_id) (timeouts w).

(** ** Reasoning about handlers: definitions *)

(** A handler respects [R] when every run of it that returns relates the
    world before to the world after. *)
Definition respects (R : relation World) {A : Type} (m : M A) : Prop :=
  forall w a w' out, m w = Some (a, w', out) -> R w w'.

(** Two worlds that agree on what [f] reads. *)
Definition same_on {X : Type} (f : World -> X) : relation World :=
  fun w w' => f w = f w'.

(** ** The notice dispatcher: definitions *)

(** A notice about change "42". *)
Definition sample_notice (type : SnapdNoticeType) (kind : string) : SnapdNotice :=
  {| notice_type := type; notice_key := "42";
     notice_last_data := {[ "kind" := kind ]} |}.

(** ** Handlers that leave the poll scheduler alone: definitions *)

(** What the poll scheduler owns: the tracked changes, the timers of the
    main loop and the source of their ids. *)
Definition scheduler_state (w : World) : gmap string nat * list (nat * string) * nat :=
  (changes (self w), timeouts w, next_source w).

Abbreviation keeps_scheduler := (respects (same_on scheduler_state)).

Create HintDb respects.

(** ** The poll scheduler: definitions *)

(** A run that keeps, with every call it makes, the world the call was
    made in. *)
Definition Traced (A : Type) : Type :=
  World -> option (A * World * list (World * Effect)).

Definition Traced_bind : MBind Traced := fun A B k m w =>
  match m w with
  | None => None
  | Some (a, w1, out1) =>
      match k a w1 with
      | None => None
      | Some (b, w2, out2) => Some (b, w2, out1 ++ out2)
      end
  end.

(** One operation of a handler, traced: what it calls, it calls in the
    world it starts from. *)
Definition traced {A : Type} (operation : M A) : Traced A := fun w =>
  match operation w with
  | None => None
  | Some (a, w', out) => Some (a, w', map (pair w) out)
  end.

Definition Traced_timer_body : TimerBody Traced :=
  {| timer_bind := Traced_bind;
     g_hash_table_remove_changes := fun change_id =>
       traced (set_changes (delete change_id));
     snapd_client_get_change_async := fun change_id =>
       traced (emit (SnapdClientGetChangeAsync change_id)) |}.

(** Whether [manage_change_update] arms a poll timer for a fetched change:
    the status is one the handler goes on with, it is neither done nor
    cancelled, and the change has no entry in [changes]. *)
Definition arms_poll_timer (change : SnapdChange) (w : World) : bool :=
  let status := change_status change in
  (valid_working_change_status status || cancelled_change_status status)
  && negb (g_str_equal status "Done")
  && negb (cancelled_change_status status)
  && negb (bool_decide (is_Some (changes (self w) !! change_id change))).

(** The tracked changes are exactly the changes with a timer in the main
    loop, each under the id of its timer; timer ids are not reused. *)
Definition timers_match_changes (w : World) : Prop :=
  NoDup (map fst (timeouts w))
  /\ Forall (fun t => (fst t < next_source w)%nat) (timeouts w)
  /\ forall source_id change_id,
       In (source_id, change_id) (timeouts w) <->
       changes (self w) !! change_id = Some source_id.

(** A change with three tasks on the snap "p". *)
Definition sample_task (status : string) : SnapdTask :=
  {| task_status := status; task_summary := "task " +:+ status;
     task_data := Some {| affected_snaps := Some ["p"] |} |}.

Definition sample_change (status : string) (task_statuses : list string)
    : SnapdChange :=
  {| change_id := "42"; change_kind := "auto-refresh"; change_status := status;
     change_tasks := map sample_task task_statuses;
     change_data := Some ["p"] |}.

Definition change_doing : SnapdChange :=
  sample_change "Doing" ["Done"; "Doing"; "Do"].

Definition change_done : SnapdChange :=
  sample_change "Done" ["Done"; "Done"; "Done"].

Definition sample_folder : option (list string) :=
  Some ["p_p.desktop"; "q_q.desktop"; "p_notes.txt"].

(** The world that a handler leaves, and the calls it made. *)
Definition world_after (m : M unit) (w : World) : World :=
  match m w with
  | Some (_, w', _) => w'
  | None => w
  end.

Definition output_of (m : M unit) (w : World) : list Effect :=
  match m w with
  | Some (_, _, out) => out
  | None => []
  end.

(** The world after the first fetch of change "42", found "Doing". *)
Definition polled_world : World :=
  world_after (manage_change_update sample_folder (AsyncOk change_doing))
    initial_world.

(** ** Dialogs: definitions *)

(** The snap that the completion of a snap query is about: the snap that
    snapd returned, or with no snap returned the one that was asked for. *)
Definition queried_snap_name (data_snap_name : string)
    (res : AsyncResult SnapdSnap) : option string :=
  match res with
  | AsyncOk snap => snap_name snap
  | _ => Some data_snap_name
  end.

(** A snap as snapd returns it, with a desktop file that names it "Pinta". *)
Definition sample_snap (name : string) : SnapdSnap :=
  {| snap_name := Some name; snap_proceed_time := 0;
     snap_app_info := Some {| display_name := Some "Pinta";
                              app_icon := Some "pinta.png" |} |}.

(** The first dialog made: for "p", from the snap above. *)
Definition sample_dialog : SdiRefreshDialog :=
  {| dialog_id := 0; app_name := "p"; visible_name := "Pinta";
     icon_image := Some "pinta.png" |}.

(** The world after a snap query for "p" has completed on the initial
    world: the dialog is in the window and bound to "p". *)
Definition dialog_world : World :=
  world_after (begin_application_refresh "p" (AsyncOk (sample_snap "p")))
    initial_world.

(** ** Progress of a bound dialog: definitions *)

(** The number of tasks whose status is a finished one. *)
Definition count_done (tasks : list SnapdTask) : nat :=
  length (List.filter (fun task => status_is_done (task_status task)) tasks).

(** The first task whose status is "Doing". *)
Definition first_doing (tasks : list SnapdTask) : option SnapdTask :=
  List.find (fun task => g_str_equal "Doing" (task_status task)) tasks.

(** The snap "p" after a refresh-inhibit notice: it has a record, marked
    inhibited, and no dialog. *)
Definition inhibited_world : World :=
  world_after (manage_refresh_inhibit 0 0 0 (AsyncOk [sample_snap "p"]))
    initial_world.

(** Then change "42" is fetched, and the snap query it starts completes. *)
Definition bound_world : World :=
  world_after (begin_application_refresh "p" (AsyncOk (sample_snap "p")))
    (world_after (manage_change_update sample_folder (AsyncOk change_doing))
       inhibited_world).

(** The record of "p" in that world. *)
Definition bound_snap : SdiSnap :=
  {| sdi_name := "p"; inhibited := true; ignored := true; hidden := false;
     manually_hidden := false; dialog := Some sample_dialog |}.

(** ** The grouped notification for inhibited snaps: definitions *)

Definition with_snaps (f : gmap string SdiSnap -> gmap string SdiSnap)
    (w : World) : World :=
  {| self := {| notify := notify (self w);
                snaps := f (snaps (self w)); changes := changes (self w);
                refreshing_snap_list := refreshing_snap_list (self w);
                main_window := main_window (self w) |};
     timeouts := timeouts w; next_source := next_source w;
     next_object := next_object w |}.

(** Whether the snap of this name is marked ignored; a snap without a
    record is not. *)
Definition is_ignored (w : World) (name : string) : bool :=
  match snaps (self w) !! name with
  | Some snap => ignored snap
  | None => false
  end.

(** A returned snap that has a name and is not marked ignored. *)
Definition not_ignored_in (w : World) (snap : SnapdSnap) : bool :=
  match snap_name snap with
  | Some name => negb (is_ignored w name)
  | None => false
  end.

(** The returned snaps that have a name. *)
Definition named_snaps (returned : list SnapdSnap) : list SnapdSnap :=
  List.filter (fun snap => bool_decide (is_Some (snap_name snap))) returned.

Definition is_pending_refresh (e : Effect) : bool :=
  match e with
  | SignalNotifyPendingRefresh _ => true
  | _ => false
  end.

(** The snap "b" after the user asked not to be reminded of it. *)
Definition ignoring_world : World :=
  world_after (sdi_refresh_monitor_ignore_snap_cb "b") initial_world.

(** A returned snap whose name is NULL. *)
Definition nameless_snap : SnapdSnap :=
  {| snap_name := None; snap_proceed_time := 0; snap_app_info := None |}.

(** ** The progress aggregator: definitions *)

(** The emission pass in the words of the specification, for one entry and
    the presentation targets it captured. *)
Definition spec_fraction (p : SnapProgressTaskData) : float :=
  PrimFloat.div (gdouble_of_guint (done_tasks p))
                (gdouble_of_guint (total_tasks p)).

(** Unchanged from the last emission, and the entry is not terminal. *)
Definition spec_suppressed (p : SnapProgressTaskData) : bool :=
  PrimFloat.eqb (spec_fraction p) (old_progress p) && negb (done p).

Definition spec_emission (p : SnapProgressTaskData) (targets : list string)
    : list Effect :=
  if total_tasks p =? 0 then []
  else if spec_suppressed p then []
  else map (fun target =>
              LauncherEntryEmitUpdate target
                {| progress := spec_fraction p;
                   progress_visible := negb (done p);
                   updating := negb (done p) |})
           targets.

(** Both counters back at zero; the fraction kept when it was emitted. *)
Definition spec_entry_after (p : SnapProgressTaskData) : SnapProgressTaskData :=
  if total_tasks p =? 0 then p
  else {| total_tasks := 0; done_tasks := 0;
          old_progress := if spec_suppressed p then old_progress p
                          else spec_fraction p;
          done := done p; desktop_files := desktop_files p |}.

Definition with_refreshing_snap_list
    (f : gmap string SnapProgressTaskData -> gmap string SnapProgressTaskData)
    (w : World) : World :=
  {| self := {| notify := notify (self w);
                snaps := snaps (self w); changes := changes (self w);
                refreshing_snap_list := f (refreshing_snap_list (self w));
                main_window := main_window (self w) |};
     timeouts := timeouts w; next_source := next_source w;
     next_object := next_object w |}.

(** Every entry of the table has its array of desktop files. *)
Definition files_known (m : gmap string SnapProgressTaskData) : Prop :=
  forall key p, m !! key = Some p -> desktop_files p <> None.

(** What [update_dock_bar] makes of the entry under [key], and what it
    emits for it. *)
Definition dock_bar_step (m : gmap string SnapProgressTaskData) (key : string)
    : gmap string SnapProgressTaskData :=
  match m !! key with
  | Some p =>
      match update_dock_bar p with
      | Some (p', _) => <[key := p']> m
      | None => m
      end
  | None => m
  end.

Definition dock_bar_output (m : gmap string SnapProgressTaskData) (key : string)
    : list Effect :=
  match m !! key with
  | Some p =>
      match update_dock_bar p with
      | Some (_, out) => out
      | None => []
      end
  | None => []
  end.

(** The desktop files of an entry are captured once: an entry of [m'] has
    the array it had in [m], or with no entry in [m] the one that the
    lookup in [desktop_folder] gives; and no entry of [m] is dropped. *)
Definition captured (desktop_folder : option (list string))
    (m m' : gmap string SnapProgressTaskData) : Prop :=
  (forall key, is_Some (m !! key) -> is_Some (m' !! key))
  /\ forall key p', m' !! key = Some p' ->
       desktop_files p'
       = match m !! key with
         | Some p => desktop_files p
         | None => get_desktop_filenames_for_snap desktop_folder key
         end.

(** The table after the inner loop has counted one task for [snap_name]. *)
Definition count_affected (desktop_folder : option (list string))
    (task_done : bool) (snap_name : string)
    (m : gmap string SnapProgressTaskData) : gmap string SnapProgressTaskData :=
  alter (count_task task_done) snap_name
    (if bool_decide (is_Some (m !! snap_name)) then m
     else <[snap_name := new_progress_task_data desktop_folder snap_name]> m).

(** The example of the specification: ten tasks, three of them done. *)
Definition sample_entry (total finished : Z) (last : float) (is_done : bool)
    : SnapProgressTaskData :=
  {| total_tasks := total; done_tasks := finished; old_progress := last;
     done := is_done; desktop_files := Some ["p_p.desktop"] |}.

Definition three_tenths : float :=
  PrimFloat.div (gdouble_of_guint 3) (gdouble_of_guint 10).

(** ** Snaps without desktop files: definitions *)

(** A change with one task, found "Doing", on the snap "z", which has no
    desktop file in the folder. *)
Definition change_z : SnapdChange :=
  {| change_id := "43"; change_kind := "refresh-snap"; change_status := "Doing";
     change_tasks :=
       [{| task_status := "Doing"; task_summary := "task Doing";
           task_data := Some {| affected_snaps := Some ["z"; "p"] |} |}];
     change_data := None |}.

(** ** One dialog for a snap: definitions *)

(** The dialogs in the window that were made for the snap [name]. *)
Definition dialogs_of (name : string) (w : World) : list SdiRefreshDialog :=
  List.filter (fun dlg => String.eqb (app_name dlg) name) (window_children w).

(** Every record sits under its own name; the dialogs in the window are
    distinct objects, older than the next one to be made; and each of them
    is the dialog bound to the record of the snap it was made for. *)
Definition dialogs_match_snaps (w : World) : Prop :=
  (forall key snap, snaps (self w) !! key = Some snap -> sdi_name snap = key)
  /\ NoDup (map dialog_id (window_children w))
  /\ Forall (fun dlg => (dialog_id dlg < next_object w)%nat) (window_children w)
  /\ forall dlg, In dlg (window_children w) ->
       exists snap,
         snaps (self w) !! app_name dlg = Some snap /\ dialog snap = Some dlg.

(** What the dialogs depend on. *)
Definition dialog_view (w : World)
    : gmap string SdiSnap * list SdiRefreshDialog * nat :=
  (snaps (self w), window_children w, next_object w).

Abbreviation keeps_dialogs := (respects (same_on dialog_view)).

(** [P] holds after when it held before. *)
Definition keeps (P : World -> Prop) : relation World :=
  fun w w' => P w -> P w'.

(** ** Handlers that always return: definitions *)

(** The handler returns from every world, and leaves the progress table
    as it found it. *)
Definition returns_keeping {A : Type} (m : M A) : Prop :=
  forall w, exists a w' out,
    m w = Some (a, w', out)
    /\ refreshing_snap_list (self w') = refreshing_snap_list (self w).

(** ** More on the poll scheduler: definitions *)

(** The status of a change that is still running. *)
Definition running_change_status (status : string) : bool :=
  g_str_equal status "Do" || g_str_equal status "Doing".

(** ** More on the notice dispatcher: definitions *)

(** The kinds of change that the dispatcher follows. *)
Definition followed_kind (kind : option string) : bool :=
  match kind with
  | Some kind => g_str_equal kind "auto-refresh" || g_str_equal kind "refresh-snap"
  | None => false
  end.

Definition is_change_update (type : SnapdNoticeType) : bool :=
  match type with
  | SNAPD_NOTICE_TYPE_CHANGE_UPDATE => true
  | _ => false
  end.

Definition is_refresh_inhibit (type : SnapdNoticeType) : bool :=
  match type with
  | SNAPD_NOTICE_TYPE_REFRESH_INHIBIT => true
  | _ => false
  end.

(** ** More on the handling of a fetched change: definitions *)

Definition change_refresh_snap : SnapdChange :=
  {| change_id := "44"; change_kind := "refresh-snap"; change_status := "Done";
     change_tasks := [sample_task "Done"]; change_data := Some ["p"] |}.

(** Whether a snap named in a change gets a dialog, progress or a
    completion message at all: it has a record and the record is marked
    inhibited. *)
Definition shown_inhibited (w : World) (snap_name : string) : bool :=
  match snaps (self w) !! snap_name with
  | Some snap => inhibited snap
  | None => false
  end.

(** ** More on dialogs: definitions *)

(** The window is there exactly while it holds a dialog. *)
Definition window_shown (w : World) : Prop :=
  main_window (self w) <> Some [].

(** The world after a new dialog was put in the window and bound to the
    record under [name]. *)
Definition with_new_dialog (name : string) (dlg : SdiRefreshDialog) (w : World)
    : World :=
  {| self := {| notify := notify (self w);
                snaps := alter (with_dialog (Some dlg)) name (snaps (self w));
                changes := changes (self w);
                refreshing_snap_list := refreshing_snap_list (self w);
                main_window := Some (window_children w ++ [dlg]) |};
     timeouts := timeouts w; next_source := next_source w;
     next_object := S (next_object w) |}.

(** The refresh of "p" has ended while the query for its dialog was still
    under way: the change was fetched running, then done. *)
Definition late_world : World :=
  world_after (manage_change_update sample_folder (AsyncOk change_done))
    (world_after (manage_change_update sample_folder (AsyncOk change_doing))
       inhibited_world).

(** ** More on inhibited snaps: definitions *)

(** The names of the returned snaps, those without one left out. *)
Definition returned_names (returned : list SnapdSnap) : list string :=
  omap snap_name returned.

(** What one round of the loop makes of the snap table. *)
Definition mark_inhibited (m : gmap string SdiSnap) (name : string)
    : gmap string SdiSnap :=
  alter (with_inhibited true) name
    (match m !! name with
     | Some _ => m
     | None => <[name := sdi_snap_new name]> m
     end).

(** Every record sits under its own name. *)
Definition keyed_by_name (m : gmap string SdiSnap) : Prop :=
  forall key snap, m !! key = Some snap -> sdi_name snap = key.

(** The same round, the mark set through the record that [add_snap] gave. *)
Definition mark_record (m : gmap string SdiSnap) (name : string)
    : gmap string SdiSnap :=
  alter (with_inhibited true)
    (sdi_name (default (sdi_snap_new name) (m !! name)))
    (match m !! name with
     | Some _ => m
     | None => <[name := sdi_snap_new name]> m
     end).

Definition is_forced_refresh (e : Effect) : bool :=
  match e with
  | SignalNotifyPendingRefreshForced _ _ _ => true
  | _ => false
  end.

(** The signal of a forced refresh that [notify_check_forced_refresh] asks
    for, for a returned snap in a world: none without a name; one that the
    user may silence while the refresh is within the first limit and the
    snap is not marked ignored; one that the user may not silence within the
    second limit. *)
Definition forced_refresh_notice
    (TIME_TO_SHOW_REMAINING_TIME_BEFORE_FORCED_REFRESH : Z)
    (TIME_TO_SHOW_ALERT_BEFORE_FORCED_REFRESH : Z)
    (now : Z) (w : World) (snap : SnapdSnap)
    : list Effect :=
  match snap_name snap with
  | None => []
  | Some name =>
      let next_refresh := get_remaining_time_in_seconds now snap in
      if (next_refresh <=? TIME_TO_SHOW_REMAINING_TIME_BEFORE_FORCED_REFRESH)
         && negb (is_ignored w name)
      then [SignalNotifyPendingRefreshForced snap next_refresh true]
      else if next_refresh <=? TIME_TO_SHOW_ALERT_BEFORE_FORCED_REFRESH
      then [SignalNotifyPendingRefreshForced snap next_refresh false]
      else []
  end.

(** ** More on ignored snaps: definitions *)

(** The mark of [name] is not withdrawn. *)
Definition mark_kept (name : string) : relation World :=
  fun w w' => is_ignored w name = true -> is_ignored w' name = true.

(** No record is made for [name], and its mark goes only with its record. *)
Definition mark_kept_or_retired (name : string) : relation World :=
  fun w w' =>
    (snaps (self w) !! name = None -> snaps (self w') !! name = None)
    /\ (is_ignored w name = true ->
        is_ignored w' name = true \/ snaps (self w') !! name = None).

(** ** More on the progress aggregator: definitions *)

(** The rounds of the inner loop of [update_dock_snaps] over the tasks of a
    change, in the order they run: for every name in the affected snaps of
    a task that has them, whether that task is finished, and the name. *)
Definition affected_occurrences (tasks : list SnapdTask) : list (bool * string) :=
  flat_map (fun task =>
              match task_data task with
              | Some {| affected_snaps := Some affected |} =>
                  map (pair (status_is_done (task_status task))) affected
              | _ => []
              end)
           tasks.

(** The rounds that count for [name]: the flags of their tasks. *)
Definition occurrences_of (name : string) (rounds : list (bool * string))
    : list bool :=
  map fst (List.filter (fun round => String.eqb (snd round) name) rounds).

(** The progress table after these rounds. *)
Definition counted_table (desktop_folder : option (list string))
    (m : gmap string SnapProgressTaskData) (rounds : list (bool * string))
    : gmap string SnapProgressTaskData :=
  foldl (fun m round => count_affected desktop_folder (fst round) (snd round) m)
    m rounds.

(** * Reasoning about handlers *)

Lemma refresh_change_eq (data_change_id : string) :
  refresh_change (m := M) data_change_id
  = (set_changes (delete data_change_id);;
     emit (SnapdClientGetChangeAsync data_change_id)).
Proof. reflexivity. Qed.

Lemma bind_Some {A B : Type} (m : M A) (k : A -> M B) w b w2 out :
  (m ≫= k) w = Some (b, w2, out) <->
  exists a w1 o1 o2,
    m w = Some (a, w1, o1) /\ k a w1 = Some (b, w2, o2) /\ out = o1 ++ o2.
Proof.
  unfold mbind, M_bind, bind. split.
  - destruct (m w) as [[[a w1] o1]|]; [|discriminate].
    destruct (k a w1) as [[[b' w2'] o2]|] eqn:Hk; [|discriminate].
    intros [= -> -> <-]. by exists a, w1, o1, o2.
  - intros (a & w1 & o1 & o2 & -> & -> & ->). reflexivity.
Qed.

Lemma ret_Some {A : Type} (a b : A) w w' out :
  (mret a : M A) w = Some (b, w', out) <-> b = a /\ w' = w /\ out = [].
Proof.
  unfold mret, M_ret, ret. split.
  - by intros [= -> -> <-].
  - by intros (-> & -> & ->).
Qed.

Section Respects.

Context (R : relation World) `{!PreOrder R}.

Lemma respects_ret {A : Type} (a : A) : respects R (mret a : M A).
Proof. intros w b w' out [_ [-> _]]%ret_Some. reflexivity. Qed.

Lemma respects_crash {A : Type} : respects R (@crash A).
Proof. intros w a w' out [=]. Qed.

Lemma respects_emit e : respects R (emit e).
Proof. intros w a w' out [= _ <- _]. reflexivity. Qed.

Lemma respects_get_self : respects R get_self.
Proof. intros w a w' out [= _ <- _]. reflexivity. Qed.

Lemma respects_bind {A B : Type} (m : M A) (k : A -> M B) :
  respects R m -> (forall a, respects R (k a)) -> respects R (m ≫= k).
Proof.
  intros Hm Hk w b w2 out (a & w1 & o1 & o2 & H1 & H2 & _)%bind_Some.
  transitivity w1; [by eapply Hm | by eapply Hk].
Qed.

Lemma respects_for_each {A : Type} (body : A -> M unit) (l : list A) :
  (forall x, respects R (body x)) -> respects R (for_each body l).
Proof.
  intros Hbody. induction l as [|x l IH]; simpl.
  - apply respects_ret.
  - apply respects_bind; [apply Hbody | intros _; apply IH].
Qed.

End Respects.

#[global] Instance same_on_preorder {X : Type} (f : World -> X) :
  PreOrder (same_on f).
Proof. split; [by intros w | intros a b c Hab Hbc; unfold same_on in *; congruence]. Qed.

(** * The notice dispatcher *)

(** C6: a change-update notice delivered during the first run is ignored
    whatever its kind and key are (also when it has no kind at all): the
    handler returns, issues no call, and leaves the world, and so the snap
    table, the tracked changes and the progress table, as it found them. *)
Theorem notice_cb_first_run_change_update_ignored
    (notice : SnapdNotice) (w : World) :
  notice_type notice = SNAPD_NOTICE_TYPE_CHANGE_UPDATE ->
  notice_cb notice true w = Some (tt, w, []).
Proof. intros Htype. unfold notice_cb. rewrite Htype. reflexivity. Qed.

Lemma notice_cb_first_run_change_update_ignored_witness :
  notice_cb (sample_notice SNAPD_NOTICE_TYPE_CHANGE_UPDATE "auto-refresh")
    true initial_world
  = Some (tt, initial_world, []).
Proof.
  apply (notice_cb_first_run_change_update_ignored
           (sample_notice SNAPD_NOTICE_TYPE_CHANGE_UPDATE "auto-refresh")
           initial_world).
  reflexivity.
Defined.

(** Outside the first run the same notice does start a fetch of its change. *)
Lemma notice_cb_change_update_fetches :
  notice_cb (sample_notice SNAPD_NOTICE_TYPE_CHANGE_UPDATE "auto-refresh")
    false initial_world
  = Some (tt, initial_world, [SnapdClientGetChangeAsync "42"]).
Proof. vm_compute. reflexivity. Qed.

(** C10: a refresh-inhibit notice is handled the same way in the first run
    and after it: in both the handler leaves the world alone and issues the
    one query for the refresh-inhibited snaps, whose callback
    [manage_refresh_inhibit] never sees the first-run flag. *)
Theorem notice_cb_refresh_inhibit_any_run
    (notice : SnapdNotice) (first_run : bool) (w : World) :
  notice_type notice = SNAPD_NOTICE_TYPE_REFRESH_INHIBIT ->
  notice_cb notice first_run w
  = Some (tt, w, [SnapdClientGetSnapsAsyncRefreshInhibited])
  /\ notice_cb notice true w = notice_cb notice false w.
Proof. intros Htype. unfold notice_cb. rewrite Htype. by split. Qed.

Lemma notice_cb_refresh_inhibit_any_run_witness :
  notice_cb (sample_notice SNAPD_NOTICE_TYPE_REFRESH_INHIBIT "x") true
    initial_world
  = Some (tt, initial_world, [SnapdClientGetSnapsAsyncRefreshInhibited])
  /\ notice_cb (sample_notice SNAPD_NOTICE_TYPE_REFRESH_INHIBIT "x") true
       initial_world
     = notice_cb (sample_notice SNAPD_NOTICE_TYPE_REFRESH_INHIBIT "x") false
         initial_world.
Proof.
  apply (notice_cb_refresh_inhibit_any_run
           (sample_notice SNAPD_NOTICE_TYPE_REFRESH_INHIBIT "x") true
           initial_world).
  reflexivity.
Defined.

(** * The status of a change *)

Lemma g_str_equal_eq (a b : string) : g_str_equal a b = true <-> a = b.
Proof. apply String.eqb_eq. Qed.

Lemma cancelled_change_status_spec (status : string) :
  cancelled_change_status status = true <->
  status = "Undoing" \/ status = "Undone" \/ status = "Undo" \/ status = "Error".
Proof.
  unfold cancelled_change_status.
  rewrite !orb_true_iff, !g_str_equal_eq. tauto.
Qed.

Lemma valid_working_change_status_spec (status : string) :
  valid_working_change_status status = true <->
  status = "Do" \/ status = "Doing" \/ status = "Done".
Proof.
  unfold valid_working_change_status.
  rewrite !orb_true_iff, !g_str_equal_eq. tauto.
Qed.

Lemma status_is_done_spec (status : string) :
  status_is_done status = true <->
  status = "Done" \/ status = "Abort" \/ status = "Error" \/ status = "Hold"
  \/ status = "Wait" \/ status = "Undone".
Proof.
  unfold status_is_done.
  rewrite !orb_true_iff, !g_str_equal_eq. tauto.
Qed.

(** * Handlers that leave the poll scheduler alone *)

Ltac respects_step :=
  match goal with
  | |- respects _ (mret _) => apply respects_ret; apply _
  | |- respects _ (_ ≫= _) => apply respects_bind; [apply _ | | intros ?]
  | |- respects _ crash => apply respects_crash
  | |- respects _ (emit _) => apply respects_emit; apply _
  | |- respects _ get_self => apply respects_get_self; apply _
  | |- respects _ (for_each _ _) =>
      apply respects_for_each; [apply _ | intros ?]
  | |- respects _ (match ?x with _ => _ end) => destruct x
  | |- respects _ _ => solve [eauto with respects]
  end.

Ltac respects_auto := repeat respects_step.

Lemma keeps_scheduler_set_snaps f : keeps_scheduler (set_snaps f).
Proof. intros w a w' out [= _ <- _]. reflexivity. Qed.

Lemma keeps_scheduler_set_refreshing_snap_list f :
  keeps_scheduler (set_refreshing_snap_list f).
Proof. intros w a w' out [= _ <- _]. reflexivity. Qed.

Lemma keeps_scheduler_set_main_window v : keeps_scheduler (set_main_window v).
Proof. intros w a w' out [= _ <- _]. reflexivity. Qed.

Lemma keeps_scheduler_new_object : keeps_scheduler new_object.
Proof. intros w a w' out [= _ <- _]. reflexivity. Qed.

#[local] Hint Resolve keeps_scheduler_set_snaps
  keeps_scheduler_set_refreshing_snap_list keeps_scheduler_set_main_window
  keeps_scheduler_new_object : respects.

Lemma keeps_scheduler_find_snap snap_name : keeps_scheduler (find_snap snap_name).
Proof. unfold find_snap. respects_auto. Qed.
#[local] Hint Resolve keeps_scheduler_find_snap : respects.

Lemma keeps_scheduler_add_snap snap_name : keeps_scheduler (add_snap snap_name).
Proof. unfold add_snap. respects_auto. Qed.
#[local] Hint Resolve keeps_scheduler_add_snap : respects.

Lemma keeps_scheduler_remove_dialog dlg : keeps_scheduler (remove_dialog dlg).
Proof. unfold remove_dialog. respects_auto. Qed.
#[local] Hint Resolve keeps_scheduler_remove_dialog : respects.

Lemma keeps_scheduler_remove_snap snap : keeps_scheduler (remove_snap snap).
Proof. unfold remove_snap. respects_auto. Qed.
#[local] Hint Resolve keeps_scheduler_remove_snap : respects.

Lemma keeps_scheduler_close_dialog_cb dlg : keeps_scheduler (close_dialog_cb dlg).
Proof.
  unfold close_dialog_cb, sdi_snap_set_manually_hidden, sdi_snap_set_dialog.
  respects_auto.
Qed.

Lemma keeps_scheduler_add_dialog_to_main_window dlg :
  keeps_scheduler (add_dialog_to_main_window dlg).
Proof. unfold add_dialog_to_main_window. respects_auto. Qed.
#[local] Hint Resolve keeps_scheduler_add_dialog_to_main_window : respects.

Lemma keeps_scheduler_sdi_refresh_dialog_new name visible :
  keeps_scheduler (sdi_refresh_dialog_new name visible).
Proof. unfold sdi_refresh_dialog_new. respects_auto. Qed.
#[local] Hint Resolve keeps_scheduler_sdi_refresh_dialog_new : respects.

Lemma keeps_scheduler_begin_application_refresh data_snap_name res :
  keeps_scheduler (begin_application_refresh data_snap_name res).
Proof.
  unfold begin_application_refresh, sdi_snap_set_dialog. respects_auto.
Qed.

Lemma keeps_scheduler_show_snap_completed data_snap_name res :
  keeps_scheduler (show_snap_completed data_snap_name res).
Proof. unfold show_snap_completed. respects_auto. Qed.

Lemma keeps_scheduler_update_inhibited_snaps change done cancelled :
  keeps_scheduler (update_inhibited_snaps change done cancelled).
Proof.
  unfold update_inhibited_snaps, update_inhibited_snap, sdi_snap_set_ignored.
  respects_auto.
Qed.

Lemma keeps_scheduler_update_dock_bar_at key :
  keeps_scheduler (update_dock_bar_at key).
Proof. unfold update_dock_bar_at. respects_auto. Qed.
#[local] Hint Resolve keeps_scheduler_update_dock_bar_at : respects.

Lemma keeps_scheduler_update_dock_affected desktop_folder task_done done
    cancelled affected snaps_to_remove :
  keeps_scheduler
    (update_dock_affected desktop_folder task_done done cancelled affected
       snaps_to_remove).
Proof.
  revert snaps_to_remove.
  induction affected as [|snap_name rest IH]; intros snaps_to_remove; simpl;
    respects_auto.
Qed.
#[local] Hint Resolve keeps_scheduler_update_dock_affected : respects.

Lemma keeps_scheduler_update_dock_tasks desktop_folder done cancelled tasks
    snaps_to_remove :
  keeps_scheduler
    (update_dock_tasks desktop_folder done cancelled tasks snaps_to_remove).
Proof.
  revert snaps_to_remove.
  induction tasks as [|task rest IH]; intros snaps_to_remove; simpl;
    respects_auto.
Qed.
#[local] Hint Resolve keeps_scheduler_update_dock_tasks : respects.

Lemma keeps_scheduler_update_dock_snaps desktop_folder change done cancelled :
  keeps_scheduler (update_dock_snaps desktop_folder change done cancelled).
Proof. unfold update_dock_snaps, foreach_update_dock_bar. respects_auto. Qed.

Lemma keeps_scheduler_notice_cb notice first_run :
  keeps_scheduler (notice_cb notice first_run).
Proof. unfold notice_cb. respects_auto. Qed.

Lemma keeps_scheduler_ignore_snap_cb snap_name :
  keeps_scheduler (sdi_refresh_monitor_ignore_snap_cb snap_name).
Proof.
  unfold sdi_refresh_monitor_ignore_snap_cb, sdi_snap_set_ignored.
  respects_auto.
Qed.

Lemma keeps_scheduler_manage_refresh_inhibit t_remaining t_alert now res :
  keeps_scheduler (manage_refresh_inhibit t_remaining t_alert now res).
Proof.
  assert (Hloop : forall returned show snap_list,
    keeps_scheduler (refresh_inhibit_loop t_remaining t_alert now returned
                       show snap_list)).
  { induction returned as [|snap rest IH]; intros show snap_list; simpl;
      unfold notify_check_forced_refresh, g_signal_emit_by_name,
        sdi_snap_set_inhibited;
      respects_auto. }
  unfold manage_refresh_inhibit. respects_auto.
Qed.

(** * The poll scheduler *)

(** What a run of [manage_change_update] does to the scheduler: it arms one
    timer, with a new source id that it stores under the change id, or it
    changes nothing. *)
Lemma manage_change_update_scheduler desktop_folder change w w' out :
  manage_change_update desktop_folder (AsyncOk change) w = Some (tt, w', out) ->
  scheduler_state w' =
    if arms_poll_timer change w then
      (<[change_id change := next_source w]> (changes (self w)),
       timeouts w ++ [(next_source w, change_id change)],
       S (next_source w))
    else scheduler_state w.
Proof.
  unfold manage_change_update, arms_poll_timer.
  destruct (valid_working_change_status (change_status change)
            || cancelled_change_status (change_status change)) eqn:Hgo; simpl.
  2:{ intros [= <- _]. reflexivity. }
  intros (u1 & w1 & o1 & o2 & H1 & H2 & _)%bind_Some.
  apply bind_Some in H2 as (u2 & w2 & o3 & o4 & H2 & H3 & _).
  apply bind_Some in H3 as (s & w3 & o5 & o6 & [= <- <- _] & H3 & _).
  assert (scheduler_state w2 = scheduler_state w) as Hframe.
  { transitivity (scheduler_state w1); symmetry.
    - by eapply keeps_scheduler_update_dock_snaps.
    - destruct (g_str_equal (change_kind change) "auto-refresh").
      + by eapply keeps_scheduler_update_inhibited_snaps.
      + by apply ret_Some in H1 as (_ & -> & _). }
  injection Hframe as Hchanges Htimeouts Hnext.
  unfold scheduler_state. rewrite <- Hchanges, <- Htimeouts, <- Hnext.
  destruct (negb (g_str_equal (change_status change) "Done")
            && negb (cancelled_change_status (change_status change))
            && negb (bool_decide (is_Some (changes (self w2) !! change_id change))));
    simpl in *.
  - injection H3 as <- _. reflexivity.
  - injection H3 as <- _. reflexivity.
Qed.

(** The three classes as booleans over the words of the specification. *)
Lemma done_status_class (status : string) :
  g_str_equal status "Done" = bool_decide (status = "Done").
Proof.
  destruct (g_str_equal status "Done") eqn:Hdone; symmetry.
  - apply bool_decide_eq_true_2. by apply g_str_equal_eq.
  - apply bool_decide_eq_false_2. intros Heq%g_str_equal_eq. congruence.
Qed.

Lemma cancelled_status_class (status : string) :
  cancelled_change_status status
  = bool_decide (status ∈ ["Undoing"; "Undone"; "Undo"; "Error"]).
Proof.
  destruct (cancelled_change_status status) eqn:Hcancelled; symmetry.
  - apply bool_decide_eq_true_2.
    apply cancelled_change_status_spec in Hcancelled.
    rewrite !elem_of_cons. tauto.
  - apply bool_decide_eq_false_2. rewrite !elem_of_cons, elem_of_nil.
    intros Hin.
    assert (cancelled_change_status status = true) as Htrue
      by (apply cancelled_change_status_spec; tauto).
    congruence.
Qed.

Lemma valid_status_class (status : string) :
  valid_working_change_status status
  = bool_decide (status ∈ ["Do"; "Doing"; "Done"]).
Proof.
  destruct (valid_working_change_status status) eqn:Hvalid; symmetry.
  - apply bool_decide_eq_true_2.
    apply valid_working_change_status_spec in Hvalid.
    rewrite !elem_of_cons. tauto.
  - apply bool_decide_eq_false_2. rewrite !elem_of_cons, elem_of_nil.
    intros Hin.
    assert (valid_working_change_status status = true) as Htrue
      by (apply valid_working_change_status_spec; tauto).
    congruence.
Qed.

(** C5: how the handler classifies a fetched change.  With [done] for the
    status "Done" and no other, [cancelled] for "Undoing", "Undone", "Undo"
    and "Error", and [valid] for "Do", "Doing" and "Done", the handler is
    this: with a status neither valid nor cancelled it only logs it, and
    otherwise it reconciles the snaps of an auto-refresh change and runs the
    aggregation pass, both with these [done] and [cancelled], and arms a
    poll timer when the change is neither done nor cancelled and not
    tracked.  So a dropped update leaves the world (snaps, tracked changes,
    progress table, timers) as it was and makes no call; and in every run
    that returns, the timers and the tracked changes are as they were
    unless the status is "Do" or "Doing" and the change is not tracked,
    when one timer is added for the change. *)
Theorem manage_change_update_status_classes
    (desktop_folder : option (list string)) (change : SnapdChange) (w : World) :
  let status := change_status change in
  let done := bool_decide (status = "Done") in
  let cancelled :=
    bool_decide (status ∈ ["Undoing"; "Undone"; "Undo"; "Error"]) in
  let valid := bool_decide (status ∈ ["Do"; "Doing"; "Done"]) in
  manage_change_update desktop_folder (AsyncOk change) w
  = (if negb (valid || cancelled) then
       emit (GDebug ("Unknown change status " +:+ status))
     else
       (if g_str_equal (change_kind change) "auto-refresh" then
          update_inhibited_snaps change done cancelled
        else mret tt);;
       update_dock_snaps desktop_folder change done cancelled;;
       s ← get_self;
       if negb done && negb cancelled
          && negb (bool_decide (is_Some (changes s !! change_id change)))
       then
         id ← g_timeout_add_once CHANGE_REFRESH_PERIOD (change_id change);
         set_changes (insert (change_id change) id)
       else mret tt) w
  /\ (valid || cancelled = false ->
      manage_change_update desktop_folder (AsyncOk change) w
      = Some (tt, w, [GDebug ("Unknown change status " +:+ status)]))
  /\ (forall w' out,
        manage_change_update desktop_folder (AsyncOk change) w
        = Some (tt, w', out) ->
        scheduler_state w'
        = if bool_decide (status ∈ ["Do"; "Doing"])
             && negb (bool_decide (is_Some (changes (self w)
                                              !! change_id change)))
          then (<[change_id change := next_source w]> (changes (self w)),
                timeouts w ++ [(next_source w, change_id change)],
                S (next_source w))
          else scheduler_state w).
Proof.
  intros status done cancelled valid.
  assert (manage_change_update desktop_folder (AsyncOk change) w
          = (if negb (valid || cancelled) then
               emit (GDebug ("Unknown change status " +:+ status))
             else
               (if g_str_equal (change_kind change) "auto-refresh" then
                  update_inhibited_snaps change done cancelled
                else mret tt);;
               update_dock_snaps desktop_folder change done cancelled;;
               s ← get_self;
               if negb done && negb cancelled
                  && negb (bool_decide
                             (is_Some (changes s !! change_id change)))
               then
                 id ← g_timeout_add_once CHANGE_REFRESH_PERIOD
                        (change_id change);
                 set_changes (insert (change_id change) id)
               else mret tt) w) as Hclasses.
  { unfold manage_change_update. cbv zeta. fold status.
    rewrite (done_status_class status), (cancelled_status_class status),
      (valid_status_class status).
    reflexivity. }
  split; [exact Hclasses|]. split.
  - intros Hdrop. rewrite Hclasses. fold valid cancelled. by rewrite Hdrop.
  - intros w' out Hrun%manage_change_update_scheduler. rewrite Hrun.
    unfold arms_poll_timer. fold status.
    rewrite (done_status_class status), (cancelled_status_class status),
      (valid_status_class status).
    fold done cancelled valid.
    assert ((valid || cancelled) && negb done && negb cancelled
            = bool_decide (status ∈ ["Do"; "Doing"])) as ->; [|done].
    subst done cancelled valid.
    destruct (decide (status = "Do")) as [->|Hdo]; [done|].
    destruct (decide (status = "Doing")) as [->|Hdoing]; [done|].
    rewrite (bool_decide_eq_false_2 (status ∈ ["Do"; "Doing"]))
      by (rewrite !elem_of_cons, elem_of_nil; tauto).
    destruct (decide (status = "Done")) as [->|Hdone]; [done|].
    rewrite (bool_decide_eq_false_2 (status ∈ ["Do"; "Doing"; "Done"]))
      by (rewrite !elem_of_cons, elem_of_nil; tauto).
    rewrite (bool_decide_eq_false_2 (status = "Done")) by done.
    cbn [orb andb negb]. rewrite andb_true_r. apply andb_negb_r.
Qed.

Lemma timers_match_changes_same w w' :
  scheduler_state w' = scheduler_state w ->
  timers_match_changes w -> timers_match_changes w'.
Proof.
  unfold scheduler_state, timers_match_changes.
  intros [= -> -> ->]. done.
Qed.

Lemma NoDup_fst_In_eq {A B : Type} (l : list (A * B)) a b b' :
  NoDup (map fst l) -> In (a, b) l -> In (a, b') l -> b = b'.
Proof.
  induction l as [|[x y] l IH]; simpl; [done|].
  intros [Hx Hl]%NoDup_cons [H1|H1] [H2|H2]; simplify_eq; [done|..].
  - exfalso. apply Hx. apply list_elem_of_In. apply in_map_iff. by exists (a, b').
  - exfalso. apply Hx. apply list_elem_of_In. apply in_map_iff. by exists (a, b).
  - by apply IH.
Qed.

Lemma timers_match_changes_initial : timers_match_changes initial_world.
Proof.
  split; [constructor|]. split; [constructor|].
  intros id cid. simpl. rewrite lookup_empty. split; [done | discriminate].
Qed.

Lemma timers_match_changes_arm w change_id :
  changes (self w) !! change_id = None ->
  timers_match_changes w ->
  forall w',
    scheduler_state w' =
      (<[change_id := next_source w]> (changes (self w)),
       timeouts w ++ [(next_source w, change_id)], S (next_source w)) ->
    timers_match_changes w'.
Proof.
  intros Hfree (Hids & Hlt & Hmatch) w' [= Hc Ht Hn].
  unfold timers_match_changes. rewrite Hc, Ht, Hn. split; [|split].
  - rewrite map_app. simpl. apply NoDup_app. split; [done|]. split.
    + intros x Hx [Hx'|[]]%list_elem_of_In. subst x.
      apply list_elem_of_In, in_map_iff in Hx as ([id cid] & Hid & Hin).
      rewrite List.Forall_forall in Hlt. specialize (Hlt _ Hin). simpl in *. lia.
    + apply NoDup_singleton.
  - apply Forall_app. split.
    + eapply Forall_impl; [exact Hlt|]. simpl. intros; lia.
    + constructor; [simpl; lia | constructor].
  - intros id cid. rewrite in_app_iff. simpl.
    destruct (decide (cid = change_id)) as [->|Hne].
    + rewrite lookup_insert_eq. split.
      * intros [Hin|[[= <- ]|[]]]; [|done].
        apply Hmatch in Hin. congruence.
      * intros [= <-]. right. by left.
    + rewrite lookup_insert_ne by done. rewrite <- Hmatch. split.
      * intros [Hin|[[= _ ?]|[]]]; [done | congruence].
      * by left.
Qed.

Lemma timers_match_changes_fire w source_id change_id w' out :
  timers_match_changes w ->
  In (source_id, change_id) (timeouts w) ->
  refresh_change change_id (remove_source source_id w) = Some (tt, w', out) ->
  timers_match_changes w'.
Proof.
  intros (Hids & Hlt & Hmatch) Hin [= <- _].
  unfold timers_match_changes. simpl. split; [|split].
  - clear -Hids. induction (timeouts w) as [|[a b] l IH]; simpl; [constructor|].
    apply NoDup_cons in Hids as [Ha Hl]. simpl in *.
    destruct (Nat.eqb a source_id); simpl; [by apply IH|].
    apply NoDup_cons. split; [|by apply IH].
    intros Hin. apply Ha. apply list_elem_of_In, in_map_iff in Hin as (x & Hx & Hin).
    apply filter_In in Hin as [Hin _].
    apply list_elem_of_In, in_map_iff. by exists x.
  - rewrite List.Forall_forall in *. intros x [Hx _]%filter_In. by apply Hlt.
  - intros id cid. rewrite filter_In. simpl. split.
    + intros [Hin' Hne]. apply negb_true_iff, Nat.eqb_neq in Hne.
      assert (cid <> change_id) as Hcid.
      { intros ->. apply Hmatch in Hin, Hin'. congruence. }
      rewrite lookup_delete_ne by done. by apply Hmatch.
    + intros Hlk. destruct (decide (cid = change_id)) as [->|Hne].
      { by rewrite lookup_delete_eq in Hlk. }
      rewrite lookup_delete_ne in Hlk by done. apply Hmatch in Hlk.
      split; [done|]. apply negb_true_iff, Nat.eqb_neq. intros ->.
      apply Hne. by eapply NoDup_fst_In_eq.
Qed.

Lemma poll_timers_at_most_one w change_id :
  timers_match_changes w -> (length (poll_timers change_id w) <= 1)%nat.
Proof.
  intros (Hids & _ & Hmatch). unfold poll_timers.
  assert (forall a b, In (a, change_id) (timeouts w) ->
                      In (b, change_id) (timeouts w) -> a = b) as Hsame.
  { intros a b Ha%Hmatch Hb%Hmatch. congruence. }
  clear Hmatch. induction (timeouts w) as [|[x y] l IH]; simpl; [lia|].
  apply NoDup_cons in Hids as [Hx Hl]. simpl in Hx.
  destruct (String.eqb y change_id) eqn:Hy; simpl.
  - apply String.eqb_eq in Hy as ->.
    destruct (List.filter _ l) as [|[a c] rest] eqn:Hrest; [simpl; lia|].
    exfalso. assert (In (a, c) (List.filter
      (fun t : nat * string => String.eqb (snd t) change_id) l)) as Hin.
    { rewrite Hrest. by left. }
    apply filter_In in Hin as [Hin Hc]. simpl in Hc.
    apply String.eqb_eq in Hc as ->.
    assert (a = x) as -> by (apply Hsame; [by right | by left]).
    apply Hx. apply list_elem_of_In, in_map_iff. by exists (x, change_id).
  - apply IH; [done|]. intros a b Ha Hb. apply Hsame; by right.
Qed.

Section PollTimers.

Variable TIME_TO_SHOW_REMAINING_TIME_BEFORE_FORCED_REFRESH : Z.
Variable TIME_TO_SHOW_ALERT_BEFORE_FORCED_REFRESH : Z.

Let step := step TIME_TO_SHOW_REMAINING_TIME_BEFORE_FORCED_REFRESH
              TIME_TO_SHOW_ALERT_BEFORE_FORCED_REFRESH.
Let reachable := reachable TIME_TO_SHOW_REMAINING_TIME_BEFORE_FORCED_REFRESH
                   TIME_TO_SHOW_ALERT_BEFORE_FORCED_REFRESH.

Lemma step_timers_match_changes w w' :
  step w w' -> timers_match_changes w -> timers_match_changes w'.
Proof.
  intros Hstep Hinv.
  destruct Hstep as [notice first_run w w' out H
                    |desktop_folder res w w' out H
                    |source_id data_change_id w w' out Hin H
                    |now res w w' out H
                    |data_snap_name res w w' out H
                    |data_snap_name res w w' out H
                    |dlg w w' out Hdlg H
                    |snap_name w w' out H].
  - eapply timers_match_changes_same; [|done].
    symmetry. by eapply keeps_scheduler_notice_cb.
  - destruct res as [change| |[] message].
    + apply manage_change_update_scheduler in H.
      unfold arms_poll_timer in H.
      destruct (changes (self w) !! change_id change) as [id|] eqn:Hlk.
      * rewrite bool_decide_eq_true_2, andb_false_r in H by eauto.
        by eapply timers_match_changes_same.
      * destruct (_ && _) in H.
        -- by eapply timers_match_changes_arm.
        -- by eapply timers_match_changes_same.
    + by injection H as <- _.
    + by injection H as <- _.
    + by injection H as <- _.
  - by eapply timers_match_changes_fire.
  - eapply timers_match_changes_same; [|done].
    symmetry. by eapply keeps_scheduler_manage_refresh_inhibit.
  - eapply timers_match_changes_same; [|done].
    symmetry. by eapply keeps_scheduler_begin_application_refresh.
  - eapply timers_match_changes_same; [|done].
    symmetry. by eapply keeps_scheduler_show_snap_completed.
  - eapply timers_match_changes_same; [|done].
    symmetry. by eapply keeps_scheduler_close_dialog_cb.
  - eapply timers_match_changes_same; [|done].
    symmetry. by eapply keeps_scheduler_ignore_snap_cb.
Qed.

Lemma reachable_timers_match_changes w :
  reachable w -> timers_match_changes w.
Proof.
  intros Hreach. refine (rtc_ind_r _ initial_world _ _ w Hreach).
  - apply timers_match_changes_initial.
  - intros y z _ Hstep IH. by eapply step_timers_match_changes.
Qed.

(** C1: in every world the process can reach, each change id has at most
    one poll timer in the main loop.  A change update for a change id that
    has a timer pending returns with the timers as they were.  When the
    timer of a change fires, the change is tracked, under this timer, as
    the timer body starts; run with a trace of the worlds its calls are
    made in, the body makes one call, the fetch of the change, and makes it
    in the world it ends in, in which the change id has already been taken
    out of [changes] and has no timer left. *)
Theorem one_poll_timer_per_change (w : World) :
  reachable w ->
  (forall change_id, (length (poll_timers change_id w) <= 1)%nat)
  /\ (forall desktop_folder change w' out,
        poll_timers (change_id change) w <> [] ->
        manage_change_update desktop_folder (AsyncOk change) w
          = Some (tt, w', out) ->
        timeouts w' = timeouts w)
  /\ (forall source_id change_id,
        In (source_id, change_id) (timeouts w) ->
        changes (self (remove_source source_id w)) !! change_id
        = Some source_id
        /\ exists w1,
             refresh_change (body := Traced_timer_body) change_id
               (remove_source source_id w)
             = Some (tt, w1, [(w1, SnapdClientGetChangeAsync change_id)])
             /\ changes (self w1) !! change_id = None
             /\ poll_timers change_id w1 = []
             /\ refresh_change change_id (remove_source source_id w)
                = Some (tt, w1, [SnapdClientGetChangeAsync change_id])).
Proof.
  intros Hinv%reachable_timers_match_changes. split; [|split].
  - intros change_id. by apply poll_timers_at_most_one.
  - intros desktop_folder change w' out Hpending Hrun.
    apply manage_change_update_scheduler in Hrun.
    assert (is_Some (changes (self w) !! change_id change)) as Htracked.
    { destruct (poll_timers (change_id change) w) as [|[id cid] rest] eqn:Hp;
        [done|].
      assert (In (id, cid) (poll_timers (change_id change) w)) as Hin
        by (rewrite Hp; by left).
      apply filter_In in Hin as [Hin Hcid]. simpl in Hcid.
      apply String.eqb_eq in Hcid as ->.
      destruct Hinv as (_ & _ & Hmatch). apply Hmatch in Hin. eauto. }
    unfold arms_poll_timer in Hrun.
    rewrite bool_decide_eq_true_2, andb_false_r in Hrun by done.
    by injection Hrun.
  - intros source_id change_id Hin. split.
    { destruct Hinv as (_ & _ & Hmatch). by apply Hmatch. }
    eexists. split; [reflexivity|].
    assert (timers_match_changes
              (match refresh_change change_id (remove_source source_id w) with
               | Some (_, w1, _) => w1
               | None => w
               end)) as Hinv'.
    { eapply timers_match_changes_fire; [exact Hinv | exact Hin | reflexivity]. }
    simpl in Hinv'. split; [simpl; apply lookup_delete_eq|].
    split; [|done].
    destruct Hinv' as (_ & _ & Hmatch).
    unfold poll_timers.
    match goal with |- ?l = [] => destruct l as [|[id cid] rest] eqn:Hp end;
      [done|exfalso].
    match type of Hp with ?l = _ =>
      assert (In (id, cid) l) as Hin' by (rewrite Hp; by left) end.
    apply filter_In in Hin' as [Hin' Hcid]. simpl in Hcid.
    apply String.eqb_eq in Hcid as ->.
    apply Hmatch in Hin'. simpl in Hin'. by rewrite lookup_delete_eq in Hin'.
Qed.

End PollTimers.

Lemma polled_world_scheduler :
  scheduler_state polled_world
  = ({[ "42" := 1%nat ]}, [(1%nat, "42")], 2%nat).
Proof. vm_compute. reflexivity. Qed.

Lemma polled_world_reachable t_remaining t_alert :
  reachable t_remaining t_alert polled_world.
Proof.
  eapply rtc_l; [|apply rtc_refl].
  eapply (step_change_fetched _ _ sample_folder
            (AsyncOk change_doing) initial_world polled_world
            (output_of (manage_change_update sample_folder (AsyncOk change_doing))
               initial_world)).
  vm_compute. reflexivity.
Qed.

Lemma one_poll_timer_per_change_witness :
  (forall change_id, (length (poll_timers change_id polled_world) <= 1)%nat)
  /\ (forall desktop_folder change w' out,
        poll_timers (change_id change) polled_world <> [] ->
        manage_change_update desktop_folder (AsyncOk change) polled_world
          = Some (tt, w', out) ->
        timeouts w' = timeouts polled_world)
  /\ (forall source_id change_id,
        In (source_id, change_id) (timeouts polled_world) ->
        changes (self (remove_source source_id polled_world)) !! change_id
        = Some source_id
        /\ exists w1,
             refresh_change (body := Traced_timer_body) change_id
               (remove_source source_id polled_world)
             = Some (tt, w1, [(w1, SnapdClientGetChangeAsync change_id)])
             /\ changes (self w1) !! change_id = None
             /\ poll_timers change_id w1 = []
             /\ refresh_change change_id (remove_source source_id polled_world)
                = Some (tt, w1, [SnapdClientGetChangeAsync change_id])).
Proof.
  apply (one_poll_timer_per_change 0 0 polled_world).
  apply polled_world_reachable.
Defined.

(** A second update of change "42" while its timer is pending arms nothing,
    and once the timer has fired the next update arms a timer again. *)
Lemma polled_world_second_update :
  timeouts (world_after (manage_change_update sample_folder
                           (AsyncOk change_doing)) polled_world)
  = [(1%nat, "42")]
  /\ timeouts (world_after (manage_change_update sample_folder
                              (AsyncOk change_doing))
                 (world_after (refresh_change "42")
                    (remove_source 1 polled_world)))
     = [(2%nat, "42")].
Proof. split; vm_compute; reflexivity. Qed.

(** * Dialogs *)

Ltac run_handler :=
  unfold mbind, M_bind, bind, mret, M_ret, ret, get_self, put_self, emit; simpl.

Lemma add_snap_found snap_name snap w :
  snaps (self w) !! snap_name = Some snap ->
  add_snap snap_name w = Some (snap, w, []).
Proof. intros Hfound. unfold add_snap, find_snap. run_handler. by rewrite Hfound. Qed.

(** When the snap query of [begin_application_refresh] completes, with a
    snap or with an error, while the record of that snap already has a
    dialog bound, the callback returns with the world as it was. *)
Lemma begin_application_refresh_bound_noop
    (data_snap_name : string) (res : AsyncResult SnapdSnap) (w : World)
    (name : string) (sdi_snap : SdiSnap) (dlg : SdiRefreshDialog) :
  queried_snap_name data_snap_name res = Some name ->
  snaps (self w) !! name = Some sdi_snap ->
  dialog sdi_snap = Some dlg ->
  begin_application_refresh data_snap_name res w = Some (tt, w, []).
Proof.
  intros Hname Hfound Hbound. unfold begin_application_refresh.
  destruct res as [snap| |[] message]; simpl in Hname.
  - rewrite Hname. run_handler. rewrite (add_snap_found _ _ _ Hfound).
    by rewrite Hbound.
  - injection Hname as ->. run_handler.
    rewrite (add_snap_found _ _ _ Hfound). by rewrite Hbound.
  - reflexivity.
  - injection Hname as ->. run_handler.
    rewrite (add_snap_found _ _ _ Hfound). by rewrite Hbound.
Qed.

Lemma dialog_world_bound :
  snaps (self dialog_world) !! "p"
  = Some (with_dialog (Some sample_dialog) (sdi_snap_new "p"))
  /\ main_window (self dialog_world) = Some [sample_dialog]
  /\ next_object dialog_world = 1%nat.
Proof. repeat split; vm_compute; reflexivity. Qed.

(** * Progress of a bound dialog *)

Lemma count_done_le tasks : (count_done tasks <= length tasks)%nat.
Proof. apply List.filter_length_le. Qed.

Lemma doing_is_not_done status :
  g_str_equal "Doing" status = true -> status_is_done status = false.
Proof. intros <-%g_str_equal_eq. reflexivity. Qed.

Lemma count_done_cons task rest :
  count_done (task :: rest)
  = if status_is_done (task_status task) then S (count_done rest)
    else count_done rest.
Proof.
  unfold count_done. cbn [List.filter].
  by destruct (status_is_done (task_status task)).
Qed.

Lemma first_doing_cons task rest :
  first_doing (task :: rest)
  = if g_str_equal "Doing" (task_status task) then Some task
    else first_doing rest.
Proof. reflexivity. Qed.

Lemma scan_tasks_spec tasks done_count current_task :
  0 <= done_count ->
  done_count + Z.of_nat (length tasks) < gsize_max ->
  scan_tasks tasks done_count current_task
  = (done_count + Z.of_nat (count_done tasks),
     match current_task with
     | Some task => Some task
     | None => first_doing tasks
     end).
Proof.
  revert done_count current_task.
  induction tasks as [|task rest IH]; intros done_count current_task Hlo Hhi.
  - cbn. rewrite Z.add_0_r. by destruct current_task.
  - pose proof (count_done_le rest) as Hle.
    cbn [scan_tasks length] in *.
    rewrite count_done_cons, first_doing_cons.
    destruct (status_is_done (task_status task)) eqn:Hdone.
    + unfold gsize_incr. rewrite Z.mod_small by lia.
      rewrite IH by lia. f_equal; [lia|].
      destruct current_task; [done|].
      destruct (g_str_equal "Doing" (task_status task)) eqn:Hdoing; [|done].
      apply doing_is_not_done in Hdoing. congruence.
    + destruct current_task as [t|].
      * rewrite bool_decide_eq_false_2 by done. cbn [andb].
        by rewrite IH by lia.
      * rewrite bool_decide_eq_true_2 by done. cbn [andb].
        destruct (g_str_equal "Doing" (task_status task)) eqn:Hdoing;
          by rewrite IH by lia.
Qed.

(** C7, as amended: for an inhibited snap that is not hidden, in a change
    that is neither done nor cancelled.  With a dialog bound to the snap the
    round counts the tasks with a finished status (Done, Abort, Error, Hold,
    Wait, Undone) and all tasks, and pushes the summary of the first task
    found "Doing" with these two counts to the dialog, or pushes nothing
    when no task is "Doing"; the world stays as it was.  With no dialog
    bound yet, as for a snap seen for the first time, the round pushes no
    progress: it marks the snap ignored and asks snapd for the snap. *)
Theorem update_inhibited_snap_progress
    (change : SnapdChange) (snap_name : string) (snap : SdiSnap) (w : World) :
  Z.of_nat (length (change_tasks change)) < guint_max ->
  snaps (self w) !! snap_name = Some snap ->
  inhibited snap = true ->
  hidden snap = false ->
  manually_hidden snap = false ->
  (forall status, status_is_done status = true <->
     status = "Done" \/ status = "Abort" \/ status = "Error" \/ status = "Hold"
     \/ status = "Wait" \/ status = "Undone")
  /\ match dialog snap with
     | Some dlg =>
         update_inhibited_snap change false false snap_name w
         = Some (tt, w,
                 match first_doing (change_tasks change) with
                 | Some task =>
                     [SdiRefreshDialogSetNTasksProgress dlg (task_summary task)
                        (Z.of_nat (count_done (change_tasks change)))
                        (Z.of_nat (length (change_tasks change)))]
                 | None => []
                 end)
     | None =>
         update_inhibited_snap change false false snap_name w
         = Some (tt, world_after (sdi_snap_set_ignored snap true) w,
                 [SnapdClientGetSnapAsync snap_name begin_application_refresh_cb])
     end.
Proof.
  intros Hlen Hfound Hinhibited Hhidden Hmanually.
  split; [apply status_is_done_spec|].
  unfold update_inhibited_snap, find_snap. run_handler.
  rewrite Hfound, Hinhibited, Hhidden, Hmanually. simpl.
  destruct (dialog snap) as [dlg|]; [|reflexivity].
  rewrite scan_tasks_spec; [|lia|unfold guint_max, gsize_max in *; lia].
  simpl. by destruct (first_doing (change_tasks change)).
Qed.

Lemma bound_world_snap : snaps (self bound_world) !! "p" = Some bound_snap.
Proof. vm_compute. reflexivity. Qed.

Lemma update_inhibited_snap_progress_witness :
  (forall status, status_is_done status = true <->
     status = "Done" \/ status = "Abort" \/ status = "Error" \/ status = "Hold"
     \/ status = "Wait" \/ status = "Undone")
  /\ update_inhibited_snap change_doing false false "p" bound_world
     = Some (tt, bound_world,
             [SdiRefreshDialogSetNTasksProgress sample_dialog "task Doing" 1 3]).
Proof.
  apply (update_inhibited_snap_progress change_doing "p" bound_snap bound_world).
  - vm_compute. reflexivity.
  - apply bound_world_snap.
  - reflexivity.
  - reflexivity.
  - reflexivity.
Defined.

(** The whole handler on the bound snap: the push to the dialog comes
    first; the launcher is not updated, the fraction is still 1/3. *)
Lemma manage_change_update_bound_snap :
  manage_change_update sample_folder (AsyncOk change_doing) bound_world
  = Some (tt, bound_world,
          [SdiRefreshDialogSetNTasksProgress sample_dialog "task Doing" 1 3]).
Proof. vm_compute. reflexivity. Qed.

(** The claim of C7 as it stands fails: with the statuses Done, Doing, Do
    and the snap "p" seen for the first time, the handler pushes nothing to
    a dialog, whether "p" has no record at all or is inhibited without a
    dialog; in the latter case it asks snapd for the snap. *)
Lemma first_seen_snap_gets_no_progress_push :
  map task_status (change_tasks change_doing) = ["Done"; "Doing"; "Do"]
  /\ snaps (self initial_world) !! "p" = None
  /\ manage_change_update sample_folder (AsyncOk change_doing) initial_world
     = Some (tt, polled_world,
             [LauncherEntryEmitUpdate "p_p.desktop"
                (launcher_values
                   (PrimFloat.div (gdouble_of_guint 1) (gdouble_of_guint 3))
                   false)])
  /\ snaps (self inhibited_world) !! "p"
     = Some (with_inhibited true (sdi_snap_new "p"))
  /\ output_of (manage_change_update sample_folder (AsyncOk change_doing))
       inhibited_world
     = [SnapdClientGetSnapAsync "p" begin_application_refresh_cb;
        LauncherEntryEmitUpdate "p_p.desktop"
          (launcher_values
             (PrimFloat.div (gdouble_of_guint 1) (gdouble_of_guint 3))
             false)].
Proof. repeat split; vm_compute; reflexivity. Qed.

(** * The grouped notification for inhibited snaps *)

Lemma bind_eq {A B : Type} (m : M A) (k : A -> M B) w a w1 o1 :
  m w = Some (a, w1, o1) ->
  (m ≫= k) w = match k a w1 with
               | None => None
               | Some (b, w2, o2) => Some (b, w2, o1 ++ o2)
               end.
Proof. intros Hm. unfold mbind, M_bind, bind. by rewrite Hm. Qed.

Lemma set_snaps_eq f w : set_snaps f w = Some (tt, with_snaps f w, []).
Proof. reflexivity. Qed.

Lemma add_snap_missing snap_name w :
  snaps (self w) !! snap_name = None ->
  add_snap snap_name w
  = Some (sdi_snap_new snap_name,
          with_snaps (insert snap_name (sdi_snap_new snap_name)) w, []).
Proof. intros Hnone. unfold add_snap, find_snap. run_handler. by rewrite Hnone. Qed.

Lemma is_ignored_alter_inhibited w key name :
  is_ignored (with_snaps (alter (with_inhibited true) key) w) name
  = is_ignored w name.
Proof.
  unfold is_ignored. simpl. rewrite lookup_alter.
  case_decide; [subst key|done]. by destruct (snaps (self w) !! name).
Qed.

Lemma is_ignored_insert_new w key name :
  snaps (self w) !! key = None ->
  is_ignored (with_snaps (insert key (sdi_snap_new key)) w) name
  = is_ignored w name.
Proof.
  intros Hnone. unfold is_ignored. simpl.
  destruct (decide (key = name)) as [->|Hne].
  - by rewrite lookup_insert_eq, Hnone.
  - by rewrite lookup_insert_ne.
Qed.

Lemma existsb_not_ignored_ext w w' returned :
  (forall name, is_ignored w' name = is_ignored w name) ->
  existsb (not_ignored_in w') returned = existsb (not_ignored_in w) returned.
Proof.
  intros Hsame. induction returned as [|snap rest IH]; [done|].
  cbn [existsb]. rewrite IH. f_equal. unfold not_ignored_in.
  destruct (snap_name snap); [|done]. by rewrite Hsame.
Qed.

Lemma notify_check_forced_refresh_run t_remaining t_alert self_notify now snap
    snap_data w :
  exists shown out,
    notify_check_forced_refresh t_remaining t_alert self_notify now snap
      snap_data w
    = Some (shown, w, out)
    /\ List.filter is_pending_refresh out = [].
Proof.
  unfold notify_check_forced_refresh, g_signal_emit_by_name.
  destruct self_notify; (destruct (_ && _); [by eexists _, _|]);
    destruct (_ <=? _); by eexists _, _.
Qed.

Lemma refresh_inhibit_loop_run t_remaining t_alert now returned :
  forall show snap_list w,
  exists w' out,
    refresh_inhibit_loop t_remaining t_alert now returned show snap_list w
    = Some ((show || existsb (not_ignored_in w) returned,
             snap_list ++ named_snaps returned), w', out)
    /\ (forall name, is_ignored w' name = is_ignored w name)
    /\ List.filter is_pending_refresh out = [].
Proof.
  induction returned as [|snap rest IH]; intros show snap_list w.
  - exists w, []. cbn. by rewrite orb_false_r, app_nil_r.
  - cbn [refresh_inhibit_loop existsb named_snaps List.filter].
    unfold not_ignored_in at 1. fold (named_snaps rest).
    destruct (snap_name snap) as [name|].
    2:{ destruct (IH show snap_list w) as (w' & out & Hrun & Hign & Hout).
        exists w', (GDebug "Received notification for inhibited snap (null)" :: out).
        erewrite bind_eq by reflexivity. rewrite Hrun.
        rewrite bool_decide_eq_false_2 by (by intros [? [=]]).
        split; [done|]. split; [done|]. cbn. exact Hout. }
    rewrite bool_decide_eq_true_2 by eauto.
    erewrite bind_eq by reflexivity.
    assert (exists snap_data w1,
      add_snap name w = Some (snap_data, w1, [])
      /\ ignored snap_data = is_ignored w name
      /\ forall n, is_ignored
                     (with_snaps (alter (with_inhibited true) (sdi_name snap_data)) w1) n
                   = is_ignored w n)
      as (snap_data & w1 & Hadd & Hflag & Hsame).
    { unfold is_ignored at 1 3.
      destruct (snaps (self w) !! name) as [found|] eqn:Hfound.
      - exists found, w. split; [by apply add_snap_found|]. split; [done|].
        intros n. apply is_ignored_alter_inhibited.
      - exists (sdi_snap_new name), (with_snaps (insert name (sdi_snap_new name)) w).
        split; [by apply add_snap_missing|]. split; [done|].
        intros n. rewrite is_ignored_alter_inhibited.
        by apply is_ignored_insert_new. }
    erewrite bind_eq by exact Hadd.
    unfold sdi_snap_set_inhibited.
    erewrite bind_eq by apply set_snaps_eq.
    set (w2 := with_snaps _ w1) in *.
    erewrite bind_eq by reflexivity.
    destruct (notify_check_forced_refresh_run t_remaining t_alert
                (notify (self w2)) now snap (with_inhibited true snap_data) w2)
      as (shown & out1 & Hcheck & Hout1).
    erewrite bind_eq by exact Hcheck.
    destruct (IH (if negb (ignored snap_data) then true else show)
                 (snap_list ++ [snap]) w2) as (w' & out & Hrun & Hign & Hout).
    rewrite Hrun. eexists _, _. split; [|split].
    + do 3 f_equal. rewrite <- app_assoc. f_equal.
      rewrite Hflag.
      replace (existsb (not_ignored_in w2) rest)
        with (existsb (not_ignored_in w) rest).
      { by destruct (is_ignored w name), show. }
      symmetry. by apply existsb_not_ignored_ext.
    + intros n. by rewrite Hign, Hsame.
    + cbn [app List.filter is_pending_refresh].
      by rewrite List.filter_app, Hout1, Hout.
Qed.

(** C8, as amended: when the query for the inhibited snaps completes with
    a list that is not empty, the handler returns; it emits
    "notify-pending-refresh" exactly when one of the returned snaps has a
    name and is not marked ignored, once, with the list of all returned
    snaps that have a name, in the order returned; when every returned
    snap has a name this list is the returned list. *)
Theorem manage_refresh_inhibit_grouped_notification
    (t_remaining t_alert now : Z) (returned : list SnapdSnap) (w : World) :
  returned <> [] ->
  (exists w' out,
     manage_refresh_inhibit t_remaining t_alert now (AsyncOk returned) w
     = Some (tt, w', out)
     /\ List.filter is_pending_refresh out
        = if existsb (not_ignored_in w) returned
          then [SignalNotifyPendingRefresh (named_snaps returned)]
          else [])
  /\ (Forall (fun snap => is_Some (snap_name snap)) returned ->
      named_snaps returned = returned).
Proof.
  intros Hne. split.
  - unfold manage_refresh_inhibit.
    destruct returned as [|snap rest]; [done|]. cbn [length Nat.eqb].
    destruct (refresh_inhibit_loop_run t_remaining t_alert now (snap :: rest)
                false [] w) as (w' & out & Hrun & _ & Hout).
    erewrite bind_eq by exact Hrun. cbn [orb app].
    destruct (existsb (not_ignored_in w) (snap :: rest)).
    + eexists _, _. split; [reflexivity|].
      by rewrite List.filter_app, Hout.
    + eexists _, _. split; [reflexivity|].
      by rewrite List.filter_app, Hout.
  - intros Hnamed. clear Hne. unfold named_snaps.
    induction Hnamed as [|snap rest Hsnap _ IH]; [done|].
    cbn [List.filter]. rewrite bool_decide_eq_true_2 by done.
    by rewrite IH.
Qed.

Lemma manage_refresh_inhibit_grouped_notification_witness :
  (exists w' out,
     manage_refresh_inhibit 0 0 0 (AsyncOk [sample_snap "a"; sample_snap "b"])
       ignoring_world
     = Some (tt, w', out)
     /\ List.filter is_pending_refresh out
        = [SignalNotifyPendingRefresh [sample_snap "a"; sample_snap "b"]])
  /\ (Forall (fun snap => is_Some (snap_name snap))
        [sample_snap "a"; sample_snap "b"] ->
      named_snaps [sample_snap "a"; sample_snap "b"]
      = [sample_snap "a"; sample_snap "b"]).
Proof.
  apply (manage_refresh_inhibit_grouped_notification 0 0 0
           [sample_snap "a"; sample_snap "b"] ignoring_world).
  discriminate.
Defined.

(** When the only returned snap is marked ignored nothing is emitted for
    the group. *)
Lemma manage_refresh_inhibit_all_ignored :
  List.filter is_pending_refresh
    (output_of (manage_refresh_inhibit 0 0 0 (AsyncOk [sample_snap "b"]))
       ignoring_world)
  = [].
Proof. vm_compute. reflexivity. Qed.

(** The claim of C8 as it stands fails: a returned snap without a name is
    passed over.  Returned alone it raises no signal, although no snap is
    marked ignored; returned next to "a" it is left out of the list. *)
Lemma manage_refresh_inhibit_skips_nameless :
  manage_refresh_inhibit 0 0 0 (AsyncOk [nameless_snap]) initial_world
  = Some (tt, initial_world,
          [GDebug "Received notification for inhibited snap (null)"])
  /\ List.filter is_pending_refresh
       (output_of (manage_refresh_inhibit 0 0 0
                     (AsyncOk [nameless_snap; sample_snap "a"])) initial_world)
     = [SignalNotifyPendingRefresh [sample_snap "a"]].
Proof. split; vm_compute; reflexivity. Qed.

(** * The progress aggregator *)

(** [update_dock_bar] against the words of the specification. *)
Lemma update_dock_bar_spec p targets :
  desktop_files p = Some targets ->
  update_dock_bar p = Some (spec_entry_after p, spec_emission p targets).
Proof.
  intros Hfiles. unfold update_dock_bar, spec_entry_after, spec_emission.
  destruct (total_tasks p =? 0); [done|]. fold (spec_fraction p).
  cbn [old_progress done desktop_files]. fold (spec_suppressed p).
  destruct (spec_suppressed p); [done|]. rewrite Hfiles.
  destruct targets as [|target rest]; reflexivity.
Qed.

(** The slip next to it: an entry without the array, with tasks counted
    and an update due, stops the process. *)
Lemma update_dock_bar_null_desktop_files p :
  desktop_files p = None ->
  total_tasks p <> 0 ->
  spec_suppressed p = false ->
  update_dock_bar p = None.
Proof.
  intros Hfiles Htotal Hdue. unfold update_dock_bar.
  apply Z.eqb_neq in Htotal. rewrite Htotal. fold (spec_fraction p).
  cbn [old_progress done desktop_files]. fold (spec_suppressed p).
  by rewrite Hdue, Hfiles.
Qed.

Lemma set_refreshing_snap_list_eq f w :
  set_refreshing_snap_list f w = Some (tt, with_refreshing_snap_list f w, []).
Proof. reflexivity. Qed.

Lemma for_each_emit out w : for_each emit out w = Some (tt, w, out).
Proof.
  induction out as [|e out IH]; [done|].
  cbn [for_each]. erewrite bind_eq by reflexivity. by rewrite IH.
Qed.

Lemma update_dock_bar_at_run key w :
  (forall p, refreshing_snap_list (self w) !! key = Some p ->
             is_Some (update_dock_bar p)) ->
  update_dock_bar_at key w
  = Some (tt, with_refreshing_snap_list (fun m => dock_bar_step m key) w,
          dock_bar_output (refreshing_snap_list (self w)) key).
Proof.
  intros Hok. unfold update_dock_bar_at, dock_bar_step, dock_bar_output.
  erewrite bind_eq by reflexivity. cbn [app].
  destruct w as [[nt sn ch m mw] ts ns no].
  unfold with_refreshing_snap_list. cbn [self refreshing_snap_list] in *.
  destruct (m !! key) as [p|] eqn:Hp; [|done].
  destruct (Hok p eq_refl) as [[p' out] Hrun]. rewrite Hrun.
  erewrite bind_eq by apply set_refreshing_snap_list_eq.
  rewrite for_each_emit. reflexivity.
Qed.

Lemma dock_bar_step_lookup_ne m key key' :
  key <> key' -> dock_bar_step m key !! key' = m !! key'.
Proof.
  intros Hne. unfold dock_bar_step.
  destruct (m !! key) as [p|]; [|done].
  destruct (update_dock_bar p) as [[p' out]|]; [|done].
  by rewrite lookup_insert_ne.
Qed.

Lemma dock_bar_step_lookup_eq m key :
  files_known m ->
  dock_bar_step m key !! key = spec_entry_after <$> m !! key.
Proof.
  intros Hknown. unfold dock_bar_step.
  destruct (m !! key) as [p|] eqn:Hp; [|by rewrite Hp].
  destruct (desktop_files p) as [targets|] eqn:Hfiles; [|by apply Hknown in Hp].
  rewrite (update_dock_bar_spec p targets Hfiles). by rewrite lookup_insert_eq.
Qed.

Lemma dock_bar_step_files_known m key :
  files_known m -> files_known (dock_bar_step m key).
Proof.
  intros Hknown key' p'. destruct (decide (key = key')) as [<-|Hne].
  - rewrite dock_bar_step_lookup_eq by done.
    destruct (m !! key) as [p|] eqn:Hp; [|done]. intros [= <-].
    apply Hknown in Hp. unfold spec_entry_after. by destruct (total_tasks p =? 0).
  - rewrite dock_bar_step_lookup_ne by done. apply Hknown.
Qed.

Lemma dock_bar_output_spec m key p :
  files_known m -> m !! key = Some p ->
  dock_bar_output m key = spec_emission p (default [] (desktop_files p)).
Proof.
  intros Hknown Hp. unfold dock_bar_output. rewrite Hp.
  destruct (desktop_files p) as [targets|] eqn:Hfiles; [|by apply Hknown in Hp].
  by rewrite (update_dock_bar_spec p targets Hfiles).
Qed.

Lemma for_each_update_dock_bar_at_run keys :
  NoDup keys ->
  forall w,
    files_known (refreshing_snap_list (self w)) ->
    for_each update_dock_bar_at keys w
    = Some (tt,
            with_refreshing_snap_list (fun m => foldl dock_bar_step m keys) w,
            concat (map (dock_bar_output (refreshing_snap_list (self w))) keys)).
Proof.
  induction 1 as [|key keys Hkey Hkeys IH]; intros w Hknown.
  - by destruct w as [[] ? ? ?].
  - cbn [for_each foldl map concat].
    erewrite bind_eq.
    2:{ apply update_dock_bar_at_run. intros p Hp.
        destruct (desktop_files p) as [targets|] eqn:Hfiles;
          [|by apply Hknown in Hp].
        rewrite (update_dock_bar_spec p targets Hfiles). eauto. }
    rewrite IH by (by apply dock_bar_step_files_known).
    do 3 f_equal. cbn [with_refreshing_snap_list self refreshing_snap_list].
    f_equal. apply map_ext_in. intros key' Hin. unfold dock_bar_output.
    rewrite dock_bar_step_lookup_ne; [done|].
    intros ->. by apply Hkey, list_elem_of_In.
Qed.

Lemma foldl_dock_bar_step_lookup keys :
  NoDup keys ->
  forall m key,
    files_known m ->
    foldl dock_bar_step m keys !! key
    = if bool_decide (key ∈ keys) then spec_entry_after <$> m !! key
      else m !! key.
Proof.
  induction 1 as [|key0 keys Hkey0 Hkeys IH]; intros m key Hknown.
  - done.
  - cbn [foldl]. rewrite IH by (by apply dock_bar_step_files_known).
    destruct (decide (key = key0)) as [->|Hne].
    + rewrite (bool_decide_eq_false_2 (key0 ∈ keys)) by done.
      rewrite bool_decide_eq_true_2 by (by left).
      by apply dock_bar_step_lookup_eq.
    + rewrite dock_bar_step_lookup_ne by done.
      destruct (decide (key ∈ keys)) as [Hin|Hout].
      * rewrite !bool_decide_eq_true_2; [done | by right | done].
      * rewrite !bool_decide_eq_false_2; [done | | done].
        by intros [?|?]%elem_of_cons.
Qed.

Lemma foreach_update_dock_bar_run w :
  files_known (refreshing_snap_list (self w)) ->
  foreach_update_dock_bar w
  = Some (tt, with_refreshing_snap_list (fmap spec_entry_after) w,
          concat (map (fun entry =>
                         spec_emission (snd entry)
                           (default [] (desktop_files (snd entry))))
                      (map_to_list (refreshing_snap_list (self w))))).
Proof.
  intros Hknown. unfold foreach_update_dock_bar.
  erewrite bind_eq by reflexivity.
  pose proof (NoDup_fst_map_to_list (refreshing_snap_list (self w))) as Hnodup.
  rewrite for_each_update_dock_bar_at_run by done. cbn [app].
  do 2 f_equal.
  - f_equal. unfold with_refreshing_snap_list. do 2 f_equal.
    apply map_eq. intros key.
    rewrite foldl_dock_bar_step_lookup by done. rewrite lookup_fmap.
    case_bool_decide as Hin; [done|].
    destruct (refreshing_snap_list (self w) !! key) as [p|] eqn:Hp; [|done].
    exfalso. apply Hin. apply list_elem_of_fmap. exists (key, p).
    split; [done|]. by apply elem_of_map_to_list.
  - f_equal. rewrite map_map. apply map_ext_in. intros [key p] Hin.
    apply dock_bar_output_spec; [done|].
    by apply elem_of_map_to_list, list_elem_of_In.
Qed.

(** Whatever order the table is visited in, each key once: the table is
    left the same, and the output is the same up to the order of the
    entries. *)
Lemma for_each_update_dock_bar_at_any_order keys w :
  keys ≡ₚ map fst (map_to_list (refreshing_snap_list (self w))) ->
  files_known (refreshing_snap_list (self w)) ->
  exists out,
    for_each update_dock_bar_at keys w
    = Some (tt, world_after foreach_update_dock_bar w, out)
    /\ out ≡ₚ output_of foreach_update_dock_bar w.
Proof.
  intros Hperm Hknown.
  set (m := refreshing_snap_list (self w)) in *.
  pose proof (NoDup_fst_map_to_list m) as Hnodup0.
  assert (NoDup keys) as Hnodup by (by rewrite Hperm).
  assert (foreach_update_dock_bar w
          = Some (tt,
                  with_refreshing_snap_list
                    (fun m => foldl dock_bar_step m (map fst (map_to_list m))) w,
                  concat (map (dock_bar_output m) (map fst (map_to_list m)))))
    as Hmodel.
  { unfold foreach_update_dock_bar. erewrite bind_eq by reflexivity.
    fold m. by rewrite for_each_update_dock_bar_at_run. }
  unfold world_after, output_of. rewrite Hmodel.
  rewrite for_each_update_dock_bar_at_run by done. fold m.
  eexists. split.
  - do 3 f_equal. unfold with_refreshing_snap_list. do 2 f_equal. fold m.
    apply map_eq. intros key.
    rewrite !foldl_dock_bar_step_lookup by done.
    destruct (decide (key ∈ keys)) as [Hin|Hout].
    + rewrite !bool_decide_eq_true_2; [done | by rewrite <- Hperm | done].
    + rewrite !bool_decide_eq_false_2; [done | by rewrite <- Hperm | done].
  - rewrite <- !flat_map_concat_map. by apply Permutation_flat_map.
Qed.

Lemma captured_refl desktop_folder m : captured desktop_folder m m.
Proof. split; [done|]. intros key p' Hp. by rewrite Hp. Qed.

Lemma captured_trans desktop_folder m1 m2 m3 :
  captured desktop_folder m1 m2 -> captured desktop_folder m2 m3 ->
  captured desktop_folder m1 m3.
Proof.
  intros [Hkeep12 Hfiles12] [Hkeep23 Hfiles23]. split; [by eauto|].
  intros key p3 Hp3. rewrite (Hfiles23 _ _ Hp3).
  destruct (m2 !! key) as [p2|] eqn:Hp2; [by apply Hfiles12|].
  destruct (m1 !! key) as [p1|] eqn:Hp1; [|done].
  destruct (Hkeep12 key) as [? ?]; [by rewrite Hp1 | congruence].
Qed.

Lemma count_affected_captured desktop_folder task_done snap_name m :
  captured desktop_folder m (count_affected desktop_folder task_done snap_name m).
Proof.
  unfold count_affected. split.
  - intros key Hkey. rewrite lookup_alter. case_decide as Heq.
    + subst key. rewrite bool_decide_eq_true_2 by done.
      destruct Hkey as [p ->]. by eexists.
    + case_bool_decide; [done|]. by rewrite lookup_insert_ne.
  - intros key p'. rewrite lookup_alter. case_decide as Heq.
    + subst key. case_bool_decide as Hin.
      * destruct Hin as [p Hp]. rewrite Hp. by intros [= <-].
      * rewrite lookup_insert_eq. intros [= <-].
        apply eq_None_not_Some in Hin. by rewrite Hin.
    + case_bool_decide.
      * intros Hp. by rewrite Hp.
      * rewrite lookup_insert_ne by done. intros Hp. by rewrite Hp.
Qed.

Lemma update_dock_affected_run desktop_folder task_done done cancelled affected :
  forall snaps_to_remove w,
  exists snaps_to_remove' m',
    update_dock_affected desktop_folder task_done done cancelled affected
      snaps_to_remove w
    = Some (snaps_to_remove', with_refreshing_snap_list (fun _ => m') w, [])
    /\ captured desktop_folder (refreshing_snap_list (self w)) m'.
Proof.
  induction affected as [|snap_name rest IH]; intros snaps_to_remove w.
  - exists snaps_to_remove, (refreshing_snap_list (self w)).
    split; [by destruct w as [[] ? ? ?] | apply captured_refl].
  - cbn [update_dock_affected].
    erewrite bind_eq by reflexivity.
    set (w1 := with_refreshing_snap_list
                 (count_affected desktop_folder task_done snap_name) w).
    destruct (IH (if done || cancelled then snap_name :: snaps_to_remove
                  else snaps_to_remove) w1) as (acc & m' & Hrun & Hcap).
    exists acc, m'. split.
    + erewrite bind_eq.
      2:{ instantiate (1 := []). instantiate (1 := with_refreshing_snap_list
            (fun m => if bool_decide (is_Some (m !! snap_name)) then m
                      else <[snap_name := new_progress_task_data desktop_folder
                                            snap_name]> m) w).
          instantiate (1 := tt).
          destruct w as [[nt sn ch m mw] ts ns no].
          unfold with_refreshing_snap_list. cbn [self refreshing_snap_list].
          by case_bool_decide. }
      erewrite bind_eq by apply set_refreshing_snap_list_eq.
      change (with_refreshing_snap_list _ (with_refreshing_snap_list _ w))
        with w1.
      by rewrite Hrun.
    + eapply captured_trans; [|exact Hcap]. apply count_affected_captured.
Qed.

Lemma update_dock_tasks_run desktop_folder done cancelled tasks :
  forall snaps_to_remove w,
  exists snaps_to_remove' m',
    update_dock_tasks desktop_folder done cancelled tasks snaps_to_remove w
    = Some (snaps_to_remove', with_refreshing_snap_list (fun _ => m') w, [])
    /\ captured desktop_folder (refreshing_snap_list (self w)) m'.
Proof.
  induction tasks as [|task rest IH]; intros snaps_to_remove w.
  - exists snaps_to_remove, (refreshing_snap_list (self w)).
    split; [by destruct w as [[] ? ? ?] | apply captured_refl].
  - cbn [update_dock_tasks].
    destruct (task_data task) as [data|]; [|apply IH].
    destruct (affected_snaps data) as [affected|]; [|apply IH].
    destruct (update_dock_affected_run desktop_folder
                (status_is_done (task_status task)) done cancelled affected
                snaps_to_remove w) as (acc1 & m1 & Hrun1 & Hcap1).
    destruct (IH acc1 (with_refreshing_snap_list (fun _ => m1) w))
      as (acc2 & m2 & Hrun2 & Hcap2).
    exists acc2, m2. split.
    + erewrite bind_eq by exact Hrun1. by rewrite Hrun2.
    + by eapply captured_trans.
Qed.

Lemma for_each_delete_run snaps_to_remove :
  forall w,
    for_each (fun snap_name => set_refreshing_snap_list (delete snap_name))
      snaps_to_remove w
    = Some (tt,
            with_refreshing_snap_list
              (fun m => foldl (fun m snap_name => delete snap_name m) m
                          snaps_to_remove) w, []).
Proof.
  induction snaps_to_remove as [|snap_name rest IH]; intros w.
  - by destruct w as [[] ? ? ?].
  - cbn [for_each foldl].
    erewrite bind_eq by apply set_refreshing_snap_list_eq. by rewrite IH.
Qed.

Lemma captured_files_known names m m' :
  files_known m -> captured (Some names) m m' -> files_known m'.
Proof.
  intros Hknown [_ Hfiles] key p' Hp'. rewrite (Hfiles _ _ Hp').
  destruct (m !! key) as [p|] eqn:Hp; [by eapply Hknown | done].
Qed.

(** A pass over a table whose entries all have their arrays: the counting
    loops, then the emission for every entry, then the removals. *)
Lemma update_dock_snaps_run names change done cancelled w :
  files_known (refreshing_snap_list (self w)) ->
  exists snaps_to_remove counted,
    update_dock_tasks (Some names) done cancelled (change_tasks change) [] w
    = Some (snaps_to_remove, with_refreshing_snap_list (fun _ => counted) w, [])
    /\ captured (Some names) (refreshing_snap_list (self w)) counted
    /\ files_known counted
    /\ update_dock_snaps (Some names) change done cancelled w
       = Some (tt,
               with_refreshing_snap_list
                 (fun _ => foldl (fun m snap_name => delete snap_name m)
                             (spec_entry_after <$> counted) snaps_to_remove) w,
               concat (map (fun entry =>
                              spec_emission (snd entry)
                                (default [] (desktop_files (snd entry))))
                           (map_to_list counted))).
Proof.
  intros Hknown.
  destruct (update_dock_tasks_run (Some names) done cancelled
              (change_tasks change) [] w)
    as (snaps_to_remove & counted & Hcount & Hcap).
  pose proof (captured_files_known _ _ _ Hknown Hcap) as Hknown'.
  exists snaps_to_remove, counted. do 3 (split; [done|]).
  unfold update_dock_snaps. erewrite bind_eq by exact Hcount.
  erewrite bind_eq by (by apply foreach_update_dock_bar_run).
  rewrite for_each_delete_run. unfold with_refreshing_snap_list.
  cbn [self refreshing_snap_list snaps changes main_window timeouts
       next_source next_object app].
  by rewrite app_nil_r.
Qed.

(** An aggregation pass, with the applications folder readable and the
    array of desktop files present in every entry.  The pass returns.  After
    the counting loops, for each entry [p] of the table: with
    [total_tasks p = 0] the entry is left as it is and nothing is emitted
    for it; otherwise the fraction [done_tasks p / total_tasks p] is taken,
    both counters go back to zero, nothing is emitted exactly when the
    fraction equals [old_progress p] and the entry is not done (so an entry
    that is done always emits), and else the dictionary with this fraction
    and with progress-visible and updating both [negb (done p)] is emitted
    to every desktop file of the entry.  The output of the pass is the
    output for its entries, up to the order in which the table is visited,
    which GLib leaves open; the entries to remove go only after that. *)
Lemma update_dock_snaps_emission_pass
    (names : list string) (change : SnapdChange)
    (change_done change_cancelled : bool)
    (w : World) :
  files_known (refreshing_snap_list (self w)) ->
  exists snaps_to_remove counted,
    update_dock_tasks (Some names) change_done change_cancelled (change_tasks change) [] w
    = Some (snaps_to_remove, with_refreshing_snap_list (fun _ => counted) w, [])
    /\ (exists out,
          update_dock_snaps (Some names) change change_done change_cancelled w
          = Some (tt,
                  with_refreshing_snap_list
                    (fun _ => foldl (fun m snap_name => delete snap_name m)
                                (spec_entry_after <$> counted) snaps_to_remove)
                    w,
                  out)
          /\ out ≡ₚ concat (map (fun entry =>
                                   spec_emission (snd entry)
                                     (default [] (desktop_files (snd entry))))
                                (map_to_list counted)))
    /\ forall key p,
         counted !! key = Some p ->
         exists targets,
           desktop_files p = Some targets
           /\ update_dock_bar p
              = Some (spec_entry_after p, spec_emission p targets)
           /\ (total_tasks p = 0 ->
               spec_entry_after p = p /\ spec_emission p targets = [])
           /\ (total_tasks p <> 0 ->
               total_tasks (spec_entry_after p) = 0
               /\ done_tasks (spec_entry_after p) = 0
               /\ (targets <> [] ->
                   (spec_emission p targets = [] <->
                    PrimFloat.eqb (spec_fraction p) (old_progress p) = true
                    /\ done p = false))
               /\ (spec_suppressed p = false ->
                   spec_emission p targets
                   = map (fun target =>
                            LauncherEntryEmitUpdate target
                              {| progress := spec_fraction p;
                                 progress_visible := negb (done p);
                                 updating := negb (done p) |})
                         targets)).
Proof.
  intros Hknown.
  destruct (update_dock_snaps_run names change change_done change_cancelled w Hknown)
    as (snaps_to_remove & counted & Hcount & _ & Hknown' & Hpass).
  exists snaps_to_remove, counted. split; [exact Hcount|].
  split; [by eexists; split; [exact Hpass|]|].
  intros key p Hp.
  destruct (desktop_files p) as [targets|] eqn:Hfiles;
    [|by apply Hknown' in Hp].
  exists targets. split; [done|].
  split; [by apply update_dock_bar_spec|].
  unfold spec_entry_after, spec_emission. split.
  - intros ->. done.
  - intros Htotal. apply Z.eqb_neq in Htotal. rewrite Htotal.
    split; [done|]. split; [done|]. split.
    + intros Htargets. unfold spec_suppressed.
      destruct (PrimFloat.eqb (spec_fraction p) (old_progress p)),
        (done p); cbn [andb negb]; split;
        try done; try (by intros [? ?]).
      all: intros Hnil; by destruct targets.
    + by intros ->.
Qed.

Lemma update_dock_snaps_emission_pass_witness :
  exists snaps_to_remove counted,
    update_dock_tasks sample_folder false false (change_tasks change_doing) []
      initial_world
    = Some (snaps_to_remove,
            with_refreshing_snap_list (fun _ => counted) initial_world, [])
    /\ (exists out,
          update_dock_snaps sample_folder change_doing false false initial_world
          = Some (tt,
                  with_refreshing_snap_list
                    (fun _ => foldl (fun m snap_name => delete snap_name m)
                                (spec_entry_after <$> counted) snaps_to_remove)
                    initial_world,
                  out)
          /\ out ≡ₚ concat (map (fun entry =>
                                   spec_emission (snd entry)
                                     (default [] (desktop_files (snd entry))))
                                (map_to_list counted)))
    /\ forall key p,
         counted !! key = Some p ->
         exists targets,
           desktop_files p = Some targets
           /\ update_dock_bar p
              = Some (spec_entry_after p, spec_emission p targets)
           /\ (total_tasks p = 0 ->
               spec_entry_after p = p /\ spec_emission p targets = [])
           /\ (total_tasks p <> 0 ->
               total_tasks (spec_entry_after p) = 0
               /\ done_tasks (spec_entry_after p) = 0
               /\ (targets <> [] ->
                   (spec_emission p targets = [] <->
                    PrimFloat.eqb (spec_fraction p) (old_progress p) = true
                    /\ done p = false))
               /\ (spec_suppressed p = false ->
                   spec_emission p targets
                   = map (fun target =>
                            LauncherEntryEmitUpdate target
                              {| progress := spec_fraction p;
                                 progress_visible := negb (done p);
                                 updating := negb (done p) |})
                         targets)).
Proof.
  apply (update_dock_snaps_emission_pass
           ["p_p.desktop"; "q_q.desktop"; "p_notes.txt"] change_doing false false
           initial_world).
  intros key p Hp.
  change ((∅ : gmap string SnapProgressTaskData) !! key = Some p) in Hp.
  by rewrite lookup_empty in Hp.
Defined.

Lemma update_dock_bar_three_of_ten :
  update_dock_bar (sample_entry 10 3 (-1)%float false)
  = Some (sample_entry 0 0 three_tenths false,
          [LauncherEntryEmitUpdate "p_p.desktop"
             {| progress := three_tenths; progress_visible := true;
                updating := true |}])
  /\ update_dock_bar (sample_entry 10 3 three_tenths false)
     = Some (sample_entry 0 0 three_tenths false, [])
  /\ update_dock_bar (sample_entry 10 10 1%float false)
     = Some (sample_entry 0 0 1%float false, [])
  /\ update_dock_bar (sample_entry 10 10 1%float true)
     = Some (sample_entry 0 0 1%float true,
             [LauncherEntryEmitUpdate "p_p.desktop"
                {| progress := 1%float; progress_visible := false;
                   updating := false |}]).
Proof. repeat split; vm_compute; reflexivity. Qed.

(** Two fractions that differ as numbers and agree as doubles: the test
    for an unchanged fraction is the one on doubles. *)
Lemma spec_suppressed_on_doubles :
  spec_suppressed
    (sample_entry (2 ^ 32 - 1) (2 ^ 32 - 2)
       (PrimFloat.div (gdouble_of_guint (2 ^ 32 - 3))
                      (gdouble_of_guint (2 ^ 32 - 2)))
       false)
  = true.
Proof. vm_compute. reflexivity. Qed.

(** * Snaps without desktop files *)

(** An entry is created the same way whatever the lookup of its desktop
    files finds: not done, with no tasks counted.  Its done
    flag is from then on the finished-or-not of the task counted last.  For
    a snap whose lookup found the folder and no file in it, no pass emits an
    update: [update_dock_bar] returns before the emission, and in a pass
    over a table with all arrays present every update emitted comes from
    the entry of another snap, while the entry of this snap, as long as it
    is in the table, keeps its empty array. *)
Lemma no_desktop_files_no_update (snap_name : string) :
  (forall desktop_folder,
     let fresh := new_progress_task_data desktop_folder snap_name in
     done fresh = false /\ total_tasks fresh = 0 /\ done_tasks fresh = 0
     /\ desktop_files fresh
        = get_desktop_filenames_for_snap desktop_folder snap_name)
  /\ (forall task_done p,
        done (count_task task_done p) = task_done
        /\ desktop_files (count_task task_done p) = desktop_files p)
  /\ (forall p,
        desktop_files p = Some [] ->
        exists p', update_dock_bar p = Some (p', [])
                   /\ desktop_files p' = Some [] /\ done p' = done p)
  /\ (forall names change change_done change_cancelled w,
        files_known (refreshing_snap_list (self w)) ->
        match refreshing_snap_list (self w) !! snap_name with
        | Some p => desktop_files p = Some []
        | None => get_desktop_filenames_for_snap (Some names) snap_name = Some []
        end ->
        exists w' out snaps_to_remove counted,
          update_dock_tasks (Some names) change_done change_cancelled
            (change_tasks change) [] w
          = Some (snaps_to_remove,
                  with_refreshing_snap_list (fun _ => counted) w, [])
          /\ update_dock_snaps (Some names) change change_done
               change_cancelled w
             = Some (tt, w', out)
          /\ (forall e, In e out ->
                exists key p,
                  key <> snap_name /\ counted !! key = Some p
                  /\ In e (spec_emission p (default [] (desktop_files p))))
          /\ (forall p', refreshing_snap_list (self w') !! snap_name = Some p' ->
                desktop_files p' = Some [])).
Proof.
  split; [done|]. split; [done|]. split.
  { intros p Hfiles. rewrite (update_dock_bar_spec p [] Hfiles).
    eexists. split; [|split].
    - f_equal. f_equal. unfold spec_emission.
      by destruct (total_tasks p =? 0), (spec_suppressed p).
    - unfold spec_entry_after. by destruct (total_tasks p =? 0).
    - unfold spec_entry_after. by destruct (total_tasks p =? 0). }
  intros names change change_done change_cancelled w Hknown Hsnap.
  destruct (update_dock_snaps_run names change change_done change_cancelled
              w Hknown)
    as (snaps_to_remove & counted & Hcount & Hcap & Hknown' & Hpass).
  assert (forall p, counted !! snap_name = Some p -> desktop_files p = Some [])
    as Hempty.
  { intros p Hp. destruct Hcap as [_ Hfiles]. rewrite (Hfiles _ _ Hp).
    by destruct (refreshing_snap_list (self w) !! snap_name). }
  eexists _, _, snaps_to_remove, counted.
  split; [exact Hcount|]. split; [exact Hpass|]. split.
  - intros e Hin. apply in_concat in Hin as (out_p & Hout & Hin).
    apply in_map_iff in Hout as ([key p] & <- & Hentry). cbn [snd] in Hin.
    apply list_elem_of_In, elem_of_map_to_list in Hentry.
    exists key, p. split; [|by split].
    intros ->. apply Hempty in Hentry. rewrite Hentry in Hin.
    unfold spec_emission in Hin. cbn [default map] in Hin.
    by destruct (total_tasks p =? 0), (spec_suppressed p).
  - intros p'. cbn [with_refreshing_snap_list self refreshing_snap_list].
    assert (forall (l : list string) (m : gmap string SnapProgressTaskData),
              (forall p, m !! snap_name = Some p -> desktop_files p = Some []) ->
              foldl (fun m name => delete name m) m l !! snap_name = Some p' ->
              desktop_files p' = Some []) as Hdel.
    { induction l as [|name l IH]; intros m Hm; [by apply Hm|].
      cbn [foldl]. apply IH. intros p.
      destruct (decide (name = snap_name)) as [->|Hne].
      - by rewrite lookup_delete_eq.
      - rewrite lookup_delete_ne by done. apply Hm. }
    apply Hdel. intros p. rewrite lookup_fmap.
    destruct (counted !! snap_name) as [p0|] eqn:Hp0; [|done].
    intros [= <-]. unfold spec_entry_after.
    specialize (Hempty p0 eq_refl). by destruct (total_tasks p0 =? 0).
Qed.

Lemma no_desktop_files_no_update_witness :
  exists w' out snaps_to_remove counted,
    update_dock_tasks sample_folder false false (change_tasks change_z) []
      initial_world
    = Some (snaps_to_remove,
            with_refreshing_snap_list (fun _ => counted) initial_world, [])
    /\ update_dock_snaps sample_folder change_z false false initial_world
       = Some (tt, w', out)
    /\ (forall e, In e out ->
          exists key p,
            key <> "z" /\ counted !! key = Some p
            /\ In e (spec_emission p (default [] (desktop_files p))))
    /\ (forall p', refreshing_snap_list (self w') !! "z" = Some p' ->
          desktop_files p' = Some []).
Proof.
  apply (proj2 (proj2 (proj2 (no_desktop_files_no_update "z")))
           ["p_p.desktop"; "q_q.desktop"; "p_notes.txt"] change_z false false
           initial_world).
  - intros key p Hp.
    change ((∅ : gmap string SnapProgressTaskData) !! key = Some p) in Hp.
    by rewrite lookup_empty in Hp.
  - vm_compute. reflexivity.
Defined.

(** The lookup for "z" finds the folder and no file, and the entry of "z"
    is created not done; after a pass it is in the table, not done, and the
    pass has emitted the update of "p" only. *)
Lemma no_desktop_files_entry_not_terminal :
  get_desktop_filenames_for_snap sample_folder "z" = Some []
  /\ done (new_progress_task_data sample_folder "z") = false
  /\ manage_change_update sample_folder (AsyncOk change_z) initial_world
     = Some (tt,
             world_after (manage_change_update sample_folder (AsyncOk change_z))
               initial_world,
             [LauncherEntryEmitUpdate "p_p.desktop"
                (launcher_values
                   (PrimFloat.div (gdouble_of_guint 0) (gdouble_of_guint 1))
                   false)])
  /\ refreshing_snap_list
       (self (world_after (manage_change_update sample_folder (AsyncOk change_z))
                initial_world)) !! "z"
     = Some {| total_tasks := 0; done_tasks := 0;
               old_progress :=
                 PrimFloat.div (gdouble_of_guint 0) (gdouble_of_guint 1);
               done := false; desktop_files := Some [] |}.
Proof. repeat split; vm_compute; reflexivity. Qed.

(** * One dialog for a snap *)

#[global] Instance keeps_preorder (P : World -> Prop) : PreOrder (keeps P).
Proof.
  split; [intros w Hw; exact Hw|].
  intros a b c Hab Hbc Ha. by apply Hbc, Hab.
Qed.

Lemma dialogs_match_snaps_same w w' :
  dialog_view w = dialog_view w' ->
  dialogs_match_snaps w -> dialogs_match_snaps w'.
Proof.
  unfold dialog_view, dialogs_match_snaps. intros [= <- <- <-]. done.
Qed.

Lemma keeps_dialogs_keeps {A : Type} (m : M A) :
  keeps_dialogs m -> respects (keeps dialogs_match_snaps) m.
Proof.
  intros Hm w a w' out Hrun. unfold keeps.
  apply dialogs_match_snaps_same. by eapply Hm.
Qed.

Lemma keeps_dialogs_set_changes f : keeps_dialogs (set_changes f).
Proof. intros w a w' out [= _ <- _]. reflexivity. Qed.

Lemma keeps_dialogs_set_refreshing_snap_list f :
  keeps_dialogs (set_refreshing_snap_list f).
Proof. intros w a w' out [= _ <- _]. reflexivity. Qed.

Lemma keeps_dialogs_g_timeout_add_once interval data_change_id :
  keeps_dialogs (g_timeout_add_once interval data_change_id).
Proof. intros w a w' out [= _ <- _]. reflexivity. Qed.

#[local] Hint Resolve keeps_dialogs_set_changes
  keeps_dialogs_set_refreshing_snap_list keeps_dialogs_g_timeout_add_once
  : respects.

Lemma keeps_dialogs_update_dock_snaps desktop_folder change done cancelled :
  keeps_dialogs (update_dock_snaps desktop_folder change done cancelled).
Proof.
  assert (forall task_done affected acc,
    keeps_dialogs (update_dock_affected desktop_folder task_done done cancelled
                     affected acc)) as Haffected.
  { intros task_done affected.
    induction affected as [|snap_name rest IH]; intros acc; simpl;
      respects_auto. }
  assert (forall tasks acc,
    keeps_dialogs (update_dock_tasks desktop_folder done cancelled tasks acc))
    as Htasks.
  { induction tasks as [|task rest IH]; intros acc; simpl; respects_auto. }
  unfold update_dock_snaps, foreach_update_dock_bar, update_dock_bar_at.
  respects_auto.
Qed.

Lemma keeps_dialogs_notice_cb notice first_run :
  keeps_dialogs (notice_cb notice first_run).
Proof. unfold notice_cb. respects_auto. Qed.

Lemma keeps_dialogs_show_snap_completed data_snap_name res :
  keeps_dialogs (show_snap_completed data_snap_name res).
Proof. unfold show_snap_completed. respects_auto. Qed.

Lemma keeps_dialogs_refresh_change data_change_id :
  keeps_dialogs (refresh_change data_change_id).
Proof. rewrite refresh_change_eq. respects_auto. Qed.

(** Setting a flag of a record. *)
Lemma dialogs_match_snaps_alter f key w :
  (forall snap, sdi_name (f snap) = sdi_name snap
                /\ dialog (f snap) = dialog snap) ->
  dialogs_match_snaps w -> dialogs_match_snaps (with_snaps (alter f key) w).
Proof.
  intros Hf (Hname & Hids & Hold & Hbound).
  split; [|split; [done|split; [done|]]].
  - intros key' snap'. cbn [with_snaps self snaps]. rewrite lookup_alter.
    case_decide as Heq; [subst key'|by apply Hname].
    destruct (snaps (self w) !! key) as [snap|] eqn:Hsnap; [|done].
    intros [= <-]. destruct (Hf snap) as [-> _]. by apply Hname.
  - intros dlg Hin. destruct (Hbound dlg Hin) as (snap & Hsnap & Hdlg).
    cbn [with_snaps self snaps]. rewrite lookup_alter.
    case_decide as Heq.
    + exists (f snap). subst key. rewrite Hsnap. split; [done|].
      destruct (Hf snap) as [_ ->]. done.
    + by exists snap.
Qed.

(** A new record. *)
Lemma dialogs_match_snaps_insert_new name w :
  snaps (self w) !! name = None ->
  dialogs_match_snaps w ->
  dialogs_match_snaps (with_snaps (insert name (sdi_snap_new name)) w).
Proof.
  intros Hnone (Hname & Hids & Hold & Hbound).
  split; [|split; [done|split; [done|]]].
  - intros key snap. cbn [with_snaps self snaps].
    destruct (decide (name = key)) as [<-|Hne].
    + rewrite lookup_insert_eq. by intros [= <-].
    + rewrite lookup_insert_ne by done. apply Hname.
  - intros dlg Hin. destruct (Hbound dlg Hin) as (snap & Hsnap & Hdlg).
    exists snap. split; [|done]. cbn [with_snaps self snaps].
    rewrite lookup_insert_ne; [done|]. intros ->. congruence.
Qed.

Lemma keeps_dialogs_match_snaps_add_snap snap_name :
  respects (keeps dialogs_match_snaps) (add_snap snap_name).
Proof.
  intros w snap w' out Hrun Hinv.
  destruct (snaps (self w) !! snap_name) as [found|] eqn:Hfound.
  - rewrite (add_snap_found _ _ _ Hfound) in Hrun. by injection Hrun as _ <- _.
  - rewrite (add_snap_missing _ _ Hfound) in Hrun. injection Hrun as _ <- _.
    by apply dialogs_match_snaps_insert_new.
Qed.

Lemma keeps_dialogs_match_snaps_set_flag f key :
  (forall snap, sdi_name (f snap) = sdi_name snap
                /\ dialog (f snap) = dialog snap) ->
  respects (keeps dialogs_match_snaps) (set_snaps (alter f key)).
Proof.
  intros Hf w a w' out Hrun Hinv.
  assert (w' = with_snaps (alter f key) w) as ->
    by (rewrite set_snaps_eq in Hrun; congruence).
  by apply dialogs_match_snaps_alter.
Qed.

#[local] Hint Resolve keeps_dialogs_match_snaps_add_snap : respects.
#[local] Hint Extern 1 (respects (keeps dialogs_match_snaps)
                          (set_snaps (alter _ _))) =>
  apply keeps_dialogs_match_snaps_set_flag; intros ?; split; reflexivity
  : respects.

Lemma keeps_dialogs_match_snaps_ignore_snap_cb snap_name :
  respects (keeps dialogs_match_snaps)
    (sdi_refresh_monitor_ignore_snap_cb snap_name).
Proof.
  unfold sdi_refresh_monitor_ignore_snap_cb, sdi_snap_set_ignored.
  respects_auto.
Qed.

Lemma keeps_dialogs_match_snaps_manage_refresh_inhibit t_remaining t_alert
    now res :
  respects (keeps dialogs_match_snaps)
    (manage_refresh_inhibit t_remaining t_alert now res).
Proof.
  assert (Hloop : forall returned show snap_list,
    respects (keeps dialogs_match_snaps)
      (refresh_inhibit_loop t_remaining t_alert now returned show snap_list)).
  { induction returned as [|snap rest IH]; intros show snap_list; simpl;
      unfold notify_check_forced_refresh, g_signal_emit_by_name,
        sdi_snap_set_inhibited;
      respects_auto. }
  unfold manage_refresh_inhibit. respects_auto.
Qed.

Lemma gtk_box_remove_absent children dlg :
  contains_child children dlg = false -> gtk_box_remove children dlg = children.
Proof.
  unfold contains_child, gtk_box_remove.
  induction children as [|c rest IH]; [done|]. cbn [existsb List.filter].
  intros [Hc Hrest]%orb_false_iff. rewrite Hc. cbn [negb]. by rewrite IH.
Qed.

Lemma remove_dialog_run dlg w :
  exists w',
    remove_dialog dlg w = Some (tt, w', [])
    /\ snaps (self w') = snaps (self w)
    /\ next_object w' = next_object w
    /\ window_children w'
       = match dlg with
         | Some dlg => gtk_box_remove (window_children w) dlg
         | None => window_children w
         end.
Proof.
  unfold remove_dialog, window_children.
  destruct dlg as [dlg|]; [|by exists w].
  erewrite bind_eq by reflexivity.
  destruct (main_window (self w)) as [children|] eqn:Hwindow;
    [|exists w; by rewrite Hwindow].
  destruct (contains_child children dlg) eqn:Hcontains; cbn [negb].
  - destruct (gtk_box_remove children dlg) as [|c rest] eqn:Hrest;
      eexists; (split; [reflexivity|]); by rewrite ?Hrest.
  - exists w. rewrite Hwindow. by rewrite gtk_box_remove_absent.
Qed.

Lemma NoDup_map_filter {A B : Type} (f : A -> B) (keep : A -> bool) l :
  NoDup (map f l) -> NoDup (map f (List.filter keep l)).
Proof.
  induction l as [|x l IH]; [done|]. cbn [map List.filter].
  intros [Hx Hl]%NoDup_cons. destruct (keep x); [|by apply IH].
  cbn [map]. apply NoDup_cons. split; [|by apply IH].
  intros Hin. apply Hx. apply list_elem_of_In, in_map_iff in Hin
    as (y & Hy & Hin). apply filter_In in Hin as [Hin _].
  apply list_elem_of_In, in_map_iff. by exists y.
Qed.

(** The record under [key] gives up its dialog, or goes altogether, and
    the dialog leaves the window. *)
Lemma dialogs_match_snaps_unbind w w' key snap :
  dialogs_match_snaps w ->
  snaps (self w) !! key = Some snap ->
  (forall key', key' <> key ->
     snaps (self w') !! key' = snaps (self w) !! key') ->
  (forall snap', snaps (self w') !! key = Some snap' -> sdi_name snap' = key) ->
  next_object w' = next_object w ->
  window_children w'
  = match dialog snap with
    | Some dlg => gtk_box_remove (window_children w) dlg
    | None => window_children w
    end ->
  dialogs_match_snaps w'.
Proof.
  intros (Hname & Hids & Hold & Hbound) Hsnap Hothers Hkey Hnext Hwindow.
  assert (forall dlg', In dlg' (window_children w') ->
            In dlg' (window_children w) /\ app_name dlg' <> key) as Hleft.
  { intros dlg' Hin. rewrite Hwindow in Hin.
    destruct (dialog snap) as [dlg|] eqn:Hdlg.
    - apply filter_In in Hin as [Hin Hother]. split; [done|].
      intros Heq. destruct (Hbound dlg' Hin) as (snap' & Hsnap' & Hdlg').
      rewrite Heq, Hsnap in Hsnap'. injection Hsnap' as <-.
      rewrite Hdlg in Hdlg'. injection Hdlg' as <-.
      unfold same_widget in Hother. by rewrite Nat.eqb_refl in Hother.
    - split; [done|]. intros Heq.
      destruct (Hbound dlg' Hin) as (snap' & Hsnap' & Hdlg').
      rewrite Heq, Hsnap in Hsnap'. injection Hsnap' as <-. congruence. }
  split; [|split; [|split]].
  - intros key' snap'. destruct (decide (key' = key)) as [->|Hne];
      [apply Hkey|]. rewrite Hothers by done. apply Hname.
  - rewrite Hwindow. destruct (dialog snap); [|done].
    by apply NoDup_map_filter.
  - rewrite Hnext. rewrite List.Forall_forall in *.
    intros dlg' [Hin _]%Hleft. by apply Hold.
  - intros dlg' [Hin Hother]%Hleft.
    destruct (Hbound dlg' Hin) as (snap' & Hsnap' & Hdlg').
    exists snap'. by rewrite Hothers.
Qed.

(** A new dialog is put in the window and bound to the record under its
    name, which had none. *)
Lemma dialogs_match_snaps_bind w w' key snap dlg :
  dialogs_match_snaps w ->
  snaps (self w) !! key = Some snap ->
  dialog snap = None ->
  dialog_id dlg = next_object w ->
  app_name dlg = key ->
  snaps (self w') = alter (with_dialog (Some dlg)) key (snaps (self w)) ->
  window_children w' = window_children w ++ [dlg] ->
  next_object w' = S (next_object w) ->
  dialogs_match_snaps w'.
Proof.
  intros (Hname & Hids & Hold & Hbound) Hsnap Hnone Hid Happ Hsnaps Hwindow
    Hnext.
  unfold dialogs_match_snaps. rewrite Hsnaps, Hwindow, Hnext.
  split; [|split; [|split]].
  - intros key' snap'. rewrite lookup_alter. case_decide as Heq.
    + subst key'. rewrite Hsnap. intros [= <-]. cbn. by apply Hname.
    + apply Hname.
  - rewrite map_app. apply NoDup_app. split; [done|]. split.
    + intros id Hin [Hid'|[]]%list_elem_of_In. cbn [map] in Hid'.
      apply list_elem_of_In, in_map_iff in Hin as (dlg' & Hdlg' & Hin).
      rewrite List.Forall_forall in Hold. specialize (Hold _ Hin). lia.
    + apply NoDup_singleton.
  - apply Forall_app. split.
    + eapply Forall_impl; [exact Hold|]. intros dlg' Hlt. cbn beta in *. lia.
    + constructor; [lia|constructor].
  - intros dlg' [Hin|[<-|[]]]%in_app_iff.
    + destruct (Hbound dlg' Hin) as (snap' & Hsnap' & Hdlg').
      exists snap'. rewrite lookup_alter. case_decide as Heq; [|done].
      rewrite <- Heq in Hsnap'. congruence.
    + exists (with_dialog (Some dlg) snap). rewrite Happ, lookup_alter.
      rewrite decide_True by done. by rewrite Hsnap.
Qed.

Lemma find_snap_eq snap_name w :
  find_snap snap_name w = Some (snaps (self w) !! snap_name, w, []).
Proof. reflexivity. Qed.

Lemma remove_snap_keeps key snap w w' out :
  dialogs_match_snaps w ->
  snaps (self w) !! key = Some snap ->
  remove_snap (Some snap) w = Some (tt, w', out) ->
  dialogs_match_snaps w'.
Proof.
  intros Hinv Hsnap Hrun. unfold remove_snap in Hrun.
  destruct (remove_dialog_run (dialog snap) w)
    as (w1 & Hdialog & Hsnaps & Hnext & Hwindow).
  erewrite bind_eq in Hrun by exact Hdialog.
  rewrite set_snaps_eq in Hrun. injection Hrun as <- _.
  assert (sdi_name snap = key) as -> by (by apply Hinv).
  apply (dialogs_match_snaps_unbind w _ key snap); try done.
  - intros key' Hne. cbn [with_snaps self snaps].
    rewrite lookup_delete_ne by done. by rewrite Hsnaps.
  - intros snap'. cbn [with_snaps self snaps]. by rewrite lookup_delete_eq.
Qed.

(** Close the goal [P w'] from a run of a handler that keeps [P]. *)
Ltac by_respects :=
  match goal with
  | Hrun : ?m ?w = Some (_, ?w', _), Hinv : ?P ?w |- ?P ?w' =>
      let Hresp := fresh "Hresp" in
      assert (respects (keeps P) m) as Hresp by respects_auto;
      exact (Hresp _ _ _ _ Hrun Hinv)
  end.

Lemma keeps_dialogs_match_snaps_update_inhibited_snaps change done cancelled :
  respects (keeps dialogs_match_snaps)
    (update_inhibited_snaps change done cancelled).
Proof.
  unfold update_inhibited_snaps.
  destruct (change_data change) as [snap_names|];
    [|apply respects_ret; apply _].
  apply respects_for_each; [apply _|]. intros snap_name w a w' out Hrun Hinv.
  unfold update_inhibited_snap in Hrun.
  apply bind_Some in Hrun as (found & w0 & o1 & o2 & Hfind & Hrun & _).
  rewrite find_snap_eq in Hfind. injection Hfind as <- <- _.
  destruct (snaps (self w) !! snap_name) as [snap|] eqn:Hsnap; [|by_respects].
  destruct (negb (inhibited snap)); [by_respects|].
  destruct (done || cancelled).
  { apply bind_Some in Hrun as ([] & w1 & o3 & o4 & Hremove & Hrun & _).
    assert (dialogs_match_snaps w1) as Hinv1 by (by eapply remove_snap_keeps).
    clear Hinv Hremove. by_respects. }
  destruct (hidden snap || manually_hidden snap); [by_respects|].
  destruct (dialog snap) as [dlg|].
  - destruct (scan_tasks _ _ _) as [done_count [task|]]; by_respects.
  - unfold sdi_snap_set_ignored in Hrun. by_respects.
Qed.

Lemma keeps_dialogs_match_snaps_manage_change_update desktop_folder res :
  respects (keeps dialogs_match_snaps) (manage_change_update desktop_folder res).
Proof.
  pose proof keeps_dialogs_match_snaps_update_inhibited_snaps as Hinhibited.
  pose proof (fun change done cancelled =>
    keeps_dialogs_keeps _
      (keeps_dialogs_update_dock_snaps desktop_folder change done cancelled))
    as Hdock.
  pose proof (fun interval id =>
    keeps_dialogs_keeps _ (keeps_dialogs_g_timeout_add_once interval id))
    as Htimeout.
  pose proof (fun f => keeps_dialogs_keeps _ (keeps_dialogs_set_changes f))
    as Hchanges.
  unfold manage_change_update. respects_auto.
Qed.

Lemma close_dialog_cb_keeps dlg w w' out :
  dialogs_match_snaps w ->
  In dlg (window_children w) ->
  close_dialog_cb dlg w = Some (tt, w', out) ->
  dialogs_match_snaps w'.
Proof.
  intros Hinv Hin Hrun.
  destruct Hinv as (Hname & Hids & Hold & Hbound).
  destruct (Hbound dlg Hin) as (snap & Hsnap & Hdlg).
  pose proof (Hname _ _ Hsnap) as Hkey.
  unfold close_dialog_cb in Hrun.
  erewrite bind_eq in Hrun by apply find_snap_eq. rewrite Hsnap in Hrun.
  unfold sdi_snap_set_manually_hidden, sdi_snap_set_dialog in Hrun.
  erewrite bind_eq in Hrun by apply set_snaps_eq. rewrite Hkey in Hrun.
  set (w1 := with_snaps _ w) in Hrun.
  destruct (remove_dialog_run (Some dlg) w1)
    as (w2 & Hdialog & Hsnaps & Hnext & Hwindow).
  erewrite bind_eq in Hrun by exact Hdialog.
  rewrite set_snaps_eq in Hrun. injection Hrun as <- _.
  apply (dialogs_match_snaps_unbind w _ (app_name dlg) snap); try done.
  - intros key' Hne. cbn [with_snaps self snaps]. rewrite Hsnaps.
    subst w1. cbn [with_snaps self snaps]. by rewrite !lookup_alter_ne.
  - intros snap'. cbn [with_snaps self snaps]. rewrite Hsnaps.
    subst w1. cbn [with_snaps self snaps]. rewrite !lookup_alter_eq, Hsnap.
    intros [= <-]. exact Hkey.
  - by rewrite Hdlg.
Qed.

Lemma add_snap_run snap_name w :
  exists sdi_snap w1,
    add_snap snap_name w = Some (sdi_snap, w1, [])
    /\ snaps (self w1) !! snap_name = Some sdi_snap
    /\ (dialogs_match_snaps w -> dialogs_match_snaps w1).
Proof.
  destruct (snaps (self w) !! snap_name) as [found|] eqn:Hfound.
  - exists found, w. by rewrite (add_snap_found _ _ _ Hfound).
  - eexists _, _. rewrite (add_snap_missing _ _ Hfound).
    split; [reflexivity|]. split.
    + cbn [with_snaps self snaps]. by rewrite lookup_insert_eq.
    + by apply dialogs_match_snaps_insert_new.
Qed.

(** The tail of [begin_application_refresh] for a record without a dialog;
    [decorate] is the setting of the icon, or nothing. *)
Lemma bind_new_dialog_keeps name visible sdi_snap
    (decorate : SdiRefreshDialog -> SdiRefreshDialog) w w' out :
  (forall dlg, dialog_id (decorate dlg) = dialog_id dlg
               /\ app_name (decorate dlg) = app_name dlg) ->
  dialogs_match_snaps w ->
  snaps (self w) !! name = Some sdi_snap ->
  dialog sdi_snap = None ->
  (dlg ← sdi_refresh_dialog_new name visible;
   add_dialog_to_main_window (decorate dlg);;
   sdi_snap_set_dialog sdi_snap (Some (decorate dlg))) w
  = Some (tt, w', out) ->
  dialogs_match_snaps w'.
Proof.
  intros Hdecorate Hinv Hsnap Hnone Hrun.
  assert (sdi_name sdi_snap = name) as Hkey by (by apply Hinv).
  set (dlg := decorate {| dialog_id := next_object w; app_name := name;
                          visible_name := visible; icon_image := None |}).
  destruct (Hdecorate {| dialog_id := next_object w; app_name := name;
                         visible_name := visible; icon_image := None |})
    as [Hid Happ]. fold dlg in Hid, Happ. cbn in Hid, Happ.
  unfold sdi_refresh_dialog_new, add_dialog_to_main_window,
    sdi_snap_set_dialog, new_object in Hrun.
  rewrite Hkey in Hrun.
  unfold mbind, M_bind, bind, mret, M_ret, ret, get_self, put_self in Hrun.
  cbn in Hrun. fold dlg in Hrun.
  apply (dialogs_match_snaps_bind w w' name sdi_snap dlg); try done.
  - destruct (main_window (self w)); by injection Hrun as <- _.
  - unfold window_children.
    destruct (main_window (self w)); by injection Hrun as <- _.
  - destruct (main_window (self w)); by injection Hrun as <- _.
Qed.

Lemma begin_application_refresh_keeps data_snap_name res :
  respects (keeps dialogs_match_snaps)
    (begin_application_refresh data_snap_name res).
Proof.
  intros w a w' out Hrun Hinv. unfold begin_application_refresh in Hrun.
  assert (forall name visible decorate out,
    (forall dlg, dialog_id (decorate dlg) = dialog_id dlg
                 /\ app_name (decorate dlg) = app_name dlg) ->
    (sdi_snap ← add_snap name;
     match dialog sdi_snap with
     | Some _ => mret tt
     | None =>
         dlg ← sdi_refresh_dialog_new name visible;
         add_dialog_to_main_window (decorate dlg);;
         sdi_snap_set_dialog sdi_snap (Some (decorate dlg))
     end) w = Some (a, w', out) ->
    dialogs_match_snaps w') as Hcreate.
  { clear Hrun out. intros name visible decorate out Hdecorate Hcreate.
    destruct (add_snap_run name w) as (sdi_snap & w1 & Hadd & Hsnap & Hinv1).
    apply bind_Some in Hcreate as (s & w0 & o1 & o2 & Hadd' & Hcreate & _).
    rewrite Hadd in Hadd'. injection Hadd' as <- <- _.
    destruct (dialog sdi_snap) as [dlg|] eqn:Hdlg.
    - apply ret_Some in Hcreate as (_ & -> & _). by apply Hinv1.
    - destruct a.
      exact (bind_new_dialog_keeps name visible sdi_snap decorate w1 w' o2
               Hdecorate (Hinv1 Hinv) Hsnap Hdlg Hcreate). }
  destruct res as [snap| |[] message].
  - destruct (snap_name snap) as [name|]; [|done].
    apply bind_Some in Hrun as (n & w0 & o1 & o2 & Hname & Hrun & _).
    apply ret_Some in Hname as (-> & -> & _).
    apply (Hcreate name
             (match snap_app_info snap with
              | Some app_info => default name (display_name app_info)
              | None => name
              end)
             (fun dlg =>
                match match snap_app_info snap with
                      | Some app_info => app_icon app_info
                      | None => None
                      end with
                | Some icon => sdi_refresh_dialog_set_icon_image dlg icon
                | None => dlg
                end) o2).
    + intros dlg. by destruct (snap_app_info snap) as [[? [icon|]]|].
    + exact Hrun.
  - by apply (Hcreate data_snap_name data_snap_name (fun dlg => dlg) out).
  - by apply ret_Some in Hrun as (_ & -> & _).
  - by apply (Hcreate data_snap_name data_snap_name (fun dlg => dlg) out).
Qed.

Lemma dialogs_match_snaps_initial : dialogs_match_snaps initial_world.
Proof.
  split; [|split; [constructor|split; [constructor|]]].
  - intros key snap. cbn. by rewrite lookup_empty.
  - intros dlg [].
Qed.

Lemma dialogs_of_at_most_one name w :
  dialogs_match_snaps w -> (length (dialogs_of name w) <= 1)%nat.
Proof.
  intros (_ & Hids & _ & Hbound). unfold dialogs_of.
  assert (forall a b, In a (window_children w) -> In b (window_children w) ->
            app_name a = name -> app_name b = name -> a = b) as Hsame.
  { intros a b Ha Hb Hna Hnb.
    destruct (Hbound a Ha) as (sa & Hsa & Hda).
    destruct (Hbound b Hb) as (sb & Hsb & Hdb). congruence. }
  clear Hbound. induction (window_children w) as [|dlg rest IH]; [cbn; lia|].
  cbn [map] in Hids. apply NoDup_cons in Hids as [Hdlg Hrest].
  cbn [List.filter]. destruct (String.eqb (app_name dlg) name) eqn:Hname.
  - apply String.eqb_eq in Hname.
    destruct (List.filter _ rest) as [|other more] eqn:Hfilter; [cbn; lia|].
    exfalso. assert (In other (List.filter
      (fun dlg => String.eqb (app_name dlg) name) rest)) as Hin
      by (rewrite Hfilter; by left).
    apply filter_In in Hin as [Hin Hother]. apply String.eqb_eq in Hother.
    assert (other = dlg) as -> by (apply Hsame; [by right | by left | done..]).
    apply Hdlg. apply list_elem_of_In, in_map_iff. by exists dlg.
  - apply IH; [done|]. intros a b Ha Hb. apply Hsame; by right.
Qed.

Section OneDialog.

Variable TIME_TO_SHOW_REMAINING_TIME_BEFORE_FORCED_REFRESH : Z.
Variable TIME_TO_SHOW_ALERT_BEFORE_FORCED_REFRESH : Z.

Let step := step TIME_TO_SHOW_REMAINING_TIME_BEFORE_FORCED_REFRESH
              TIME_TO_SHOW_ALERT_BEFORE_FORCED_REFRESH.
Let reachable := reachable TIME_TO_SHOW_REMAINING_TIME_BEFORE_FORCED_REFRESH
                   TIME_TO_SHOW_ALERT_BEFORE_FORCED_REFRESH.

Lemma step_dialogs_match_snaps w w' :
  step w w' -> dialogs_match_snaps w -> dialogs_match_snaps w'.
Proof.
  intros Hstep Hinv.
  destruct Hstep as [notice first_run w w' out H
                    |desktop_folder res w w' out H
                    |source_id data_change_id w w' out Hin H
                    |now res w w' out H
                    |data_snap_name res w w' out H
                    |data_snap_name res w w' out H
                    |dlg w w' out Hdlg H
                    |snap_name w w' out H].
  - eapply dialogs_match_snaps_same; [|exact Hinv].
    by eapply keeps_dialogs_notice_cb.
  - by eapply keeps_dialogs_match_snaps_manage_change_update.
  - eapply dialogs_match_snaps_same; [|exact Hinv].
    by eapply (keeps_dialogs_refresh_change _ (remove_source source_id w)).
  - by eapply keeps_dialogs_match_snaps_manage_refresh_inhibit.
  - by eapply begin_application_refresh_keeps.
  - eapply dialogs_match_snaps_same; [|exact Hinv].
    by eapply keeps_dialogs_show_snap_completed.
  - by eapply close_dialog_cb_keeps.
  - by eapply keeps_dialogs_match_snaps_ignore_snap_cb.
Qed.

Lemma reachable_dialogs_match_snaps w :
  reachable w -> dialogs_match_snaps w.
Proof.
  intros Hreach. refine (rtc_ind_r _ initial_world _ _ w Hreach).
  - apply dialogs_match_snaps_initial.
  - intros y z _ Hstep IH. by eapply step_dialogs_match_snaps.
Qed.

(** C3: in every world the process can reach, the window holds at most one
    dialog made for a given snap, and that dialog is the one bound to the
    record of the snap.  When the snap query of [begin_application_refresh]
    completes, with a snap or with an error that is not a cancellation,
    while the record of that snap already has a dialog bound, the callback
    returns with the world as it was: it creates no dialog object, adds none
    to the window and binds none. *)
Theorem one_dialog_per_snap (w : World) :
  reachable w ->
  (forall name, (length (dialogs_of name w) <= 1)%nat)
  /\ (forall dlg, In dlg (window_children w) ->
        exists snap,
          snaps (self w) !! app_name dlg = Some snap
          /\ dialog snap = Some dlg)
  /\ (forall data_snap_name res name sdi_snap dlg,
        queried_snap_name data_snap_name res = Some name ->
        snaps (self w) !! name = Some sdi_snap ->
        dialog sdi_snap = Some dlg ->
        begin_application_refresh data_snap_name res w = Some (tt, w, [])).
Proof.
  intros Hinv%reachable_dialogs_match_snaps. split; [|split].
  - intros name. by apply dialogs_of_at_most_one.
  - apply Hinv.
  - intros data_snap_name res name sdi_snap dlg.
    apply begin_application_refresh_bound_noop.
Qed.

End OneDialog.

Lemma dialog_world_reachable t_remaining t_alert :
  reachable t_remaining t_alert dialog_world.
Proof.
  eapply rtc_l; [|apply rtc_refl].
  eapply (step_begin_application_refresh _ _ "p" (AsyncOk (sample_snap "p"))
            initial_world dialog_world []).
  vm_compute. reflexivity.
Qed.

Lemma one_dialog_per_snap_witness :
  (forall name, (length (dialogs_of name dialog_world) <= 1)%nat)
  /\ (forall dlg, In dlg (window_children dialog_world) ->
        exists snap,
          snaps (self dialog_world) !! app_name dlg = Some snap
          /\ dialog snap = Some dlg)
  /\ (forall data_snap_name res name sdi_snap dlg,
        queried_snap_name data_snap_name res = Some name ->
        snaps (self dialog_world) !! name = Some sdi_snap ->
        dialog sdi_snap = Some dlg ->
        begin_application_refresh data_snap_name res dialog_world
        = Some (tt, dialog_world, [])).
Proof.
  apply (one_dialog_per_snap 0 0 dialog_world).
  apply dialog_world_reachable.
Defined.

(** A second completion for "p", with a snap or with an error, finds the
    dialog and changes nothing. *)
Lemma begin_application_refresh_twice :
  begin_application_refresh "p" (AsyncOk (sample_snap "p")) dialog_world
  = Some (tt, dialog_world, [])
  /\ begin_application_refresh "p" (AsyncError false "no such snap") dialog_world
     = Some (tt, dialog_world, [])
  /\ dialogs_of "p" dialog_world = [sample_dialog].
Proof. repeat split; vm_compute; reflexivity. Qed.

(** * Handlers that always return *)

Lemma returns_keeping_ret {A : Type} (a : A) : returns_keeping (mret a : M A).
Proof. intros w. by exists a, w, []. Qed.

Lemma returns_keeping_emit e : returns_keeping (emit e).
Proof. intros w. by exists tt, w, [e]. Qed.

Lemma returns_keeping_get_self : returns_keeping get_self.
Proof. intros w. by exists (self w), w, []. Qed.

Lemma returns_keeping_set_snaps f : returns_keeping (set_snaps f).
Proof. intros w. by eexists _, _, _. Qed.

Lemma returns_keeping_set_main_window v : returns_keeping (set_main_window v).
Proof. intros w. by eexists _, _, _. Qed.

Lemma returns_keeping_bind {A B : Type} (m : M A) (k : A -> M B) :
  returns_keeping m -> (forall a, returns_keeping (k a)) ->
  returns_keeping (m ≫= k).
Proof.
  intros Hm Hk w. destruct (Hm w) as (a & w1 & o1 & Hrun1 & Hsame1).
  destruct (Hk a w1) as (b & w2 & o2 & Hrun2 & Hsame2).
  exists b, w2, (o1 ++ o2). erewrite bind_eq by exact Hrun1.
  rewrite Hrun2. split; [done | congruence].
Qed.

Lemma returns_keeping_for_each {A : Type} (body : A -> M unit) (l : list A) :
  (forall x, returns_keeping (body x)) -> returns_keeping (for_each body l).
Proof.
  intros Hbody. induction l as [|x l IH]; cbn [for_each].
  - apply returns_keeping_ret.
  - apply returns_keeping_bind; [apply Hbody | intros _; apply IH].
Qed.

Ltac returns_step :=
  match goal with
  | |- returns_keeping (mret _) => apply returns_keeping_ret
  | |- returns_keeping (_ ≫= _) => apply returns_keeping_bind; [|intros ?]
  | |- returns_keeping (emit _) => apply returns_keeping_emit
  | |- returns_keeping get_self => apply returns_keeping_get_self
  | |- returns_keeping (set_snaps _) => apply returns_keeping_set_snaps
  | |- returns_keeping (set_main_window _) =>
      apply returns_keeping_set_main_window
  | |- returns_keeping (for_each _ _) =>
      apply returns_keeping_for_each; intros ?
  | |- returns_keeping (match ?x with _ => _ end) => destruct x
  end.

Lemma returns_keeping_update_inhibited_snaps change done cancelled :
  returns_keeping (update_inhibited_snaps change done cancelled).
Proof.
  unfold update_inhibited_snaps, update_inhibited_snap, find_snap, remove_snap,
    remove_dialog, sdi_snap_set_ignored.
  repeat returns_step.
Qed.

Lemma files_known_foldl_delete (l : list string)
    (m : gmap string SnapProgressTaskData) :
  files_known m ->
  files_known (foldl (fun m snap_name => delete snap_name m) m l).
Proof.
  revert m. induction l as [|name rest IH]; intros m Hm; [done|].
  cbn [foldl]. refine (IH _ _). intros key p Hp.
  apply lookup_delete_Some in Hp as [_ Hp]. by eapply Hm.
Qed.

(** With the applications folder readable and every entry of the progress
    table holding its array, [manage_change_update] returns, whatever the
    fetch brought, and the table is again one with every array present. *)
Lemma manage_change_update_returns names res w :
  files_known (refreshing_snap_list (self w)) ->
  exists w' out,
    manage_change_update (Some names) res w = Some (tt, w', out)
    /\ files_known (refreshing_snap_list (self w')).
Proof.
  intros Hknown. unfold manage_change_update.
  destruct res as [change| |[] message]; try (by eexists _, _).
  destruct (negb _); [by eexists _, _|].
  set (status_done := g_str_equal (change_status change) "Done").
  set (cancelled := cancelled_change_status (change_status change)).
  assert (exists w1 o1,
    (if g_str_equal (change_kind change) "auto-refresh"
     then update_inhibited_snaps change status_done cancelled
     else mret tt) w = Some (tt, w1, o1)
    /\ refreshing_snap_list (self w1) = refreshing_snap_list (self w))
    as (w1 & o1 & Hrun1 & Hsame1).
  { destruct (g_str_equal (change_kind change) "auto-refresh");
      [|by exists w, []].
    destruct (returns_keeping_update_inhibited_snaps change status_done
                cancelled w) as ([] & w1 & o1 & Hrun & Hsame). eauto. }
  erewrite bind_eq by exact Hrun1.
  rewrite <- Hsame1 in Hknown.
  destruct (update_dock_snaps_run names change status_done cancelled w1 Hknown)
    as (snaps_to_remove & counted & _ & _ & Hknown' & Hpass).
  erewrite bind_eq by exact Hpass. erewrite bind_eq by reflexivity.
  assert (files_known
            (foldl (fun m snap_name => delete snap_name m)
               (spec_entry_after <$> counted) snaps_to_remove)) as Hknown''.
  { assert (files_known (spec_entry_after <$> counted)) as Hafter.
    { intros key p. rewrite lookup_fmap.
      destruct (counted !! key) as [p0|] eqn:Hp0; [|done]. intros [= <-].
      apply Hknown' in Hp0. unfold spec_entry_after.
      by destruct (total_tasks p0 =? 0). }
    by apply files_known_foldl_delete. }
  destruct (_ && _); by eexists _, _.
Qed.

(** * Changes that are done or cancelled *)




(** * More on the poll scheduler *)

Lemma arms_poll_timer_running change w :
  arms_poll_timer change w
  = running_change_status (change_status change)
    && negb (bool_decide (is_Some (changes (self w) !! change_id change))).
Proof.
  unfold arms_poll_timer, running_change_status. f_equal.
  unfold valid_working_change_status, cancelled_change_status.
  destruct (g_str_equal (change_status change) "Do") eqn:Hdo.
  { apply g_str_equal_eq in Hdo. by rewrite Hdo. }
  destruct (g_str_equal (change_status change) "Doing") eqn:Hdoing.
  { apply g_str_equal_eq in Hdoing. by rewrite Hdoing. }
  cbn [orb].
  destruct (g_str_equal (change_status change) "Done"); [done|].
  cbn [orb negb andb].
  by destruct (_ || _).
Qed.

(** X1: a fetched change arms a poll timer exactly when its status is "Do" or
    "Doing" and the change is not tracked; the timer is then the newest
    source of the main loop, for this change, and its id is what [changes]
    holds for the change.  Every other status ("Done", the cancelled ones,
    "Undoing" among them, and the unknown ones) leaves timers and tracked
    changes as they are.  The handler does return whenever the applications
    folder is readable and the entries of the progress table hold their
    arrays. *)
Theorem manage_change_update_arms_when_running
    (desktop_folder : option (list string)) (change : SnapdChange) (w : World) :
  (forall w' out,
     manage_change_update desktop_folder (AsyncOk change) w
       = Some (tt, w', out) ->
     if running_change_status (change_status change)
        && negb (bool_decide (is_Some (changes (self w) !! change_id change)))
     then timeouts w' = timeouts w ++ [(next_source w, change_id change)]
          /\ changes (self w')
             = <[change_id change := next_source w]> (changes (self w))
          /\ next_source w' = S (next_source w)
     else timeouts w' = timeouts w /\ changes (self w') = changes (self w)
          /\ next_source w' = next_source w)
  /\ (forall names,
        desktop_folder = Some names ->
        files_known (refreshing_snap_list (self w)) ->
        exists w' out,
          manage_change_update desktop_folder (AsyncOk change) w
          = Some (tt, w', out)).
Proof.
  split.
  - intros w' out Hrun%manage_change_update_scheduler.
    rewrite arms_poll_timer_running in Hrun.
    destruct (_ && _); by injection Hrun as -> -> ->.
  - intros names -> Hknown.
    destruct (manage_change_update_returns names (AsyncOk change) w Hknown)
      as (w' & out & Hrun & _). eauto.
Qed.

(** The first update of change "42", found running, arms timer 1. *)
Lemma polled_world_armed :
  timeouts polled_world = timeouts initial_world ++ [(1%nat, "42")]
  /\ changes (self polled_world)
     = <["42" := 1%nat]> (changes (self initial_world))
  /\ next_source polled_world = 2%nat.
Proof. vm_compute. done. Qed.

(** A fetch that brought no change, because it failed, was cancelled or
    gave NULL, leaves the world as it is, whatever the state of the
    applications folder: nothing is queried and no timer is armed.  Only
    an error that is not a cancellation is printed. *)
Lemma manage_change_update_without_change
    (desktop_folder : option (list string)) (cancelled : bool)
    (message : string) (w : World) :
  manage_change_update desktop_folder AsyncNull w = Some (tt, w, [])
  /\ manage_change_update desktop_folder (AsyncError cancelled message) w
     = Some (tt, w,
             if cancelled then []
             else [GPrint ("Error in manage_change_update: " +:+ message)]).
Proof. split; [done|]. by destruct cancelled. Qed.

Section PollCycle.

Variable TIME_TO_SHOW_REMAINING_TIME_BEFORE_FORCED_REFRESH : Z.
Variable TIME_TO_SHOW_ALERT_BEFORE_FORCED_REFRESH : Z.

Let reachable := reachable TIME_TO_SHOW_REMAINING_TIME_BEFORE_FORCED_REFRESH
                   TIME_TO_SHOW_ALERT_BEFORE_FORCED_REFRESH.

(** X2: one round of polling.  In a world the process can reach, the timer of
    a change fires and the fetch it starts brings the change back.  When
    the change is still running ("Do", "Doing") it has exactly one timer
    again, a new one, and is tracked under that timer; with any other
    status that the handler accepts or drops, the change has no timer left
    and is no longer tracked.  The handler does return whenever the
    applications folder is readable and the entries of the progress table
    hold their arrays. *)
Theorem poll_round (w : World) (source_id : nat) (change : SnapdChange)
    (desktop_folder : option (list string)) :
  reachable w ->
  In (source_id, change_id change) (timeouts w) ->
  (forall w' out,
     manage_change_update desktop_folder (AsyncOk change)
       (world_after (refresh_change (change_id change))
          (remove_source source_id w))
     = Some (tt, w', out) ->
     if running_change_status (change_status change)
     then poll_timers (change_id change) w'
          = [(next_source w, change_id change)]
          /\ changes (self w') !! change_id change = Some (next_source w)
     else poll_timers (change_id change) w' = []
          /\ changes (self w') !! change_id change = None)
  /\ (forall names,
        desktop_folder = Some names ->
        files_known (refreshing_snap_list (self w)) ->
        exists w' out,
          manage_change_update desktop_folder (AsyncOk change)
            (world_after (refresh_change (change_id change))
               (remove_source source_id w))
          = Some (tt, w', out)).
Proof.
  intros Hinv%reachable_timers_match_changes Hin.
  set (w1 := world_after (refresh_change (change_id change))
               (remove_source source_id w)) in *.
  split.
  2:{ intros names -> Hknown.
      destruct (manage_change_update_returns names (AsyncOk change) w1 Hknown)
        as (w' & out & Hrun & _). eauto. }
  intros w' out Hrun.
  assert (timers_match_changes w1) as Hinv1.
  { eapply timers_match_changes_fire; [exact Hinv | exact Hin | reflexivity]. }
  assert (changes (self w1) !! change_id change = None) as Hgone
    by apply lookup_delete_eq.
  assert (poll_timers (change_id change) w1 = []) as Hnone.
  { unfold poll_timers.
    destruct (List.filter _ (timeouts w1)) as [|[id cid] rest] eqn:Hp; [done|].
    exfalso.
    match type of Hp with ?l = _ =>
      assert (In (id, cid) l) as Hin' by (rewrite Hp; by left) end.
    apply filter_In in Hin' as [Hin' Hcid]. apply String.eqb_eq in Hcid.
    cbn [snd] in Hcid. subst cid.
    destruct Hinv1 as (_ & _ & Hmatch). apply Hmatch in Hin'. congruence. }
  apply manage_change_update_scheduler in Hrun.
  rewrite arms_poll_timer_running in Hrun.
  rewrite Hgone in Hrun.
  rewrite (bool_decide_eq_false_2 (is_Some None)) in Hrun
    by (by intros [? ?]).
  rewrite andb_true_r in Hrun.
  destruct (running_change_status (change_status change)).
  - injection Hrun as Hc Ht _. split.
    + unfold poll_timers in *. rewrite Ht, List.filter_app.
      change (List.filter _ (timeouts w)) with (timeouts w1).
      rewrite Hnone. cbn. by rewrite String.eqb_refl.
    + rewrite Hc. by rewrite lookup_insert_eq.
  - injection Hrun as Hc Ht _. split.
    + unfold poll_timers in *. rewrite Ht. exact Hnone.
    + rewrite Hc. exact Hgone.
Qed.

End PollCycle.

Lemma poll_round_witness :
  (forall w' out,
     manage_change_update sample_folder (AsyncOk change_done)
       (world_after (refresh_change (change_id change_done))
          (remove_source 1 polled_world))
     = Some (tt, w', out) ->
     if running_change_status (change_status change_done)
     then poll_timers (change_id change_done) w'
          = [(next_source polled_world, change_id change_done)]
          /\ changes (self w') !! change_id change_done
             = Some (next_source polled_world)
     else poll_timers (change_id change_done) w' = []
          /\ changes (self w') !! change_id change_done = None)
  /\ (forall names,
        sample_folder = Some names ->
        files_known (refreshing_snap_list (self polled_world)) ->
        exists w' out,
          manage_change_update sample_folder (AsyncOk change_done)
            (world_after (refresh_change (change_id change_done))
               (remove_source 1 polled_world))
          = Some (tt, w', out)).
Proof.
  apply (poll_round 0 0 polled_world 1%nat change_done sample_folder).
  - apply polled_world_reachable.
  - vm_compute. by left.
Defined.

(** * More on the notice dispatcher *)

(** X3: the dispatcher only ever starts queries: a run of it that returns has
    left the world as it was and has made no call or exactly one.  It asks
    for the change under the key of the notice exactly for a change-update
    notice after the first run whose kind is "auto-refresh" or
    "refresh-snap", and for the inhibited snaps exactly for a
    refresh-inhibit notice.  It does not return in one case only: a
    change-update notice after the first run whose data has no "kind", which
    it compares as a string. *)
Theorem notice_cb_dispatch (notice : SnapdNotice) (first_run : bool) (w : World) :
  let kind := notice_last_data notice !! "kind" in
  let is_update :=
    is_change_update (notice_type notice) && negb first_run in
  (notice_cb notice first_run w = None <-> is_update = true /\ kind = None)
  /\ forall w' out,
       notice_cb notice first_run w = Some (tt, w', out) ->
       w' = w
       /\ out
          = if is_update && followed_kind kind
            then [SnapdClientGetChangeAsync (notice_key notice)]
            else if is_refresh_inhibit (notice_type notice)
            then [SnapdClientGetSnapsAsyncRefreshInhibited]
            else [].
Proof.
  intros kind is_update. subst kind is_update. unfold notice_cb, followed_kind.
  assert (forall (o : option (unit * World * list Effect)) x,
            o = Some x -> (o = None <-> false = true /\
              notice_last_data notice !! "kind" = None)) as Hreturned.
  { intros o x ->. split; [discriminate | by intros [[=] _]]. }
  destruct (notice_type notice), first_run; cbn [is_change_update
    is_refresh_inhibit andb negb];
    try (split; [by eapply Hreturned | by intros w' out [= <- <-]]).
  destruct (notice_last_data notice !! "kind") as [kind|].
  - split; [split; [|intros [_ [=]]]|].
    + destruct (negb _ && negb _); discriminate.
    + intros w' out.
      destruct (g_str_equal kind "auto-refresh"),
        (g_str_equal kind "refresh-snap"); cbn; by intros [= <- <-].
  - split; [done|]. intros w' out [=].
Qed.

(** * More on the handling of a fetched change *)

Lemma respects_update_dock_snaps (R : relation World) `{!PreOrder R}
    desktop_folder change done cancelled :
  (forall f, respects R (set_refreshing_snap_list f)) ->
  respects R (update_dock_snaps desktop_folder change done cancelled).
Proof.
  intros Hset.
  assert (forall task_done affected acc,
    respects R (update_dock_affected desktop_folder task_done done cancelled
                  affected acc)) as Haffected.
  { intros task_done affected.
    induction affected as [|snap_name rest IH]; intros acc; simpl;
      respects_auto. }
  assert (forall tasks acc,
    respects R (update_dock_tasks desktop_folder done cancelled tasks acc))
    as Htasks.
  { induction tasks as [|task rest IH]; intros acc; simpl; respects_auto. }
  unfold update_dock_snaps, foreach_update_dock_bar, update_dock_bar_at.
  respects_auto.
Qed.

(** X4: a change of a kind other than "auto-refresh" drives the launcher and
    the poll timers only: a run of the handler on it leaves every snap
    record, the dialogs in the window and the window itself as they were.
    The handler does return whenever the applications folder is readable
    and the entries of the progress table hold their arrays. *)
Theorem manage_change_update_other_kind
    (desktop_folder : option (list string)) (change : SnapdChange) (w : World) :
  g_str_equal (change_kind change) "auto-refresh" = false ->
  (forall w' out,
     manage_change_update desktop_folder (AsyncOk change) w
       = Some (tt, w', out) ->
     snaps (self w') = snaps (self w)
     /\ main_window (self w') = main_window (self w)
     /\ next_object w' = next_object w)
  /\ (forall names,
        desktop_folder = Some names ->
        files_known (refreshing_snap_list (self w)) ->
        exists w' out,
          manage_change_update desktop_folder (AsyncOk change) w
          = Some (tt, w', out)).
Proof.
  intros Hkind. split.
  2:{ intros names -> Hknown.
      destruct (manage_change_update_returns names (AsyncOk change) w Hknown)
        as (w' & out & Hrun & _). eauto. }
  intros w' out Hrun.
  set (view := fun w => (snaps (self w), main_window (self w), next_object w)).
  assert (respects (same_on view)
            (manage_change_update desktop_folder (AsyncOk change))) as Hkeeps.
  { assert (forall f, respects (same_on view) (set_refreshing_snap_list f))
      as Hset by (intros f w0 a w1 o [= _ <- _]; reflexivity).
    assert (forall f, respects (same_on view) (set_changes f))
      as Hchanges by (intros f w0 a w1 o [= _ <- _]; reflexivity).
    assert (forall i c, respects (same_on view) (g_timeout_add_once i c))
      as Htimeout by (intros i c w0 a w1 o [= _ <- _]; reflexivity).
    pose proof (fun done cancelled =>
      respects_update_dock_snaps (same_on view) desktop_folder change done
        cancelled Hset) as Hdock.
    unfold manage_change_update. rewrite Hkind. respects_auto. }
  specialize (Hkeeps _ _ _ _ Hrun). by injection Hkeeps as -> -> ->.
Qed.

Lemma manage_change_update_other_kind_witness :
  (forall w' out,
     manage_change_update sample_folder (AsyncOk change_refresh_snap)
       bound_world
     = Some (tt, w', out) ->
     snaps (self w') = snaps (self bound_world)
     /\ main_window (self w') = main_window (self bound_world)
     /\ next_object w' = next_object bound_world)
  /\ (forall names,
        sample_folder = Some names ->
        files_known (refreshing_snap_list (self bound_world)) ->
        exists w' out,
          manage_change_update sample_folder (AsyncOk change_refresh_snap)
            bound_world
          = Some (tt, w', out)).
Proof.
  apply (manage_change_update_other_kind sample_folder change_refresh_snap
           bound_world).
  reflexivity.
Defined.

(** X5: snaps that were never reported as inhibited are passed over: when no
    snap named in the payload of the change has a record marked inhibited,
    or the change has no payload, the reconciliation returns with the world
    as it was and makes no call, also for a change that is done, which then
    raises no completion message. *)
Theorem update_inhibited_snaps_not_inhibited
    (change : SnapdChange) (done cancelled : bool) (w : World) :
  (forall snap_names, change_data change = Some snap_names ->
     forall snap_name, In snap_name snap_names ->
       shown_inhibited w snap_name = false) ->
  update_inhibited_snaps change done cancelled w = Some (tt, w, []).
Proof.
  intros Hnone. unfold update_inhibited_snaps.
  destruct (change_data change) as [snap_names|]; [|done].
  specialize (Hnone snap_names eq_refl).
  induction snap_names as [|snap_name rest IH]; [done|].
  cbn [for_each].
  assert (update_inhibited_snap change done cancelled snap_name w
          = Some (tt, w, [])) as Hround.
  { specialize (Hnone snap_name (or_introl eq_refl)).
    unfold shown_inhibited in Hnone. unfold update_inhibited_snap.
    erewrite bind_eq by apply find_snap_eq.
    destruct (snaps (self w) !! snap_name) as [snap|]; [|done].
    by rewrite Hnone. }
  erewrite bind_eq by exact Hround.
  rewrite IH; [done|]. intros name Hin. apply Hnone. by right.
Qed.

Lemma update_inhibited_snaps_not_inhibited_witness :
  update_inhibited_snaps change_done true false ignoring_world
  = Some (tt, ignoring_world, []).
Proof.
  apply (update_inhibited_snaps_not_inhibited change_done true false
           ignoring_world).
  intros snap_names [= <-] snap_name [<-|[]]. reflexivity.
Defined.

(** * More on dialogs *)

Lemma dialogs_of_unbound name w :
  dialogs_match_snaps w ->
  (forall snap, snaps (self w) !! name = Some snap -> dialog snap = None) ->
  dialogs_of name w = [].
Proof.
  intros (_ & _ & _ & Hbound) Hnone. unfold dialogs_of.
  destruct (List.filter _ (window_children w)) as [|dlg rest] eqn:Hfilter;
    [done|exfalso].
  match type of Hfilter with ?l = _ =>
    assert (In dlg l) as Hin by (rewrite Hfilter; by left) end.
  apply filter_In in Hin as [Hin Hname]. apply String.eqb_eq in Hname.
  destruct (Hbound dlg Hin) as (snap & Hsnap & Hdlg).
  rewrite Hname in Hsnap. apply Hnone in Hsnap. congruence.
Qed.

Lemma window_shown_remove_dialog dlg :
  respects (keeps window_shown) (remove_dialog dlg).
Proof.
  intros w a w' out Hrun Hshown. unfold remove_dialog in Hrun.
  destruct dlg as [dlg|]; [|by apply ret_Some in Hrun as (_ & -> & _)].
  apply bind_Some in Hrun as (s & w0 & o1 & o2 & [= <- <- _] & Hrun & _).
  destruct (main_window (self w)) as [children|] eqn:Hwindow;
    [|by apply ret_Some in Hrun as (_ & -> & _)].
  destruct (negb (contains_child children dlg));
    [by apply ret_Some in Hrun as (_ & -> & _)|].
  unfold window_shown.
  destruct (gtk_box_remove children dlg); injection Hrun as _ <- _; by cbn.
Qed.

Lemma window_shown_add_dialog_to_main_window dlg :
  respects (keeps window_shown) (add_dialog_to_main_window dlg).
Proof.
  intros w a w' out Hrun Hshown. unfold add_dialog_to_main_window in Hrun.
  apply bind_Some in Hrun as (s & w0 & o1 & o2 & [= <- <- _] & Hrun & _).
  unfold window_shown.
  destruct (main_window (self w)) as [children|]; injection Hrun as _ <- _;
    cbn; [|done]. intros [= Heq]. by destruct children.
Qed.

Lemma window_shown_same_window {A : Type} (m : M A) :
  respects (same_on (fun w => main_window (self w))) m ->
  respects (keeps window_shown) m.
Proof.
  intros Hm w a w' out Hrun Hshown. unfold window_shown.
  by rewrite <- (Hm _ _ _ _ Hrun).
Qed.

Lemma window_shown_set_snaps f : respects (keeps window_shown) (set_snaps f).
Proof. apply window_shown_same_window. by intros w a w' out [= _ <- _]. Qed.

Lemma window_shown_set_changes f : respects (keeps window_shown) (set_changes f).
Proof. apply window_shown_same_window. by intros w a w' out [= _ <- _]. Qed.

Lemma window_shown_set_refreshing_snap_list f :
  respects (keeps window_shown) (set_refreshing_snap_list f).
Proof. apply window_shown_same_window. by intros w a w' out [= _ <- _]. Qed.

Lemma window_shown_new_object : respects (keeps window_shown) new_object.
Proof. apply window_shown_same_window. by intros w a w' out [= _ <- _]. Qed.

Lemma window_shown_g_timeout_add_once interval data_change_id :
  respects (keeps window_shown) (g_timeout_add_once interval data_change_id).
Proof. apply window_shown_same_window. by intros w a w' out [= _ <- _]. Qed.

#[local] Hint Resolve window_shown_remove_dialog
  window_shown_add_dialog_to_main_window window_shown_set_snaps
  window_shown_set_changes window_shown_set_refreshing_snap_list
  window_shown_new_object window_shown_g_timeout_add_once : respects.

Section DialogLife.

Variable TIME_TO_SHOW_REMAINING_TIME_BEFORE_FORCED_REFRESH : Z.
Variable TIME_TO_SHOW_ALERT_BEFORE_FORCED_REFRESH : Z.

Let step := step TIME_TO_SHOW_REMAINING_TIME_BEFORE_FORCED_REFRESH
              TIME_TO_SHOW_ALERT_BEFORE_FORCED_REFRESH.
Let reachable := reachable TIME_TO_SHOW_REMAINING_TIME_BEFORE_FORCED_REFRESH
                   TIME_TO_SHOW_ALERT_BEFORE_FORCED_REFRESH.

Lemma step_window_shown w w' : step w w' -> window_shown w -> window_shown w'.
Proof.
  intros Hstep Hshown.
  assert (forall change done cancelled,
    respects (keeps window_shown) (update_inhibited_snaps change done cancelled))
    as Hinhibited.
  { intros. unfold update_inhibited_snaps, update_inhibited_snap, find_snap,
      remove_snap, sdi_snap_set_ignored. respects_auto. }
  pose proof (fun desktop_folder change done cancelled =>
    respects_update_dock_snaps (keeps window_shown) desktop_folder change done
      cancelled window_shown_set_refreshing_snap_list) as Hdock.
  destruct Hstep as [notice first_run w w' out H
                    |desktop_folder res w w' out H
                    |source_id data_change_id w w' out Hin H
                    |now res w w' out H
                    |data_snap_name res w w' out H
                    |data_snap_name res w w' out H
                    |dlg w w' out Hdlg H
                    |snap_name w w' out H].
  - unfold notice_cb in H. by_respects.
  - unfold manage_change_update in H. by_respects.
  - rewrite refresh_change_eq in H.
    assert (window_shown (remove_source source_id w)) as Hshown' by done.
    clear Hshown. by_respects.
  - assert (forall returned show snap_list,
      respects (keeps window_shown)
        (refresh_inhibit_loop
           TIME_TO_SHOW_REMAINING_TIME_BEFORE_FORCED_REFRESH
           TIME_TO_SHOW_ALERT_BEFORE_FORCED_REFRESH now returned show
           snap_list)) as Hloop.
    { induction returned as [|snap rest IH]; intros show snap_list; simpl;
        unfold notify_check_forced_refresh, g_signal_emit_by_name,
        sdi_snap_set_inhibited, add_snap,
          find_snap; respects_auto. }
    unfold manage_refresh_inhibit in H. by_respects.
  - unfold begin_application_refresh, add_snap, find_snap,
      sdi_refresh_dialog_new, sdi_snap_set_dialog in H. by_respects.
  - unfold show_snap_completed in H. by_respects.
  - unfold close_dialog_cb, find_snap, sdi_snap_set_manually_hidden,
      sdi_snap_set_dialog in H. by_respects.
  - unfold sdi_refresh_monitor_ignore_snap_cb, add_snap, find_snap,
      sdi_snap_set_ignored in H. by_respects.
Qed.

(** X6: the window of the progress dialogs exists exactly while it holds a
    dialog: in every world the process can reach, [main_window] is NULL when
    no dialog is shown, and is a window with a dialog in it otherwise. *)
Theorem window_exists_while_dialogs (w : World) :
  reachable w ->
  (main_window (self w) = None <-> window_children w = [])
  /\ (forall children, main_window (self w) = Some children -> children <> []).
Proof.
  intros Hreach.
  assert (window_shown w) as Hshown.
  { refine (rtc_ind_r _ initial_world _ _ w Hreach); [done|].
    intros y z _ Hstep IH. by eapply step_window_shown. }
  unfold window_shown, window_children in *.
  destruct (main_window (self w)) as [children|]; cbn.
  - split; [split; [done | by intros ->]|]. by intros ? [= <-] ->.
  - split; [done|]. by intros ? [=].
Qed.

(** X7: a change that is done or cancelled retires an inhibited snap.  In a
    world the process can reach, the round for a snap with a record marked
    inhibited removes the record and nothing else from the snap table,
    leaves no dialog of the snap in the window, and asks snapd for the
    snap, to announce the end of the refresh, exactly when the change is
    done. *)
Theorem update_inhibited_snap_retires (change : SnapdChange)
    (done cancelled : bool) (snap_name : string) (snap : SdiSnap) (w : World) :
  reachable w ->
  snaps (self w) !! snap_name = Some snap ->
  inhibited snap = true ->
  done || cancelled = true ->
  exists w',
    update_inhibited_snap change done cancelled snap_name w
    = Some (tt, w',
            if done
            then [SnapdClientGetSnapAsync snap_name show_snap_completed_cb]
            else [])
    /\ snaps (self w') = delete snap_name (snaps (self w))
    /\ dialogs_of snap_name w' = [].
Proof.
  intros Hinv%reachable_dialogs_match_snaps Hsnap Hinhibited Hterminal.
  assert (sdi_name snap = snap_name) as Hkey by (by apply Hinv).
  destruct (remove_dialog_run (dialog snap) w)
    as (w1 & Hdialog & Hsnaps & Hnext & Hwindow).
  assert (remove_snap (Some snap) w
          = Some (tt, with_snaps (delete snap_name) w1, [])) as Hremove.
  { unfold remove_snap. erewrite bind_eq by exact Hdialog.
    by rewrite set_snaps_eq, Hkey. }
  pose proof (remove_snap_keeps _ _ _ _ _ Hinv Hsnap Hremove) as Hinv'.
  exists (with_snaps (delete snap_name) w1). split; [|split].
  - unfold update_inhibited_snap. erewrite bind_eq by apply find_snap_eq.
    rewrite Hsnap, Hinhibited, Hterminal. cbn [negb app].
    erewrite bind_eq by exact Hremove. by destruct done.
  - cbn [with_snaps self snaps]. by rewrite Hsnaps.
  - apply dialogs_of_unbound; [done|]. intros snap'.
    cbn [with_snaps self snaps]. by rewrite lookup_delete_eq.
Qed.

End DialogLife.

Lemma bound_world_reachable : reachable 0 0 bound_world.
Proof.
  eapply rtc_l.
  { eapply (step_snaps_fetched 0 0 0 (AsyncOk [sample_snap "p"]) initial_world
              inhibited_world
              (output_of (manage_refresh_inhibit 0 0 0
                            (AsyncOk [sample_snap "p"])) initial_world)).
    vm_compute. reflexivity. }
  eapply rtc_l.
  { eapply (step_change_fetched 0 0 sample_folder (AsyncOk change_doing)
              inhibited_world
              (world_after (manage_change_update sample_folder
                              (AsyncOk change_doing)) inhibited_world)
              (output_of (manage_change_update sample_folder
                            (AsyncOk change_doing)) inhibited_world)).
    vm_compute. reflexivity. }
  eapply rtc_l; [|apply rtc_refl].
  eapply (step_begin_application_refresh 0 0 "p" (AsyncOk (sample_snap "p"))
            _ bound_world []).
  vm_compute. reflexivity.
Qed.

Lemma window_exists_while_dialogs_witness :
  (main_window (self bound_world) = None <-> window_children bound_world = [])
  /\ (forall children,
        main_window (self bound_world) = Some children -> children <> []).
Proof.
  apply (window_exists_while_dialogs 0 0 bound_world).
  apply bound_world_reachable.
Defined.

Lemma update_inhibited_snap_retires_witness :
  exists w',
    update_inhibited_snap change_done true false "p" bound_world
    = Some (tt, w', [SnapdClientGetSnapAsync "p" show_snap_completed_cb])
    /\ snaps (self w') = delete "p" (snaps (self bound_world))
    /\ dialogs_of "p" w' = [].
Proof.
  apply (update_inhibited_snap_retires 0 0 change_done true false "p"
           bound_snap bound_world).
  - apply bound_world_reachable.
  - apply bound_world_snap.
  - reflexivity.
  - reflexivity.
Defined.

Lemma bind_new_dialog_eq name visible sdi_snap
    (decorate : SdiRefreshDialog -> SdiRefreshDialog) w :
  sdi_name sdi_snap = name ->
  (dlg ← sdi_refresh_dialog_new name visible;
   add_dialog_to_main_window (decorate dlg);;
   sdi_snap_set_dialog sdi_snap (Some (decorate dlg))) w
  = Some (tt,
          with_new_dialog name
            (decorate {| dialog_id := next_object w; app_name := name;
                         visible_name := visible; icon_image := None |}) w,
          []).
Proof.
  intros Hkey. unfold sdi_snap_set_dialog. rewrite Hkey.
  by destruct w as [[nt sn ch m [children|]] ts ns no].
Qed.

Section DialogEvents.

Variable TIME_TO_SHOW_REMAINING_TIME_BEFORE_FORCED_REFRESH : Z.
Variable TIME_TO_SHOW_ALERT_BEFORE_FORCED_REFRESH : Z.

Let reachable := reachable TIME_TO_SHOW_REMAINING_TIME_BEFORE_FORCED_REFRESH
                   TIME_TO_SHOW_ALERT_BEFORE_FORCED_REFRESH.

(** X8: the user closes a dialog.  In a world the process can reach, for a
    dialog of the window, the handler returns and makes no call; the snap
    the dialog was made for is then marked manually hidden and has no
    dialog bound, no dialog of that snap is left in the window, and a later
    update of a running change does nothing for the snap: it starts no
    query for a new dialog and pushes no progress. *)
Theorem close_dialog_cb_hides (dlg : SdiRefreshDialog) (w : World) :
  reachable w ->
  In dlg (window_children w) ->
  exists w' snap',
    close_dialog_cb dlg w = Some (tt, w', [])
    /\ snaps (self w') !! app_name dlg = Some snap'
    /\ manually_hidden snap' = true
    /\ dialog snap' = None
    /\ dialogs_of (app_name dlg) w' = []
    /\ forall change,
         update_inhibited_snap change false false (app_name dlg) w'
         = Some (tt, w', []).
Proof.
  intros Hinv%reachable_dialogs_match_snaps Hin.
  pose proof Hinv as (Hname & _ & _ & Hbound).
  destruct (Hbound dlg Hin) as (snap & Hsnap & Hdlg).
  pose proof (Hname _ _ Hsnap) as Hkey.
  set (w1 := with_snaps (alter (with_manually_hidden true) (app_name dlg)) w).
  destruct (remove_dialog_run (Some dlg) w1)
    as (w2 & Hdialog & Hsnaps & Hnext & Hwindow).
  set (w' := with_snaps (alter (with_dialog None) (app_name dlg)) w2).
  assert (close_dialog_cb dlg w = Some (tt, w', [])) as Hrun.
  { unfold close_dialog_cb. erewrite bind_eq by apply find_snap_eq.
    rewrite Hsnap. unfold sdi_snap_set_manually_hidden, sdi_snap_set_dialog.
    rewrite Hkey. erewrite bind_eq by apply set_snaps_eq.
    erewrite bind_eq by exact Hdialog. by rewrite set_snaps_eq. }
  assert (snaps (self w') !! app_name dlg
          = Some (with_dialog None (with_manually_hidden true snap))) as Hsnap'.
  { subst w' w1. cbn [with_snaps self snaps]. rewrite Hsnaps.
    cbn [with_snaps self snaps]. by rewrite !lookup_alter_eq, Hsnap. }
  exists w', (with_dialog None (with_manually_hidden true snap)).
  split; [exact Hrun|]. split; [exact Hsnap'|]. split; [done|].
  split; [done|]. split.
  - apply dialogs_of_unbound; [by eapply close_dialog_cb_keeps|].
    intros snap0. rewrite Hsnap'. by intros [= <-].
  - intros change. unfold update_inhibited_snap.
    erewrite bind_eq by apply find_snap_eq. rewrite Hsnap'.
    cbn [inhibited hidden manually_hidden with_dialog with_manually_hidden].
    destruct (inhibited snap); cbn [negb]; [|done].
    by rewrite orb_true_r.
Qed.

Lemma begin_application_refresh_new_dialog (data_snap_name : string)
    (res : AsyncResult SnapdSnap) (name : string) (w : World) :
  reachable w ->
  queried_snap_name data_snap_name res = Some name ->
  (forall message, res <> AsyncError true message) ->
  (forall snap, snaps (self w) !! name = Some snap -> dialog snap = None) ->
  exists w' dlg snap',
    begin_application_refresh data_snap_name res w = Some (tt, w', [])
    /\ dialog_id dlg = next_object w
    /\ app_name dlg = name
    /\ visible_name dlg
       = match res with
         | AsyncOk {| snap_app_info := Some app_info |} =>
             default name (display_name app_info)
         | _ => name
         end
    /\ icon_image dlg
       = match res with
         | AsyncOk {| snap_app_info := Some app_info |} => app_icon app_info
         | _ => None
         end
    /\ window_children w' = window_children w ++ [dlg]
    /\ dialogs_of name w' = [dlg]
    /\ snaps (self w') !! name = Some snap'
    /\ snap' = with_dialog (Some dlg)
                 (default (sdi_snap_new name) (snaps (self w) !! name)).
Proof.
  intros Hinv%reachable_dialogs_match_snaps Hname Hres Hunbound.
  destruct (add_snap_run name w) as (sdi_snap & w1 & Hadd & Hsnap & Hinv1).
  specialize (Hinv1 Hinv).
  assert (dialog sdi_snap = None /\ window_children w1 = window_children w
          /\ next_object w1 = next_object w
          /\ sdi_snap = default (sdi_snap_new name) (snaps (self w) !! name))
    as (Hnone & Hwindow1 & Hnext1 & Hrecord).
  { destruct (snaps (self w) !! name) as [found|] eqn:Hfound.
    - rewrite (add_snap_found _ _ _ Hfound) in Hadd.
      injection Hadd as <- <-. split; [by apply Hunbound|done].
    - rewrite (add_snap_missing _ _ Hfound) in Hadd. by injection Hadd as <- <-. }
  assert (sdi_name sdi_snap = name) as Hkey by (by apply Hinv1).
  assert (dialogs_of name w = []) as Hnodialog
    by (by apply dialogs_of_unbound).
  assert (forall visible decorate,
    (sdi_snap ← add_snap name;
     match dialog sdi_snap with
     | Some _ => mret tt
     | None =>
         dlg ← sdi_refresh_dialog_new name visible;
         add_dialog_to_main_window (decorate dlg);;
         sdi_snap_set_dialog sdi_snap (Some (decorate dlg))
     end) w
    = Some (tt,
            with_new_dialog name
              (decorate {| dialog_id := next_object w; app_name := name;
                           visible_name := visible; icon_image := None |}) w1,
            [])) as Hcreate.
  { intros visible decorate. erewrite bind_eq by exact Hadd. rewrite Hnone.
    rewrite (bind_new_dialog_eq name visible sdi_snap decorate w1 Hkey).
    by rewrite Hnext1. }
  assert (forall dlg,
    app_name dlg = name ->
    window_children (with_new_dialog name dlg w1) = window_children w ++ [dlg]
    /\ dialogs_of name (with_new_dialog name dlg w1) = [dlg]
    /\ snaps (self (with_new_dialog name dlg w1)) !! name
       = Some (with_dialog (Some dlg) sdi_snap)
    /\ with_dialog (Some dlg) sdi_snap
       = with_dialog (Some dlg)
           (default (sdi_snap_new name) (snaps (self w) !! name))) as Hafter.
  { intros dlg Happ. unfold dialogs_of in *.
    change (window_children (with_new_dialog name dlg w1))
      with (window_children w1 ++ [dlg]).
    rewrite Hwindow1. split; [done|]. split; [|split].
    - rewrite List.filter_app, Hnodialog. cbn. by rewrite Happ, String.eqb_refl.
    - change (snaps (self (with_new_dialog name dlg w1)))
        with (alter (with_dialog (Some dlg)) name (snaps (self w1))).
      by rewrite lookup_alter_eq, Hsnap.
    - by rewrite <- Hrecord. }
  assert (forall dlg,
    app_name dlg = name ->
    forall visible icon,
    visible_name dlg = visible -> icon_image dlg = icon ->
    exists w' dlg' snap',
      Some (tt, with_new_dialog name dlg w1, @nil Effect) = Some (tt, w', [])
      /\ dialog_id dlg' = dialog_id dlg
      /\ app_name dlg' = name
      /\ visible_name dlg' = visible
      /\ icon_image dlg' = icon
      /\ window_children w' = window_children w ++ [dlg']
      /\ dialogs_of name w' = [dlg']
      /\ snaps (self w') !! name = Some snap'
      /\ snap' = with_dialog (Some dlg')
                   (default (sdi_snap_new name) (snaps (self w) !! name)))
    as Hgive.
  { intros dlg Happ visible icon Hvisible Hicon.
    exists (with_new_dialog name dlg w1), dlg, (with_dialog (Some dlg) sdi_snap).
    do 5 (split; [done|]). by apply Hafter. }
  destruct res as [snap| |[] message]; cbn in Hname.
  - unfold begin_application_refresh. rewrite Hname.
    erewrite bind_eq by reflexivity.
    destruct snap as [sname proceed [[display icon]|]];
      cbn [snap_app_info display_name app_icon].
    + pose proof (Hcreate (default name display)
        (fun dlg => match icon with
                    | Some icon => sdi_refresh_dialog_set_icon_image dlg icon
                    | None => dlg
                    end)) as Hrun.
      cbn beta in Hrun. rewrite Hrun. cbn [app].
      by destruct icon as [icon|]; apply Hgive.
    + pose proof (Hcreate name (fun dlg => dlg)) as Hrun.
      cbn beta in Hrun. rewrite Hrun. cbn [app]. by apply Hgive.
  - injection Hname as <-. unfold begin_application_refresh.
    pose proof (Hcreate data_snap_name (fun dlg => dlg)) as Hrun.
    cbn beta in Hrun. rewrite Hrun. by apply Hgive.
  - by destruct (Hres message).
  - injection Hname as <-. unfold begin_application_refresh.
    pose proof (Hcreate data_snap_name (fun dlg => dlg)) as Hrun.
    cbn beta in Hrun. rewrite Hrun. by apply Hgive.
Qed.

(** X9: the dialog that a completed snap query makes.  In a world the process
    can reach, when the snap the completion is about has no dialog bound
    (it may have no record yet) and the query was not cancelled, the
    callback returns and makes no call; it has made one new dialog for the
    snap, shown under the display name of its desktop file, with its icon,
    when snapd returned the snap and such a file is known, and under the
    name of the snap otherwise; the dialog is the last one in the window,
    the only one of the snap, and it is bound to the record of the snap. *)
Theorem begin_application_refresh_creates (data_snap_name : string)
    (res : AsyncResult SnapdSnap) (name : string) (w : World) :
  reachable w ->
  queried_snap_name data_snap_name res = Some name ->
  (forall message, res <> AsyncError true message) ->
  (forall snap, snaps (self w) !! name = Some snap -> dialog snap = None) ->
  exists w' dlg snap',
    begin_application_refresh data_snap_name res w = Some (tt, w', [])
    /\ dialog_id dlg = next_object w
    /\ app_name dlg = name
    /\ visible_name dlg
       = match res with
         | AsyncOk {| snap_app_info := Some app_info |} =>
             default name (display_name app_info)
         | _ => name
         end
    /\ icon_image dlg
       = match res with
         | AsyncOk {| snap_app_info := Some app_info |} => app_icon app_info
         | _ => None
         end
    /\ window_children w' = window_children w ++ [dlg]
    /\ dialogs_of name w' = [dlg]
    /\ snaps (self w') !! name = Some snap'
    /\ dialog snap' = Some dlg.
Proof.
  intros Hreach Hname Hres Hunbound.
  destruct (begin_application_refresh_new_dialog data_snap_name res name w
              Hreach Hname Hres Hunbound)
    as (w' & dlg & snap' & Hrun & Hid & Happ & Hvisible & Hicon & Hwindow
        & Hdialogs & Hsnap & ->).
  by exists w', dlg, (with_dialog (Some dlg)
                        (default (sdi_snap_new name) (snaps (self w) !! name))).
Qed.

(** X10: a snap query that completes late.  The query is started for a snap
    that has a record, and the record goes when the refresh ends.  When the
    query completes after that, not cancelled, in a world the process can
    reach, the callback makes a record for the snap anew, not marked
    inhibited, and shows a dialog for it, the only one of the snap.  In the
    world it leaves, the round of [update_inhibited_snaps] for this snap
    does nothing, whatever the state of the change: a change that is done
    or cancelled finds nothing to retire for the snap there. *)
Theorem late_snap_query_not_retired (data_snap_name : string)
    (res : AsyncResult SnapdSnap) (name : string) (w : World) :
  reachable w ->
  queried_snap_name data_snap_name res = Some name ->
  (forall message, res <> AsyncError true message) ->
  snaps (self w) !! name = None ->
  exists w' dlg,
    begin_application_refresh data_snap_name res w = Some (tt, w', [])
    /\ dialogs_of name w' = [dlg]
    /\ snaps (self w') !! name
       = Some (with_dialog (Some dlg) (sdi_snap_new name))
    /\ forall change change_done change_cancelled,
         update_inhibited_snap change change_done change_cancelled name w'
         = Some (tt, w', []).
Proof.
  intros Hreach Hname Hres Hnone.
  destruct (begin_application_refresh_new_dialog data_snap_name res name w
              Hreach Hname Hres)
    as (w' & dlg & snap' & Hrun & _ & _ & _ & _ & _ & Hdialogs & Hsnap & ->).
  { intros snap. by rewrite Hnone. }
  rewrite Hnone in Hsnap. cbn [default] in Hsnap.
  exists w', dlg. do 3 (split; [done|]).
  intros change change_done change_cancelled. unfold update_inhibited_snap.
  erewrite bind_eq by apply find_snap_eq. by rewrite Hsnap.
Qed.

End DialogEvents.

Lemma inhibited_world_reachable : reachable 0 0 inhibited_world.
Proof.
  eapply rtc_l; [|apply rtc_refl].
  eapply (step_snaps_fetched 0 0 0 (AsyncOk [sample_snap "p"]) initial_world
            inhibited_world
            (output_of (manage_refresh_inhibit 0 0 0
                          (AsyncOk [sample_snap "p"])) initial_world)).
  vm_compute. reflexivity.
Qed.

Lemma close_dialog_cb_hides_witness :
  exists w' snap',
    close_dialog_cb sample_dialog bound_world = Some (tt, w', [])
    /\ snaps (self w') !! "p" = Some snap'
    /\ manually_hidden snap' = true
    /\ dialog snap' = None
    /\ dialogs_of "p" w' = []
    /\ forall change,
         update_inhibited_snap change false false "p" w' = Some (tt, w', []).
Proof.
  apply (close_dialog_cb_hides 0 0 sample_dialog bound_world).
  - apply bound_world_reachable.
  - vm_compute. left. reflexivity.
Defined.

Lemma begin_application_refresh_creates_witness :
  exists w' dlg snap',
    begin_application_refresh "p" (AsyncOk (sample_snap "p")) inhibited_world
    = Some (tt, w', [])
    /\ dialog_id dlg = next_object inhibited_world
    /\ app_name dlg = "p"
    /\ visible_name dlg = "Pinta"
    /\ icon_image dlg = Some "pinta.png"
    /\ window_children w' = window_children inhibited_world ++ [dlg]
    /\ dialogs_of "p" w' = [dlg]
    /\ snaps (self w') !! "p" = Some snap'
    /\ dialog snap' = Some dlg.
Proof.
  apply (begin_application_refresh_creates 0 0 "p" (AsyncOk (sample_snap "p"))
           "p" inhibited_world).
  - apply inhibited_world_reachable.
  - reflexivity.
  - intros message. discriminate.
  - intros snap Hsnap. vm_compute in Hsnap. by injection Hsnap as <-.
Defined.

Lemma late_world_reachable : reachable 0 0 late_world.
Proof.
  eapply (rtc_trans _ inhibited_world); [apply inhibited_world_reachable|].
  eapply rtc_l.
  { eapply (step_change_fetched 0 0 sample_folder (AsyncOk change_doing)
              inhibited_world
              (world_after (manage_change_update sample_folder
                              (AsyncOk change_doing)) inhibited_world)
              (output_of (manage_change_update sample_folder
                            (AsyncOk change_doing)) inhibited_world)).
    vm_compute. reflexivity. }
  eapply rtc_l; [|apply rtc_refl].
  eapply (step_change_fetched 0 0 sample_folder (AsyncOk change_done)
            _ late_world
            (output_of (manage_change_update sample_folder
                          (AsyncOk change_done))
               (world_after (manage_change_update sample_folder
                               (AsyncOk change_doing)) inhibited_world))).
  vm_compute. reflexivity.
Qed.

Lemma late_snap_query_not_retired_witness :
  exists w' dlg,
    begin_application_refresh "p" (AsyncOk (sample_snap "p")) late_world
    = Some (tt, w', [])
    /\ dialogs_of "p" w' = [dlg]
    /\ snaps (self w') !! "p" = Some (with_dialog (Some dlg) (sdi_snap_new "p"))
    /\ forall change change_done change_cancelled,
         update_inhibited_snap change change_done change_cancelled "p" w'
         = Some (tt, w', []).
Proof.
  apply (late_snap_query_not_retired 0 0 "p" (AsyncOk (sample_snap "p")) "p"
           late_world).
  - apply late_world_reachable.
  - reflexivity.
  - intros message. discriminate.
  - vm_compute. reflexivity.
Defined.

(** * More on inhibited snaps *)

Lemma add_snap_eq name w :
  add_snap name w
  = Some (default (sdi_snap_new name) (snaps (self w) !! name),
          with_snaps (fun m => match m !! name with
                               | Some _ => m
                               | None => <[name := sdi_snap_new name]> m
                               end) w,
          []).
Proof.
  destruct w as [[nt sn ch r mw] ts ns no]. unfold add_snap, find_snap.
  unfold mbind, M_bind, bind, mret, M_ret, ret, get_self, set_snaps, with_snaps.
  cbn. by destruct (sn !! name).
Qed.

Lemma with_snaps_id w : with_snaps (fun m => m) w = w.
Proof. by destruct w as [[] ? ? ?]. Qed.

Lemma keyed_by_name_mark_inhibited m name :
  keyed_by_name m -> keyed_by_name (mark_inhibited m name).
Proof.
  intros Hkeyed key snap. unfold mark_inhibited. rewrite lookup_alter.
  case_decide as Heq; [subst key|].
  - destruct (m !! name) as [found|] eqn:Hfound.
    + rewrite Hfound. intros [= <-]. exact (Hkeyed _ _ Hfound).
    + rewrite lookup_insert_eq. by intros [= <-].
  - destruct (m !! name); [apply Hkeyed|].
    rewrite lookup_insert_ne by done. apply Hkeyed.
Qed.

Lemma foldl_mark_record names :
  forall m,
    keyed_by_name m ->
    foldl mark_record m names = foldl mark_inhibited m names.
Proof.
  induction names as [|name names IH]; intros m Hkeyed; [done|].
  cbn [foldl].
  assert (mark_record m name = mark_inhibited m name) as ->.
  { unfold mark_record, mark_inhibited.
    destruct (m !! name) as [found|] eqn:Hfound; [|done].
    cbn [default id]. by rewrite (Hkeyed _ _ Hfound). }
  apply IH. by apply keyed_by_name_mark_inhibited.
Qed.

Lemma mark_inhibited_lookup m name key :
  mark_inhibited m name !! key
  = if bool_decide (key = name)
    then Some (with_inhibited true (default (sdi_snap_new key) (m !! key)))
    else m !! key.
Proof.
  unfold mark_inhibited. rewrite lookup_alter.
  case_bool_decide as Heq.
  - subst key. rewrite decide_True by done.
    destruct (m !! name) as [found|] eqn:Hfound; [by rewrite Hfound|].
    by rewrite lookup_insert_eq.
  - rewrite decide_False by done.
    destruct (m !! name); [done|]. by rewrite lookup_insert_ne.
Qed.

Lemma foldl_mark_inhibited_lookup names :
  forall m key,
    foldl mark_inhibited m names !! key
    = if bool_decide (key ∈ names)
      then Some (with_inhibited true (default (sdi_snap_new key) (m !! key)))
      else m !! key.
Proof.
  induction names as [|name names IH]; intros m key; [done|].
  cbn [foldl]. rewrite IH, mark_inhibited_lookup.
  destruct (decide (key = name)) as [->|Hne].
  - rewrite (bool_decide_eq_true_2 (name = name)) by done.
    rewrite (bool_decide_eq_true_2 (name ∈ name :: names)) by (by left).
    by case_bool_decide.
  - rewrite (bool_decide_eq_false_2 (key = name)) by done.
    destruct (decide (key ∈ names)) as [Hin|Hout].
    + rewrite !bool_decide_eq_true_2; [done | by right | done].
    + rewrite !bool_decide_eq_false_2; [done | | done].
      by intros [?|?]%elem_of_cons.
Qed.

Lemma same_notify_set_snaps f :
  respects (same_on (fun w => notify (self w))) (set_snaps f).
Proof. by intros w a w' out [= _ <- _]. Qed.

Lemma same_notify_set_changes f :
  respects (same_on (fun w => notify (self w))) (set_changes f).
Proof. by intros w a w' out [= _ <- _]. Qed.

Lemma same_notify_set_refreshing_snap_list f :
  respects (same_on (fun w => notify (self w))) (set_refreshing_snap_list f).
Proof. by intros w a w' out [= _ <- _]. Qed.

Lemma same_notify_set_main_window v :
  respects (same_on (fun w => notify (self w))) (set_main_window v).
Proof. by intros w a w' out [= _ <- _]. Qed.

Lemma same_notify_new_object :
  respects (same_on (fun w => notify (self w))) new_object.
Proof. by intros w a w' out [= _ <- _]. Qed.

Lemma same_notify_g_timeout_add_once interval data_change_id :
  respects (same_on (fun w => notify (self w)))
    (g_timeout_add_once interval data_change_id).
Proof. by intros w a w' out [= _ <- _]. Qed.

#[local] Hint Resolve same_notify_set_snaps same_notify_set_changes
  same_notify_set_refreshing_snap_list same_notify_set_main_window
  same_notify_new_object same_notify_g_timeout_add_once : respects.

Section InhibitedSnaps.

Variable TIME_TO_SHOW_REMAINING_TIME_BEFORE_FORCED_REFRESH : Z.
Variable TIME_TO_SHOW_ALERT_BEFORE_FORCED_REFRESH : Z.

Let reachable := reachable TIME_TO_SHOW_REMAINING_TIME_BEFORE_FORCED_REFRESH
                   TIME_TO_SHOW_ALERT_BEFORE_FORCED_REFRESH.

Lemma refresh_inhibit_loop_state now returned :
  forall show snap_list w,
    exists result out,
      refresh_inhibit_loop TIME_TO_SHOW_REMAINING_TIME_BEFORE_FORCED_REFRESH
        TIME_TO_SHOW_ALERT_BEFORE_FORCED_REFRESH now returned show snap_list w
      = Some (result,
              with_snaps (fun m => foldl mark_record m
                                     (returned_names returned)) w,
              out)
      /\ List.filter is_forced_refresh out
         = match notify (self w) with
           | Some _ =>
               flat_map
                 (forced_refresh_notice
                    TIME_TO_SHOW_REMAINING_TIME_BEFORE_FORCED_REFRESH
                    TIME_TO_SHOW_ALERT_BEFORE_FORCED_REFRESH now w)
                 returned
           | None => []
           end.
Proof.
  induction returned as [|snap rest IH]; intros show snap_list w.
  - eexists _, []. cbn. rewrite with_snaps_id. by destruct (notify (self w)).
  - cbn [refresh_inhibit_loop returned_names omap list_omap flat_map].
    unfold forced_refresh_notice at 1.
    destruct (snap_name snap) as [name|] eqn:Hname.
    2:{ destruct (IH show snap_list w) as (result & out & Hrun & Hout).
        erewrite bind_eq by reflexivity. fold (returned_names rest).
        rewrite Hrun. eexists _, _. split; [reflexivity|]. exact Hout. }
    fold (returned_names rest). cbn [foldl].
    erewrite bind_eq by reflexivity.
    erewrite bind_eq by apply add_snap_eq.
    set (snap_data := default (sdi_snap_new name) (snaps (self w) !! name)).
    assert (ignored snap_data = is_ignored w name) as Hflag.
    { subst snap_data. unfold is_ignored.
      by destruct (snaps (self w) !! name). }
    unfold sdi_snap_set_inhibited.
    erewrite bind_eq by apply set_snaps_eq.
    set (w2 := with_snaps (alter (with_inhibited true) (sdi_name snap_data))
                 (with_snaps _ w)).
    assert (w2 = with_snaps (fun m => mark_record m name) w) as Hw2
      by reflexivity.
    assert (notify (self w2) = notify (self w)) as Hnotify by reflexivity.
    assert (forall n, is_ignored w2 n = is_ignored w n) as Hsame.
    { intros n. subst w2. rewrite is_ignored_alter_inhibited.
      destruct (snaps (self w) !! name) as [found|] eqn:Hfound.
      - unfold is_ignored. cbn [with_snaps self snaps]. by rewrite Hfound.
      - rewrite <- (is_ignored_insert_new w name n Hfound).
        unfold is_ignored. cbn [with_snaps self snaps]. by rewrite Hfound. }
    destruct (IH (if negb (ignored snap_data) then true else show)
                 (snap_list ++ [snap]) w2) as (result & out & Hrun & Hout).
    assert (flat_map
              (forced_refresh_notice
                 TIME_TO_SHOW_REMAINING_TIME_BEFORE_FORCED_REFRESH
                 TIME_TO_SHOW_ALERT_BEFORE_FORCED_REFRESH now w2)
              rest
            = flat_map
                (forced_refresh_notice
                   TIME_TO_SHOW_REMAINING_TIME_BEFORE_FORCED_REFRESH
                   TIME_TO_SHOW_ALERT_BEFORE_FORCED_REFRESH now w)
                rest) as Hrest.
    { apply flat_map_ext. intros other. unfold forced_refresh_notice.
      destruct (snap_name other); [|done]. by rewrite Hsame. }
    rewrite Hnotify, Hrest in Hout.
    erewrite bind_eq by reflexivity. cbn [app].
    unfold notify_check_forced_refresh, g_signal_emit_by_name.
    cbn [ignored with_inhibited]. rewrite Hflag, Hnotify.
    rewrite Hflag in Hrun.
    destruct (notify (self w)) as [object|];
      (destruct (_ && _);
       [|destruct (_ <=? TIME_TO_SHOW_ALERT_BEFORE_FORCED_REFRESH)]);
      erewrite bind_eq by reflexivity; rewrite Hrun;
      eexists _, _; (split; [by rewrite Hw2|]); cbn; by rewrite Hout.
Qed.

Lemma manage_refresh_inhibit_state now returned w :
  exists out,
    manage_refresh_inhibit TIME_TO_SHOW_REMAINING_TIME_BEFORE_FORCED_REFRESH
      TIME_TO_SHOW_ALERT_BEFORE_FORCED_REFRESH now (AsyncOk returned) w
    = Some (tt,
            with_snaps (fun m => foldl mark_record m (returned_names returned))
              w,
            out)
    /\ List.filter is_forced_refresh out
       = match notify (self w) with
         | Some _ =>
             flat_map
               (forced_refresh_notice
                  TIME_TO_SHOW_REMAINING_TIME_BEFORE_FORCED_REFRESH
                  TIME_TO_SHOW_ALERT_BEFORE_FORCED_REFRESH now w)
               returned
         | None => []
         end.
Proof.
  unfold manage_refresh_inhibit.
  destruct returned as [|snap rest].
  { exists []. cbn. rewrite with_snaps_id. by destruct (notify (self w)). }
  cbn [length Nat.eqb].
  destruct (refresh_inhibit_loop_state now (snap :: rest) false [] w)
    as ([show snap_list] & out & Hrun & Hout).
  erewrite bind_eq by exact Hrun.
  destruct show; eexists; (split; [reflexivity|]);
    by rewrite List.filter_app, Hout, app_nil_r.
Qed.

(** X11: a completed query for the inhibited snaps marks them.  In a world the
    process can reach the handler returns, whatever list snapd gave; after
    it every returned snap that has a name has a record marked inhibited,
    made new when the snap had none and otherwise as it was in every other
    respect; the records of all other snaps, the tracked changes, the
    progress table, the window and the timers are as before. *)
Theorem manage_refresh_inhibit_marks_inhibited
    (now : Z) (returned : list SnapdSnap) (w : World) :
  reachable w ->
  exists w' out,
    manage_refresh_inhibit TIME_TO_SHOW_REMAINING_TIME_BEFORE_FORCED_REFRESH
      TIME_TO_SHOW_ALERT_BEFORE_FORCED_REFRESH now (AsyncOk returned) w
    = Some (tt, w', out)
    /\ (forall name,
          snaps (self w') !! name
          = if bool_decide (name ∈ returned_names returned)
            then Some (with_inhibited true
                         (default (sdi_snap_new name) (snaps (self w) !! name)))
            else snaps (self w) !! name)
    /\ changes (self w') = changes (self w)
    /\ refreshing_snap_list (self w') = refreshing_snap_list (self w)
    /\ main_window (self w') = main_window (self w)
    /\ timeouts w' = timeouts w.
Proof.
  intros (Hkeyed & _)%reachable_dialogs_match_snaps.
  destruct (manage_refresh_inhibit_state now returned w) as (out & Hrun & _).
  eexists _, out. split; [exact Hrun|]. split; [|done].
  intros name. cbn [with_snaps self snaps].
  rewrite foldl_mark_record by exact Hkeyed.
  apply foldl_mark_inhibited_lookup.
Qed.

Lemma step_same_notify w w' :
  step TIME_TO_SHOW_REMAINING_TIME_BEFORE_FORCED_REFRESH
    TIME_TO_SHOW_ALERT_BEFORE_FORCED_REFRESH w w' ->
  notify (self w') = notify (self w).
Proof.
  intros Hstep.
  assert (forall m : M unit,
    respects (same_on (fun w => notify (self w))) m ->
    forall w0 out, m w0 = Some (tt, w', out) ->
                   notify (self w') = notify (self w0)) as Hsame.
  { intros m Hm w0 out Hrun. symmetry. exact (Hm _ _ _ _ Hrun). }
  destruct Hstep as [notice first_run w w' out H
                    |desktop_folder res w w' out H
                    |source_id data_change_id w w' out Hin H
                    |now res w w' out H
                    |data_snap_name res w w' out H
                    |data_snap_name res w w' out H
                    |dlg w w' out Hdlg H
                    |snap_name w w' out H].
  - eapply Hsame; [|exact H]. unfold notice_cb. respects_auto.
  - eapply Hsame; [|exact H].
    assert (forall change done cancelled,
      respects (same_on (fun w => notify (self w)))
        (update_inhibited_snaps change done cancelled)) as Hinhibited.
    { intros. unfold update_inhibited_snaps, update_inhibited_snap, find_snap,
        remove_snap, remove_dialog, sdi_snap_set_ignored. respects_auto. }
    pose proof (fun desktop_folder change done cancelled =>
      respects_update_dock_snaps (same_on (fun w => notify (self w)))
        desktop_folder change done cancelled
        same_notify_set_refreshing_snap_list) as Hdock.
    unfold manage_change_update. respects_auto.
  - change (notify (self w)) with (notify (self (remove_source source_id w))).
    eapply Hsame; [|exact H]. rewrite refresh_change_eq. respects_auto.
  - eapply Hsame; [|exact H].
    assert (forall returned show snap_list,
      respects (same_on (fun w => notify (self w)))
        (refresh_inhibit_loop
           TIME_TO_SHOW_REMAINING_TIME_BEFORE_FORCED_REFRESH
           TIME_TO_SHOW_ALERT_BEFORE_FORCED_REFRESH now returned show
           snap_list)) as Hloop.
    { induction returned as [|snap rest IH]; intros show snap_list; simpl;
        unfold notify_check_forced_refresh, g_signal_emit_by_name,
          sdi_snap_set_inhibited, add_snap, find_snap; respects_auto. }
    unfold manage_refresh_inhibit. respects_auto.
  - eapply Hsame; [|exact H].
    unfold begin_application_refresh, add_snap, find_snap,
      sdi_refresh_dialog_new, add_dialog_to_main_window, sdi_snap_set_dialog.
    respects_auto.
  - eapply Hsame; [|exact H]. unfold show_snap_completed. respects_auto.
  - eapply Hsame; [|exact H].
    unfold close_dialog_cb, find_snap, remove_dialog,
      sdi_snap_set_manually_hidden, sdi_snap_set_dialog. respects_auto.
  - eapply Hsame; [|exact H].
    unfold sdi_refresh_monitor_ignore_snap_cb, add_snap, find_snap,
      sdi_snap_set_ignored. respects_auto.
Qed.

Lemma reachable_notify_null w : reachable w -> notify (self w) = None.
Proof.
  intros Hreach.
  refine (rtc_ind_r (fun w => notify (self w) = None) initial_world _ _ w
            Hreach); [done|].
  intros y z _ Hstep IH. by rewrite (step_same_notify _ _ Hstep).
Qed.

(** X12: the signal of a forced refresh is never emitted.  The monitor is
    made with [notify] NULL and no handler assigns the field, so it is NULL
    in every world the process can reach.  There the handler of a completed
    query for the inhibited snaps returns and, whatever snaps are due,
    emits no "notify-pending-refresh-forced": [notify_check_forced_refresh]
    asks each emission of the NULL pointer, which GObject refuses. *)
Theorem manage_refresh_inhibit_no_forced_notice
    (now : Z) (returned : list SnapdSnap) (w : World) :
  reachable w ->
  notify (self w) = None
  /\ exists w' out,
       manage_refresh_inhibit TIME_TO_SHOW_REMAINING_TIME_BEFORE_FORCED_REFRESH
         TIME_TO_SHOW_ALERT_BEFORE_FORCED_REFRESH now (AsyncOk returned) w
       = Some (tt, w', out)
       /\ List.filter is_forced_refresh out = [].
Proof.
  intros Hnull%reachable_notify_null. split; [exact Hnull|].
  destruct (manage_refresh_inhibit_state now returned w) as (out & Hrun & Hout).
  eexists _, out. split; [exact Hrun|]. by rewrite Hout, Hnull.
Qed.

End InhibitedSnaps.

(** * More on ignored snaps *)

#[global] Instance mark_kept_preorder name : PreOrder (mark_kept name).
Proof. split; [by intros w | intros a b c Hab Hbc; unfold mark_kept in *; auto]. Qed.

#[global] Instance mark_kept_or_retired_preorder name :
  PreOrder (mark_kept_or_retired name).
Proof.
  split; [intros w; split; auto|].
  intros a b c [Hnone1 Hmark1] [Hnone2 Hmark2]. split; [auto|].
  intros Hmark. destruct (Hmark1 Hmark) as [Hb|Hb]; auto.
Qed.

Section IgnoredSnaps.

Variable name : string.

Lemma mark_kept_same_snaps {A : Type} (m : M A) :
  respects (same_on (fun w => snaps (self w))) m ->
  respects (mark_kept name) m.
Proof.
  intros Hm w a w' out Hrun. unfold mark_kept, is_ignored.
  by rewrite <- (Hm _ _ _ _ Hrun).
Qed.

Lemma mark_retired_same_snaps {A : Type} (m : M A) :
  respects (same_on (fun w => snaps (self w))) m ->
  respects (mark_kept_or_retired name) m.
Proof.
  intros Hm w a w' out Hrun. unfold mark_kept_or_retired, is_ignored.
  rewrite <- (Hm _ _ _ _ Hrun). auto.
Qed.

Lemma same_snaps_set_changes f :
  respects (same_on (fun w => snaps (self w))) (set_changes f).
Proof. by intros w a w' out [= _ <- _]. Qed.

Lemma same_snaps_set_refreshing_snap_list f :
  respects (same_on (fun w => snaps (self w))) (set_refreshing_snap_list f).
Proof. by intros w a w' out [= _ <- _]. Qed.

Lemma same_snaps_set_main_window v :
  respects (same_on (fun w => snaps (self w))) (set_main_window v).
Proof. by intros w a w' out [= _ <- _]. Qed.

Lemma same_snaps_new_object :
  respects (same_on (fun w => snaps (self w))) new_object.
Proof. by intros w a w' out [= _ <- _]. Qed.

Lemma same_snaps_g_timeout_add_once interval data_change_id :
  respects (same_on (fun w => snaps (self w)))
    (g_timeout_add_once interval data_change_id).
Proof. by intros w a w' out [= _ <- _]. Qed.

Lemma mark_kept_alter (f : SdiSnap -> SdiSnap) key :
  (forall snap, ignored snap = true -> ignored (f snap) = true) ->
  respects (mark_kept name) (set_snaps (alter f key)).
Proof.
  intros Hf w a w' out [= _ <- _]. unfold mark_kept, is_ignored.
  cbn [self snaps]. rewrite lookup_alter. case_decide; [subst key|done].
  destruct (snaps (self w) !! name); [apply Hf|done].
Qed.

Lemma mark_retired_alter (f : SdiSnap -> SdiSnap) key :
  (forall snap, ignored snap = true -> ignored (f snap) = true) ->
  respects (mark_kept_or_retired name) (set_snaps (alter f key)).
Proof.
  intros Hf w a w' out [= _ <- _]. unfold mark_kept_or_retired, is_ignored.
  cbn [self snaps]. rewrite lookup_alter. case_decide; [subst key|auto].
  destruct (snaps (self w) !! name); cbn; [|auto].
  split; [done|]. intros Hmark. left. by apply Hf.
Qed.

Lemma mark_retired_delete key :
  respects (mark_kept_or_retired name) (set_snaps (delete key)).
Proof.
  intros w a w' out [= _ <- _]. unfold mark_kept_or_retired, is_ignored.
  cbn [self snaps]. destruct (decide (key = name)) as [->|Hne].
  - rewrite lookup_delete_eq. auto.
  - rewrite lookup_delete_ne by done. auto.
Qed.

Lemma mark_kept_add_snap snap_name :
  respects (mark_kept name) (add_snap snap_name).
Proof.
  intros w a w' out Hrun. rewrite add_snap_eq in Hrun.
  injection Hrun as _ <- _. unfold mark_kept, is_ignored.
  cbn [with_snaps self snaps].
  destruct (snaps (self w) !! snap_name) eqn:Hfound; [done|].
  destruct (decide (snap_name = name)) as [->|Hne].
  - by rewrite Hfound.
  - by rewrite lookup_insert_ne.
Qed.

End IgnoredSnaps.

#[local] Hint Resolve same_snaps_set_changes
  same_snaps_set_refreshing_snap_list same_snaps_set_main_window
  same_snaps_new_object same_snaps_g_timeout_add_once : respects.

#[local] Hint Extern 2 (respects (mark_kept _) _) =>
  apply mark_kept_same_snaps : respects.
#[local] Hint Extern 2 (respects (mark_kept_or_retired _) _) =>
  apply mark_retired_same_snaps : respects.
#[local] Hint Extern 1 (respects (mark_kept _) (set_snaps (alter _ _))) =>
  apply mark_kept_alter; intros []; by cbn : respects.
#[local] Hint Extern 1
    (respects (mark_kept_or_retired _) (set_snaps (alter _ _))) =>
  apply mark_retired_alter; intros []; by cbn : respects.
#[local] Hint Resolve mark_retired_delete mark_kept_add_snap : respects.

Section IgnoreMark.

Variable TIME_TO_SHOW_REMAINING_TIME_BEFORE_FORCED_REFRESH : Z.
Variable TIME_TO_SHOW_ALERT_BEFORE_FORCED_REFRESH : Z.

Let step := step TIME_TO_SHOW_REMAINING_TIME_BEFORE_FORCED_REFRESH
              TIME_TO_SHOW_ALERT_BEFORE_FORCED_REFRESH.
Let reachable := reachable TIME_TO_SHOW_REMAINING_TIME_BEFORE_FORCED_REFRESH
                   TIME_TO_SHOW_ALERT_BEFORE_FORCED_REFRESH.

(** X13: the monitor never withdraws the mark of an ignored snap.  Whatever
    handler the main loop runs next, a snap marked ignored before it is
    marked ignored after it, or has no record any more; and the record goes
    only in the handling of a fetched change. *)
Theorem ignored_mark_stays (name : string) (w w' : World) :
  step w w' ->
  is_ignored w name = true ->
  is_ignored w' name = true
  \/ (snaps (self w') !! name = None
      /\ exists desktop_folder res out,
           manage_change_update desktop_folder res w = Some (tt, w', out)).
Proof.
  intros Hstep Hmark.
  assert (forall m, respects (mark_kept name) m ->
                    forall out, m w = Some (tt, w', out) ->
                    is_ignored w' name = true) as Hkept.
  { intros m Hm out Hrun. exact (Hm _ _ _ _ Hrun Hmark). }
  destruct Hstep as [notice first_run w w' out H
                    |desktop_folder res w w' out H
                    |source_id data_change_id w w' out Hin H
                    |now res w w' out H
                    |data_snap_name res w w' out H
                    |data_snap_name res w w' out H
                    |dlg w w' out Hdlg H
                    |snap_name w w' out H].
  - left. eapply Hkept; [|exact H]. unfold notice_cb. respects_auto.
  - assert (respects (mark_kept_or_retired name)
              (manage_change_update desktop_folder res)) as Hresp.
    { assert (forall change done cancelled,
        respects (mark_kept_or_retired name)
          (update_inhibited_snaps change done cancelled)) as Hinhibited.
      { intros. unfold update_inhibited_snaps, update_inhibited_snap, find_snap,
          remove_snap, remove_dialog, sdi_snap_set_ignored. respects_auto. }
      pose proof (fun desktop_folder change done cancelled =>
        respects_update_dock_snaps (mark_kept_or_retired name) desktop_folder
          change done cancelled
          (fun f => mark_retired_same_snaps name _
                      (same_snaps_set_refreshing_snap_list f))) as Hdock.
      unfold manage_change_update. respects_auto. }
    destruct (Hresp _ _ _ _ H) as [_ Hafter].
    destruct (Hafter Hmark) as [Hstays|Hgone]; [by left|].
    right. split; [done|]. by exists desktop_folder, res, out.
  - left. rewrite refresh_change_eq in H.
    assert (is_ignored (remove_source source_id w) name = true) as Hmark'
      by done.
    assert (respects (mark_kept name)
              (set_changes (delete data_change_id);;
               emit (SnapdClientGetChangeAsync data_change_id))) as Hresp
      by respects_auto.
    exact (Hresp _ _ _ _ H Hmark').
  - left. eapply Hkept; [|exact H].
    assert (forall returned show snap_list,
      respects (mark_kept name)
        (refresh_inhibit_loop
           TIME_TO_SHOW_REMAINING_TIME_BEFORE_FORCED_REFRESH
           TIME_TO_SHOW_ALERT_BEFORE_FORCED_REFRESH now returned show
           snap_list)) as Hloop.
    { induction returned as [|snap rest IH]; intros show snap_list; simpl;
        unfold notify_check_forced_refresh, g_signal_emit_by_name,
        sdi_snap_set_inhibited;
        respects_auto. }
    unfold manage_refresh_inhibit. respects_auto.
  - left. eapply Hkept; [|exact H].
    unfold begin_application_refresh, sdi_refresh_dialog_new,
      add_dialog_to_main_window, sdi_snap_set_dialog. respects_auto.
  - left. eapply Hkept; [|exact H]. unfold show_snap_completed. respects_auto.
  - left. eapply Hkept; [|exact H].
    unfold close_dialog_cb, find_snap, remove_dialog,
      sdi_snap_set_manually_hidden, sdi_snap_set_dialog. respects_auto.
  - left. eapply Hkept; [|exact H].
    unfold sdi_refresh_monitor_ignore_snap_cb, sdi_snap_set_ignored.
    respects_auto.
Qed.

Lemma manage_refresh_inhibit_pending now returned w :
  exists w' out,
    manage_refresh_inhibit TIME_TO_SHOW_REMAINING_TIME_BEFORE_FORCED_REFRESH
      TIME_TO_SHOW_ALERT_BEFORE_FORCED_REFRESH now (AsyncOk returned) w
    = Some (tt, w', out)
    /\ List.filter is_pending_refresh out
       = if existsb (not_ignored_in w) returned
         then [SignalNotifyPendingRefresh (named_snaps returned)]
         else [].
Proof.
  unfold manage_refresh_inhibit.
  destruct returned as [|snap rest]; [by exists w, []|].
  cbn [length Nat.eqb].
  destruct (refresh_inhibit_loop_run
              TIME_TO_SHOW_REMAINING_TIME_BEFORE_FORCED_REFRESH
              TIME_TO_SHOW_ALERT_BEFORE_FORCED_REFRESH now (snap :: rest)
              false [] w) as (w' & out & Hrun & _ & Hout).
  erewrite bind_eq by exact Hrun. cbn [orb app].
  destruct (existsb (not_ignored_in w) (snap :: rest));
    eexists _, _; (split; [reflexivity|]); by rewrite List.filter_app, Hout.
Qed.

(** X14: "Don't remind me anymore".  In a world the process can reach, the
    callback returns and only logs; after it the snap has a record marked
    ignored, made new when it had none and otherwise as it was in every
    other respect, and the records of all other snaps are as before.  From
    then on a completed query for the inhibited snaps raises no
    "notify-pending-refresh" while every named snap it returns is this one
    or was marked ignored already. *)
Theorem ignore_snap_cb_silences (ignored_name : string) (w : World) :
  reachable w ->
  exists w',
    sdi_refresh_monitor_ignore_snap_cb ignored_name w
    = Some (tt, w', [GDebug ("Ignoring refreshes for " +:+ ignored_name)])
    /\ (forall name,
          snaps (self w') !! name
          = if bool_decide (name = ignored_name)
            then Some (with_ignored true
                         (default (sdi_snap_new name) (snaps (self w) !! name)))
            else snaps (self w) !! name)
    /\ forall now returned,
         (forall snap name,
            In snap returned -> snap_name snap = Some name ->
            name = ignored_name \/ is_ignored w name = true) ->
         exists w'' out,
           manage_refresh_inhibit
             TIME_TO_SHOW_REMAINING_TIME_BEFORE_FORCED_REFRESH
             TIME_TO_SHOW_ALERT_BEFORE_FORCED_REFRESH now (AsyncOk returned) w'
           = Some (tt, w'', out)
           /\ List.filter is_pending_refresh out = [].
Proof.
  intros (Hkeyed & _)%reachable_dialogs_match_snaps.
  set (snap_data := default (sdi_snap_new ignored_name)
                      (snaps (self w) !! ignored_name)).
  assert (sdi_name snap_data = ignored_name) as Hkey.
  { subst snap_data.
    destruct (snaps (self w) !! ignored_name) as [found|] eqn:Hfound;
      [by apply Hkeyed|done]. }
  set (w' := with_snaps
               (fun m => alter (with_ignored true) ignored_name
                           (match m !! ignored_name with
                            | Some _ => m
                            | None => <[ignored_name := sdi_snap_new ignored_name]> m
                            end)) w).
  assert (forall name,
    snaps (self w') !! name
    = if bool_decide (name = ignored_name)
      then Some (with_ignored true
                   (default (sdi_snap_new name) (snaps (self w) !! name)))
      else snaps (self w) !! name) as Hlookup.
  { intros name. subst w'. cbn [with_snaps self snaps]. rewrite lookup_alter.
    case_bool_decide as Heq.
    - subst name. rewrite decide_True by done.
      destruct (snaps (self w) !! ignored_name) as [found|] eqn:Hfound;
        [by rewrite Hfound|]. by rewrite lookup_insert_eq.
    - rewrite decide_False by done.
      destruct (snaps (self w) !! ignored_name); [done|].
      by rewrite lookup_insert_ne. }
  exists w'. split; [|split; [exact Hlookup|]].
  - unfold sdi_refresh_monitor_ignore_snap_cb.
    erewrite bind_eq by reflexivity.
    erewrite bind_eq by apply add_snap_eq.
    unfold sdi_snap_set_ignored. fold snap_data. by rewrite Hkey, set_snaps_eq.
  - intros now returned Hall.
    destruct (manage_refresh_inhibit_pending now returned w')
      as (w'' & out & Hrun & Hout).
    exists w'', out. split; [exact Hrun|]. rewrite Hout.
    destruct (existsb (not_ignored_in w') returned) eqn:Hsome; [exfalso|done].
    apply existsb_exists in Hsome as (snap & Hin & Hnot).
    unfold not_ignored_in in Hnot.
    destruct (snap_name snap) as [name|] eqn:Hname; [|done].
    apply negb_true_iff in Hnot. unfold is_ignored in Hnot.
    rewrite Hlookup in Hnot. case_bool_decide as Heq; [done|].
    destruct (Hall snap name Hin Hname) as [?|Hmark]; [done|].
    unfold is_ignored in Hmark. by rewrite Hmark in Hnot.
Qed.

End IgnoreMark.

Lemma ignoring_world_reachable : reachable 0 0 ignoring_world.
Proof.
  eapply rtc_l; [|apply rtc_refl].
  eapply (step_ignore_snap 0 0 "b" initial_world ignoring_world
            (output_of (sdi_refresh_monitor_ignore_snap_cb "b") initial_world)).
  vm_compute. reflexivity.
Qed.

Lemma ignored_mark_stays_witness :
  is_ignored
    (world_after (manage_refresh_inhibit 0 0 0 (AsyncOk [sample_snap "b"]))
       ignoring_world) "b" = true
  \/ (snaps (self (world_after
                     (manage_refresh_inhibit 0 0 0 (AsyncOk [sample_snap "b"]))
                     ignoring_world)) !! "b" = None
      /\ exists desktop_folder res out,
           manage_change_update desktop_folder res ignoring_world
           = Some (tt,
                   world_after
                     (manage_refresh_inhibit 0 0 0 (AsyncOk [sample_snap "b"]))
                     ignoring_world,
                   out)).
Proof.
  apply (ignored_mark_stays 0 0 "b" ignoring_world).
  - eapply (step_snaps_fetched 0 0 0 (AsyncOk [sample_snap "b"]) ignoring_world
              _ (output_of (manage_refresh_inhibit 0 0 0
                              (AsyncOk [sample_snap "b"])) ignoring_world)).
    vm_compute. reflexivity.
  - vm_compute. reflexivity.
Defined.

Lemma ignore_snap_cb_silences_witness :
  exists w',
    sdi_refresh_monitor_ignore_snap_cb "p" inhibited_world
    = Some (tt, w', [GDebug ("Ignoring refreshes for " +:+ "p")])
    /\ (forall name,
          snaps (self w') !! name
          = if bool_decide (name = "p")
            then Some (with_ignored true
                         (default (sdi_snap_new name)
                            (snaps (self inhibited_world) !! name)))
            else snaps (self inhibited_world) !! name)
    /\ forall now returned,
         (forall snap name,
            In snap returned -> snap_name snap = Some name ->
            name = "p" \/ is_ignored inhibited_world name = true) ->
         exists w'' out,
           manage_refresh_inhibit 0 0 now (AsyncOk returned) w'
           = Some (tt, w'', out)
           /\ List.filter is_pending_refresh out = [].
Proof.
  apply (ignore_snap_cb_silences 0 0 "p" inhibited_world).
  apply inhibited_world_reachable.
Defined.

Lemma manage_refresh_inhibit_marks_inhibited_witness :
  exists w' out,
    manage_refresh_inhibit 0 0 0 (AsyncOk [sample_snap "a"; sample_snap "b"])
      ignoring_world
    = Some (tt, w', out)
    /\ (forall name,
          snaps (self w') !! name
          = if bool_decide
                 (name ∈ returned_names [sample_snap "a"; sample_snap "b"])
            then Some (with_inhibited true
                         (default (sdi_snap_new name)
                            (snaps (self ignoring_world) !! name)))
            else snaps (self ignoring_world) !! name)
    /\ changes (self w') = changes (self ignoring_world)
    /\ refreshing_snap_list (self w') = refreshing_snap_list (self ignoring_world)
    /\ main_window (self w') = main_window (self ignoring_world)
    /\ timeouts w' = timeouts ignoring_world.
Proof.
  apply (manage_refresh_inhibit_marks_inhibited 0 0 0
           [sample_snap "a"; sample_snap "b"] ignoring_world).
  apply ignoring_world_reachable.
Defined.

(** * More on the progress aggregator *)

Lemma update_dock_affected_counts desktop_folder task_done done cancelled
    affected :
  forall snaps_to_remove w,
    update_dock_affected desktop_folder task_done done cancelled affected
      snaps_to_remove w
    = Some ((if done || cancelled then rev affected else []) ++ snaps_to_remove,
            with_refreshing_snap_list
              (fun m => counted_table desktop_folder m
                          (map (pair task_done) affected)) w,
            []).
Proof.
  induction affected as [|snap_name rest IH]; intros snaps_to_remove w.
  - destruct w as [[] ? ? ?]. by destruct (done || cancelled).
  - cbn [update_dock_affected].
    erewrite bind_eq by reflexivity.
    erewrite bind_eq.
    2:{ instantiate (1 := []). instantiate (1 := with_refreshing_snap_list
          (fun m => if bool_decide (is_Some (m !! snap_name)) then m
                    else <[snap_name := new_progress_task_data desktop_folder
                                          snap_name]> m) w).
        instantiate (1 := tt).
        destruct w as [[nt sn ch m mw] ts ns no].
        unfold with_refreshing_snap_list. cbn [self refreshing_snap_list].
        by case_bool_decide. }
    erewrite bind_eq by apply set_refreshing_snap_list_eq.
    rewrite IH. cbn [app]. f_equal. f_equal. f_equal.
    destruct (done || cancelled); [|done].
    cbn [rev]. by rewrite <- app_assoc.
Qed.

Lemma counted_table_app desktop_folder m rounds1 rounds2 :
  counted_table desktop_folder m (rounds1 ++ rounds2)
  = counted_table desktop_folder (counted_table desktop_folder m rounds1) rounds2.
Proof. apply foldl_app. Qed.

Lemma update_dock_tasks_counts desktop_folder done cancelled tasks :
  forall snaps_to_remove w,
    update_dock_tasks desktop_folder done cancelled tasks snaps_to_remove w
    = Some ((if done || cancelled
             then rev (map snd (affected_occurrences tasks)) else [])
            ++ snaps_to_remove,
            with_refreshing_snap_list
              (fun m => counted_table desktop_folder m
                          (affected_occurrences tasks)) w,
            []).
Proof.
  induction tasks as [|task rest IH]; intros snaps_to_remove w.
  - destruct w as [[] ? ? ?]. by destruct (done || cancelled).
  - cbn [update_dock_tasks affected_occurrences flat_map].
    fold (affected_occurrences rest).
    destruct (task_data task) as [[[affected|]]|]; try apply IH.
    cbn [affected_snaps].
    erewrite bind_eq by apply update_dock_affected_counts.
    rewrite IH. cbn [app].
    assert (forall b : bool,
      (if b then rev (map snd (affected_occurrences rest)) else [])
      ++ (if b then rev affected else []) ++ snaps_to_remove
      = (if b
         then rev (map snd (map (pair (status_is_done (task_status task)))
                              affected ++ affected_occurrences rest))
         else []) ++ snaps_to_remove) as ->.
    { intros [|]; [|done].
      rewrite map_app, rev_app_distr, <- app_assoc. do 2 f_equal.
      rewrite map_map. cbn [snd]. by rewrite map_id. }
    unfold with_refreshing_snap_list. cbn [self refreshing_snap_list].
    by rewrite counted_table_app.
Qed.

Lemma count_affected_lookup desktop_folder task_done snap_name m name :
  count_affected desktop_folder task_done snap_name m !! name
  = if String.eqb snap_name name
    then Some (count_task task_done
                 (default (new_progress_task_data desktop_folder name)
                    (m !! name)))
    else m !! name.
Proof.
  unfold count_affected. rewrite lookup_alter.
  destruct (String.eqb_spec snap_name name) as [->|Hne].
  - rewrite decide_True by done. case_bool_decide as Hin.
    + by destruct Hin as [p ->].
    + apply eq_None_not_Some in Hin. by rewrite lookup_insert_eq, Hin.
  - rewrite decide_False by done. case_bool_decide; [done|].
    by rewrite lookup_insert_ne.
Qed.

Lemma counted_table_lookup desktop_folder rounds :
  forall m name,
    counted_table desktop_folder m rounds !! name
    = match occurrences_of name rounds with
      | [] => m !! name
      | flags =>
          Some (foldl (fun p task_done => count_task task_done p)
                  (default (new_progress_task_data desktop_folder name)
                     (m !! name))
                  flags)
      end.
Proof.
  induction rounds as [|[task_done snap_name] rounds IH]; intros m name; [done|].
  unfold counted_table, occurrences_of in *. cbn [foldl List.filter fst snd].
  rewrite IH, count_affected_lookup.
  destruct (String.eqb snap_name name); cbn [map fst foldl default].
  - by destruct (map fst _).
  - done.
Qed.

Lemma last_cons_default {A : Type} (x : A) (l : list A) (d d' : A) :
  List.last (x :: l) d = List.last (x :: l) d'.
Proof.
  revert x. induction l as [|y l IH]; intros x; [done|].
  change (List.last (y :: l) d = List.last (y :: l) d'). apply IH.
Qed.

Lemma foldl_count_task flags :
  forall p,
    let p' := foldl (fun p task_done => count_task task_done p) p flags in
    old_progress p' = old_progress p
    /\ desktop_files p' = desktop_files p
    /\ done p' = List.last flags (done p)
    /\ (flags <> [] ->
        total_tasks p'
        = (total_tasks p + Z.of_nat (length flags)) mod guint_max)
    /\ (List.filter id flags <> [] ->
        done_tasks p'
        = (done_tasks p + Z.of_nat (length (List.filter id flags)))
          mod guint_max)
    /\ (List.filter id flags = [] -> done_tasks p' = done_tasks p).
Proof.
  induction flags as [|task_done flags IH]; intros p; [done|].
  cbn [foldl]. destruct (IH (count_task task_done p))
    as (Hold & Hfiles & Hdone & Htotal & Hcount & Hnone).
  cbn zeta. rewrite Hold, Hfiles, Hdone.
  cbn [count_task old_progress desktop_files done total_tasks done_tasks] in *.
  split; [done|]. split; [done|]. split.
  { destruct flags as [|flag flags]; [done|].
    change (List.last (flag :: flags) task_done
            = List.last (flag :: flags) (done p)).
    apply last_cons_default. }
  assert (forall n k : Z, ((n + 1) mod guint_max + k) mod guint_max
                          = (n + (1 + k)) mod guint_max) as Hwrap.
  { intros n k. rewrite Zplus_mod_idemp_l. f_equal. lia. }
  split.
  { intros _. destruct flags as [|flag flags].
    - cbn. unfold guint_incr. f_equal.
    - rewrite Htotal by done. unfold guint_incr. rewrite Hwrap. f_equal.
      cbn [length]. lia. }
  destruct task_done; cbn [List.filter id].
  - split; [intros _|done].
    destruct (List.filter id flags) as [|flag done_flags] eqn:Hflags.
    + rewrite Hnone by done. cbn. unfold guint_incr. f_equal.
    + rewrite Hcount by done. unfold guint_incr. rewrite Hwrap. f_equal.
      cbn [length]. lia.
  - split; [exact Hcount|exact Hnone].
Qed.

(** X15: the counting loops of a pass.  They return and make no call.  For a
    snap whose entry has no tasks counted, or that has no entry, the
    entry after them is as before when no task of the change names the
    snap; and otherwise it holds, modulo 2^32, the number of times the
    tasks name the snap as its total and the number of those times in
    which the task is finished as its done tasks, the flag of the task
    that names it last, the last fraction it had, or -1 when it is new,
    and the desktop files it had, or the ones found for it now. *)
Theorem update_dock_tasks_counting
    (desktop_folder : option (list string)) (change : SnapdChange)
    (change_done change_cancelled : bool) (name : string) (w : World) :
  match refreshing_snap_list (self w) !! name with
  | Some p => total_tasks p = 0 /\ done_tasks p = 0
  | None => True
  end ->
  let flags :=
    occurrences_of name (affected_occurrences (change_tasks change)) in
  exists snaps_to_remove counted,
    update_dock_tasks desktop_folder change_done change_cancelled
      (change_tasks change) [] w
    = Some (snaps_to_remove, with_refreshing_snap_list (fun _ => counted) w, [])
    /\ (flags = [] -> counted !! name = refreshing_snap_list (self w) !! name)
    /\ (flags <> [] ->
        exists p,
          counted !! name = Some p
          /\ total_tasks p = Z.of_nat (length flags) mod 2 ^ 32
          /\ done_tasks p = Z.of_nat (length (List.filter id flags)) mod 2 ^ 32
          /\ done p = List.last flags false
          /\ old_progress p
             = match refreshing_snap_list (self w) !! name with
               | Some p0 => old_progress p0
               | None => (-1)%float
               end
          /\ desktop_files p
             = match refreshing_snap_list (self w) !! name with
               | Some p0 => desktop_files p0
               | None => get_desktop_filenames_for_snap desktop_folder name
               end).
Proof.
  intros Hidle flags.
  eexists _, _. split.
  { rewrite update_dock_tasks_counts. reflexivity. }
  rewrite counted_table_lookup. fold flags. split; [by intros ->|].
  intros Hflags. destruct flags as [|flag flags'] eqn:Heq; [done|].
  rewrite <- Heq in *. clear Heq flag flags'.
  set (p0 := default (new_progress_task_data desktop_folder name)
               (refreshing_snap_list (self w) !! name)).
  eexists. split; [reflexivity|].
  destruct (foldl_count_task flags p0)
    as (Hold & Hfiles & Hdone & Htotal & Hcount & Hnone).
  assert (total_tasks p0 = 0 /\ done_tasks p0 = 0) as [Htotal0 Hdone0].
  { subst p0. by destruct (refreshing_snap_list (self w) !! name). }
  split; [by rewrite Htotal, Htotal0|]. split.
  { destruct (List.filter id flags) as [|flag done_flags] eqn:Hflag.
    - by rewrite Hnone, Hdone0.
    - by rewrite Hcount, Hdone0. }
  split.
  { rewrite Hdone. destruct flags as [|flag rest]; [done|].
    apply last_cons_default. }
  subst p0. rewrite Hold, Hfiles.
  by destruct (refreshing_snap_list (self w) !! name).
Qed.

Lemma update_dock_tasks_counting_witness :
  exists snaps_to_remove counted,
    update_dock_tasks sample_folder false false (change_tasks change_doing) []
      initial_world
    = Some (snaps_to_remove,
            with_refreshing_snap_list (fun _ => counted) initial_world, [])
    /\ (occurrences_of "p"
       (affected_occurrences (change_tasks change_doing)) = [] ->
        counted !! "p" = refreshing_snap_list (self initial_world) !! "p")
    /\ (occurrences_of "p"
       (affected_occurrences (change_tasks change_doing)) <> [] ->
        exists p,
          counted !! "p" = Some p
          /\ total_tasks p = Z.of_nat (length [true; false; false]) mod 2 ^ 32
          /\ done_tasks p
             = Z.of_nat (length (List.filter id [true; false; false])) mod 2 ^ 32
          /\ done p = List.last [true; false; false] false
          /\ old_progress p
             = match refreshing_snap_list (self initial_world) !! "p" with
               | Some p0 => old_progress p0
               | None => (-1)%float
               end
          /\ desktop_files p
             = match refreshing_snap_list (self initial_world) !! "p" with
               | Some p0 => desktop_files p0
               | None => get_desktop_filenames_for_snap sample_folder "p"
               end).
Proof.
  apply (update_dock_tasks_counting sample_folder change_doing false false "p"
           initial_world).
  vm_compute. exact I.
Defined.

Lemma foldl_delete_lookup (keys : list string) :
  forall (m : gmap string SnapProgressTaskData) key,
    foldl (fun m snap_name => delete snap_name m) m keys !! key
    = if bool_decide (key ∈ keys) then None else m !! key.
Proof.
  induction keys as [|key0 keys IH]; intros m key; [done|].
  cbn [foldl]. rewrite IH.
  destruct (decide (key = key0)) as [->|Hne].
  - rewrite (bool_decide_eq_true_2 (key0 ∈ key0 :: keys)) by (by left).
    rewrite lookup_delete_eq. by case_bool_decide.
  - rewrite lookup_delete_ne by done.
    destruct (decide (key ∈ keys)) as [Hin|Hout].
    + rewrite !bool_decide_eq_true_2; [done | by right | done].
    + rewrite !bool_decide_eq_false_2; [done | | done].
      by intros [?|?]%elem_of_cons.
Qed.

Lemma occurrences_of_nil name rounds :
  occurrences_of name rounds = [] <-> ~ In name (map snd rounds).
Proof.
  unfold occurrences_of. induction rounds as [|[flag snap_name] rounds IH].
  - cbn. split; [by intros _ []|done].
  - cbn [List.filter map snd In].
    destruct (String.eqb_spec snap_name name) as [->|Hne].
    + split; [done|]. intros Hout. exfalso. apply Hout. by left.
    + rewrite IH. split; [by intros Hout [?|?] | by intros Hout ?; apply Hout; right].
Qed.

(** X16: the entries of a pass that ends.  Over a table whose entries all have
    their arrays and with the applications folder readable, the pass
    returns.  After it a snap that no task of the change names has the
    entry it had, with the counters it may have had cleared by the
    emission; a snap that a task names has no entry when the change is done
    or cancelled, and has one otherwise.  Snap records, tracked changes,
    window and timers are as before. *)
Theorem update_dock_snaps_retires_entries
    (names : list string) (change : SnapdChange)
    (change_done change_cancelled : bool) (w : World) :
  files_known (refreshing_snap_list (self w)) ->
  exists w' out,
    update_dock_snaps (Some names) change change_done change_cancelled w
    = Some (tt, w', out)
    /\ (forall name,
          ~ In name (map snd (affected_occurrences (change_tasks change))) ->
          refreshing_snap_list (self w') !! name
          = spec_entry_after <$> refreshing_snap_list (self w) !! name)
    /\ (forall name,
          In name (map snd (affected_occurrences (change_tasks change))) ->
          if change_done || change_cancelled
          then refreshing_snap_list (self w') !! name = None
          else is_Some (refreshing_snap_list (self w') !! name))
    /\ snaps (self w') = snaps (self w)
    /\ changes (self w') = changes (self w)
    /\ main_window (self w') = main_window (self w)
    /\ timeouts w' = timeouts w.
Proof.
  intros Hknown.
  destruct (update_dock_snaps_run names change change_done change_cancelled w
              Hknown)
    as (snaps_to_remove & counted & Hcount & _ & _ & Hpass).
  rewrite update_dock_tasks_counts, app_nil_r in Hcount.
  injection Hcount as Hremove Hcounted.
  eexists _, _. split; [exact Hpass|].
  cbn [with_refreshing_snap_list self refreshing_snap_list snaps changes
       main_window timeouts].
  set (rounds := affected_occurrences (change_tasks change)) in *.
  assert (forall name,
    counted !! name
    = match occurrences_of name rounds with
      | [] => refreshing_snap_list (self w) !! name
      | flags =>
          Some (foldl (fun p task_done => count_task task_done p)
                  (default (new_progress_task_data (Some names) name)
                     (refreshing_snap_list (self w) !! name))
                  flags)
      end) as Hlookup.
  { intros name. rewrite <- Hcounted. apply counted_table_lookup. }
  split; [|split; [|done]].
  - intros name Hout. rewrite foldl_delete_lookup, lookup_fmap, Hlookup.
    apply occurrences_of_nil in Hout as Hnone. rewrite Hnone.
    case_bool_decide as Hin; [|done]. exfalso. apply Hout.
    subst snaps_to_remove. destruct (change_done || change_cancelled).
    + by apply list_elem_of_In, in_rev in Hin.
    + by apply elem_of_nil in Hin.
  - intros name Hin. rewrite foldl_delete_lookup, lookup_fmap, Hlookup.
    subst snaps_to_remove. destruct (change_done || change_cancelled).
    + rewrite bool_decide_eq_true_2; [done|].
      by apply list_elem_of_In, in_rev; rewrite rev_involutive.
    + rewrite bool_decide_eq_false_2 by apply not_elem_of_nil.
      destruct (occurrences_of name rounds) eqn:Hflags; [|by eexists].
      by apply occurrences_of_nil in Hflags.
Qed.

Lemma update_dock_snaps_retires_entries_witness :
  exists w' out,
    update_dock_snaps (Some ["p_p.desktop"]) change_done true false
      initial_world
    = Some (tt, w', out)
    /\ (forall name,
          ~ In name (map snd (affected_occurrences (change_tasks change_done))) ->
          refreshing_snap_list (self w') !! name
          = spec_entry_after <$> refreshing_snap_list (self initial_world) !! name)
    /\ (forall name,
          In name (map snd (affected_occurrences (change_tasks change_done))) ->
          if true || false
          then refreshing_snap_list (self w') !! name = None
          else is_Some (refreshing_snap_list (self w') !! name))
    /\ snaps (self w') = snaps (self initial_world)
    /\ changes (self w') = changes (self initial_world)
    /\ main_window (self w') = main_window (self initial_world)
    /\ timeouts w' = timeouts initial_world.
Proof.
  apply (update_dock_snaps_retires_entries ["p_p.desktop"] change_done true
           false initial_world).
  intros key p Hp.
  change ((∅ : gmap string SnapProgressTaskData) !! key = Some p) in Hp.
  by rewrite lookup_empty in Hp.
Defined.

Lemma manage_refresh_inhibit_no_forced_notice_witness :
  notify (self ignoring_world) = None
  /\ exists w' out,
       manage_refresh_inhibit 0 0 0 (AsyncOk [sample_snap "a"; sample_snap "b"])
         ignoring_world
       = Some (tt, w', out)
       /\ List.filter is_forced_refresh out = [].
Proof.
  apply (manage_refresh_inhibit_no_forced_notice 0 0 0
           [sample_snap "a"; sample_snap "b"] ignoring_world).
  apply ignoring_world_reachable.
Defined.

(** * The applications folder that cannot be opened *)

(** C4: a pass that stops.  The applications folder cannot be opened, the
    monitor is new, and the fetched change has three tasks on the snap "p",
    one of them done.  The counting loops return: they make the entry of
    "p", with NULL for its array of desktop files, and count the three
    tasks.  [update_dock_bar] on this entry takes the fraction, finds it
    new, and reads the length of the array through the NULL pointer: it
    has no result, and so neither the emission for the table, nor the pass,
    nor the handler has one.  The claim has the pass emit to every captured
    target of the entry, which here has none.  With the folder readable the
    same pass returns and emits to the desktop file of "p". *)
Theorem update_dock_snaps_null_desktop_files :
  let counted_entry :=
    {| total_tasks := 3; done_tasks := 1; old_progress := (-1)%float;
       done := false; desktop_files := None |} in
  update_dock_tasks None false false (change_tasks change_doing) []
    initial_world
  = Some ([],
          with_refreshing_snap_list (fun _ => {[ "p" := counted_entry ]})
            initial_world,
          [])
  /\ update_dock_bar counted_entry = None
  /\ foreach_update_dock_bar
       (with_refreshing_snap_list (fun _ => {[ "p" := counted_entry ]})
          initial_world)
     = None
  /\ update_dock_snaps None change_doing false false initial_world = None
  /\ manage_change_update None (AsyncOk change_doing) initial_world = None
  /\ output_of (update_dock_snaps sample_folder change_doing false false)
       initial_world
     = [LauncherEntryEmitUpdate "p_p.desktop"
          (launcher_values
             (PrimFloat.div (gdouble_of_guint 1) (gdouble_of_guint 3)) false)].
Proof. repeat split; vm_compute; reflexivity. Qed.

(** C9: an entry whose lookup found nothing because the folder could not be
    opened.  For the snap "z" the lookup then gives NULL, not an empty
    array, and the new entry holds NULL.  As soon as one task is counted
    for it, [update_dock_bar] reads the length of the array through the
    NULL pointer and has no result, and the handler of the fetched change
    that names "z" has none either: the entry is not inert, as the claim
    has it.  With the folder opened and no file of "z" in it the entry
    holds an empty array; [update_dock_bar] then returns and emits nothing,
    whatever the done flag is. *)
Theorem no_desktop_files_null_array :
  get_desktop_filenames_for_snap None "z" = None
  /\ desktop_files (new_progress_task_data None "z") = None
  /\ update_dock_bar (count_task false (new_progress_task_data None "z"))
     = None
  /\ update_dock_bar (count_task true (new_progress_task_data None "z"))
     = None
  /\ manage_change_update None (AsyncOk change_z) initial_world = None
  /\ get_desktop_filenames_for_snap sample_folder "z" = Some []
  /\ (forall task_done,
        exists p',
          update_dock_bar
            (count_task task_done (new_progress_task_data sample_folder "z"))
          = Some (p', [])).
Proof.
  do 6 (split; [vm_compute; reflexivity|]).
  intros [|]; eexists; vm_compute; reflexivity.
Qed.
